(** * Release notifications: the Slack release bot, verified

    A shallow embedding of the two variants of the release-notification
    script, [slackbot.py] (module [Root] below) and [tool/slackbot.py]
    (module [Tool] below), and the properties of its components: the
    repository locator, the tag resolver, the metadata fetchers, the message
    formatter, the notification dispatcher and the info persister.

    Conventions of the embedding.
    - A Python [str] is a [string]; every character stands for one code point
      below 256.
    - The outside world (the [git ls-remote] subprocess, the hosting
      platform's REST API, the webhooks, the file system) is a record of
      oracles [World]; an oracle sees the external calls made so far, so the
      same request may be answered differently at different times.
    - Effectful code runs in the monad [M]: it threads the list of external
      calls, the lines written to the output streams and the file system,
      and either returns a value or raises a Python exception. *)

From Stdlib Require Import ZArith Ascii String Lia DecimalString.
From stdpp Require Import gmap strings list.

Local Open Scope Z_scope.
Local Open Scope nat_scope.

(** ** Characters and strings, with Python's [str] operations *)

Definition LF : ascii := "010"%char.
Definition TAB : ascii := "009"%char.
Definition CR : ascii := "013"%char.
Definition DQUOTE : ascii := "034"%char.
Definition BACKSLASH : ascii := "092"%char.

Definition str1 (c : ascii) : string := String c EmptyString.
Definition NL : string := str1 LF.

Definition code (c : ascii) : N := N_of_ascii c.

(** [s.startswith(p)] *)
Fixpoint startswith (p s : string) : bool :=
  match p, s with
  | EmptyString, _ => true
  | String _ _, EmptyString => false
  | String a p', String b s' => Ascii.eqb a b && startswith p' s'
  end.

(** [sub in s] *)
Fixpoint str_in (sub s : string) : bool :=
  startswith sub s ||
  match s with
  | EmptyString => false
  | String _ s' => str_in sub s'
  end.

(** [c in s] for a single character *)
Fixpoint char_in (c : ascii) (s : string) : bool :=
  match s with
  | EmptyString => false
  | String b s' => Ascii.eqb c b || char_in c s'
  end.

(** [s.split(sep)] for a non-empty separator: the pieces between the
    non-overlapping occurrences of [sep], found from the left.  [skip]
    counts the characters of a separator still to be passed over.  The result
    is the first piece and the list of the others: [split] never returns an
    empty list. *)
Fixpoint split_from (sep : string) (skip : nat) (s : string) : string * list string :=
  match s with
  | EmptyString => (EmptyString, [])
  | String c s' =>
      match skip with
      | S k => split_from sep k s'
      | O =>
          if startswith sep s
          then let '(p, ps) := split_from sep (String.length sep - 1) s' in
               (EmptyString, p :: ps)
          else let '(p, ps) := split_from sep 0 s' in
               (String c p, ps)
      end
  end.

Definition str_split (sep s : string) : list string :=
  let '(p, ps) := split_from sep 0 s in p :: ps.

(** [s.replace(old, new)] for a non-empty [old]. *)
Fixpoint replace_from (old new : string) (skip : nat) (s : string) : string :=
  match s with
  | EmptyString => EmptyString
  | String c s' =>
      match skip with
      | S k => replace_from old new k s'
      | O =>
          if startswith old s
          then new +:+ replace_from old new (String.length old - 1) s'
          else String c (replace_from old new 0 s')
      end
  end.

Definition str_replace (old new s : string) : string := replace_from old new 0 s.

(** [s.lstrip(chars)] *)
Fixpoint str_lstrip (chars s : string) : string :=
  match s with
  | EmptyString => EmptyString
  | String c s' => if char_in c chars then str_lstrip chars s' else s
  end.

(** [s.rstrip(chars)], by a pass that keeps a suffix only when something
    outside [chars] follows. *)
Fixpoint str_rstrip (chars s : string) : string :=
  match s with
  | EmptyString => EmptyString
  | String c s' =>
      match str_rstrip chars s' with
      | EmptyString => if char_in c chars then EmptyString else str1 c
      | r => String c r
      end
  end.

(** The characters [str.isspace] accepts, among the code points below 256. *)
Definition whitespace : string :=
  String "009" (String "010" (String "011" (String "012" (String "013"
  (String "028" (String "029" (String "030" (String "031" (String "032"
  (String "133" (String "160" EmptyString))))))))))).

(** [s.strip()] *)
Definition str_strip (s : string) : string :=
  str_rstrip whitespace (str_lstrip whitespace s).

(** [sep.join(l)] *)
Fixpoint str_join (sep : string) (l : list string) : string :=
  match l with
  | [] => EmptyString
  | [x] => x
  | x :: l' => x +:+ sep +:+ str_join sep l'
  end.

(** [s.lower()] on the ASCII letters. *)
Definition lower_char (c : ascii) : ascii :=
  if ((65 <=? code c) && (code c <=? 90))%N
  then ascii_of_N (code c + 32) else c.

Fixpoint str_lower (s : string) : string :=
  match s with
  | EmptyString => EmptyString
  | String c s' => String (lower_char c) (str_lower s')
  end.

(** The text before the first [c] and the text after it, when [c] occurs:
    [s.split(c, 1)]. *)
Fixpoint cut_at (c : ascii) (s : string) : option (string * string) :=
  match s with
  | EmptyString => None
  | String b s' =>
      if Ascii.eqb b c then Some (EmptyString, s')
      else match cut_at c s' with
           | Some (l, r) => Some (String b l, r)
           | None => None
           end
  end.

(** The text before the last [c] and the text after it, when [c] occurs. *)
Fixpoint rcut_at (c : ascii) (s : string) : option (string * string) :=
  match s with
  | EmptyString => None
  | String b s' =>
      match rcut_at c s' with
      | Some (l, r) => Some (String b l, r)
      | None => if Ascii.eqb b c then Some (EmptyString, s') else None
      end
  end.

(** Deleting every occurrence of a character. *)
Fixpoint remove_char (c : ascii) (s : string) : string :=
  match s with
  | EmptyString => EmptyString
  | String b s' => if Ascii.eqb b c then remove_char c s' else String b (remove_char c s')
  end.

Definition str_eqb (a b : string) : bool := String.eqb a b.

Definition is_empty (s : string) : bool :=
  match s with EmptyString => true | _ => false end.

(** ** JSON documents, as Python holds them after [response.json()] *)

(** An object is a [dict]: its fields in insertion order, which is the order
    [json.dump] writes them in.  A float is carried as the text [json.dumps]
    prints for it. *)
#[warnings="-register-all"] Inductive json : Type :=
| JNull
| JBool (b : bool)
| JInt (n : Z)
| JFloat (text : string)
| JStr (s : string)
| JArr (items : list json)
| JObj (fields : list (string * json)).

(** Python's truth value of a decoded document: [None], [False], zero, the
    empty string, the empty list and the empty dict are false. *)
Definition truthy (v : json) : bool :=
  match v with
  | JNull => false
  | JBool b => b
  | JInt n => negb (n =? 0)%Z
  | JFloat t => negb (str_eqb t "0.0" || str_eqb t "-0.0")
  | JStr s => negb (is_empty s)
  | JArr items => match items with [] => false | _ => true end
  | JObj fields => match fields with [] => false | _ => true end
  end.

(** The truth value of an optional string ([None] or a [str]). *)
Definition truthy_str (o : option string) : bool :=
  match o with
  | Some s => negb (is_empty s)
  | None => false
  end.

Fixpoint lookup_field (key : string) (fields : list (string * json)) : option json :=
  match fields with
  | [] => None
  | (k, v) :: rest => if str_eqb k key then Some v else lookup_field key rest
  end.

(** *** [json.dumps] *)

Definition hex_digit (n : N) : ascii :=
  if (n <? 10)%N then ascii_of_N (48 + n) else ascii_of_N (87 + n).

(** One character inside a JSON string, with [ensure_ascii] on: the quote and
    the backslash are escaped, the short escapes are used where JSON has
    them, and everything else outside the printable ASCII range becomes a
    [\u00xx] escape. *)
Definition escape_char (c : ascii) : string :=
  let n := code c in
  if Ascii.eqb c DQUOTE then String BACKSLASH (str1 DQUOTE)
  else if Ascii.eqb c BACKSLASH then String BACKSLASH (str1 BACKSLASH)
  else if (n =? 8)%N then String BACKSLASH "b"
  else if (n =? 12)%N then String BACKSLASH "f"
  else if (n =? 10)%N then String BACKSLASH "n"
  else if (n =? 13)%N then String BACKSLASH "r"
  else if (n =? 9)%N then String BACKSLASH "t"
  else if ((32 <=? n) && (n <=? 126))%N then str1 c
  else String BACKSLASH ("u00" +:+ String (hex_digit (n / 16)) (str1 (hex_digit (n mod 16)))).

Fixpoint escape_str (s : string) : string :=
  match s with
  | EmptyString => EmptyString
  | String c s' => escape_char c +:+ escape_str s'
  end.

Definition quote (s : string) : string :=
  String DQUOTE (escape_str s +:+ str1 DQUOTE).

Definition str_of_Z (n : Z) : string := NilZero.string_of_int (Z.to_int n).

Fixpoint spaces (n : nat) : string :=
  match n with
  | O => EmptyString
  | S k => String " " (spaces k)
  end.

(** What goes between [{] and [}] (or [[] and []]) around the rendered
    members [parts], at nesting depth [level]: with [indent=None] the members
    follow each other after [", "]; with [indent=n] each stands on a line of
    its own, [n * (level + 1)] spaces in, and the closing bracket is
    [n * level] spaces in. *)
Definition bracketed (indent : option nat) (level : nat) (parts : list string) : string :=
  match indent with
  | None => str_join ", " parts
  | Some n =>
      let newline_indent := NL +:+ spaces (n * S level) in
      newline_indent +:+ str_join ("," +:+ newline_indent) parts
      +:+ NL +:+ spaces (n * level)
  end.

Fixpoint encode (indent : option nat) (level : nat) (v : json) : string :=
  match v with
  | JNull => "null"
  | JBool true => "true"
  | JBool false => "false"
  | JInt n => str_of_Z n
  | JFloat t => t
  | JStr s => quote s
  | JArr [] => "[]"
  | JArr items =>
      "[" +:+ bracketed indent level (List.map (encode indent (S level)) items) +:+ "]"
  | JObj [] => "{}"
  | JObj fields =>
      "{" +:+ bracketed indent level
                (List.map (fun kv => quote (fst kv) +:+ ": "
                                     +:+ encode indent (S level) (snd kv))
                          fields)
      +:+ "}"
  end.

(** [json.dumps(v)] and [json.dumps(v, indent=n)] *)
Definition json_dumps (indent : option nat) (v : json) : string := encode indent 0 v.

(** ** Exceptions *)

Inductive exn : Type :=
| RequestException (msg : string)    (* requests' RequestException and its subclasses *)
| ValueError (msg : string)
| RuntimeError (msg : string)
| CalledProcessError (msg : string)  (* subprocess.CalledProcessError *)
| KeyError (msg : string)
| IndexError (msg : string)
| TypeError (msg : string)
| AttributeError (msg : string)
| OSError (msg : string)
| SystemExit (status : Z)            (* raised by sys.exit and argparse; not an Exception *)
| OutOfModel.                        (* Python goes on where the embedding does not follow *)

(** [str(e)] *)
Definition exn_str (e : exn) : string :=
  match e with
  | RequestException m | ValueError m | RuntimeError m | CalledProcessError m
  | KeyError m | IndexError m | TypeError m | AttributeError m | OSError m => m
  | SystemExit n => str_of_Z n
  | OutOfModel => EmptyString
  end.

(** [isinstance(e, Exception)]: what a bare [except Exception] catches. *)
Definition is_Exception (e : exn) : bool :=
  match e with
  | SystemExit _ | OutOfModel => false
  | _ => true
  end.

Definition result (A : Type) : Type := exn + A.

(** [v[key]] for a string key. *)
Definition getitem (v : json) (key : string) : result json :=
  match v with
  | JObj fields =>
      match lookup_field key fields with
      | Some x => inr x
      | None => inl (KeyError ("'" +:+ key +:+ "'"))
      end
  | JArr _ => inl (TypeError "list indices must be integers or slices, not str")
  | JStr _ => inl (TypeError "string indices must be integers, not 'str'")
  | JNull => inl (TypeError "'NoneType' object is not subscriptable")
  | JBool _ => inl (TypeError "'bool' object is not subscriptable")
  | JInt _ => inl (TypeError "'int' object is not subscriptable")
  | JFloat _ => inl (TypeError "'float' object is not subscriptable")
  end.

(** [v.split(sep)]: only a [str] has the method. *)
Definition method_split (v : json) (sep : string) : result (list string) :=
  match v with
  | JStr s => inr (str_split sep s)
  | JNull => inl (AttributeError "'NoneType' object has no attribute 'split'")
  | JBool _ => inl (AttributeError "'bool' object has no attribute 'split'")
  | JInt _ => inl (AttributeError "'int' object has no attribute 'split'")
  | JFloat _ => inl (AttributeError "'float' object has no attribute 'split'")
  | JArr _ => inl (AttributeError "'list' object has no attribute 'split'")
  | JObj _ => inl (AttributeError "'dict' object has no attribute 'split'")
  end.

(** A decoded value used as text in the message.  The hosting platform
    documents these fields as strings; Python would format any other value
    with [str()], which the embedding does not follow. *)
Definition as_text (v : json) : result string :=
  match v with
  | JStr s => inr s
  | _ => inl OutOfModel
  end.

(** ** [urllib.parse.urlparse] *)

Record ParseResult : Type := {
  scheme : string;
  netloc : string;
  path : string;
  params : string;
  query : string;
  fragment : string
}.

Definition is_alpha (c : ascii) : bool :=
  let n := code c in
  (((65 <=? n) && (n <=? 90)) || ((97 <=? n) && (n <=? 122)))%N.

Definition is_digit (c : ascii) : bool :=
  let n := code c in ((48 <=? n) && (n <=? 57))%N.

(** The characters a scheme is made of: letters, digits, [+], [-] and [.]. *)
Definition is_scheme_char (c : ascii) : bool :=
  is_alpha c || is_digit c || char_in c "+-.".

Fixpoint all_chars (p : ascii -> bool) (s : string) : bool :=
  match s with
  | EmptyString => true
  | String c s' => p c && all_chars p s'
  end.

(** The leading characters [urlsplit] strips: the C0 controls and the space. *)
Fixpoint lstrip_c0 (s : string) : string :=
  match s with
  | EmptyString => EmptyString
  | String c s' => if (code c <=? 32)%N then lstrip_c0 s' else s
  end.

(** The scheme and what follows its colon, when the text before the first
    colon is not empty, starts with a letter and is made of scheme
    characters. *)
Definition split_scheme (url : string) : string * string :=
  match cut_at ":" url with
  | Some (String c0 rest as before, after) =>
      if is_alpha c0 && all_chars is_scheme_char before
      then (str_lower before, after)
      else (EmptyString, url)
  | _ => (EmptyString, url)
  end.

(** The authority after [//]: up to the first of [/], [?] and [#]. *)
Fixpoint split_netloc (s : string) : string * string :=
  match s with
  | EmptyString => (EmptyString, EmptyString)
  | String c s' =>
      if char_in c "/?#" then (EmptyString, s)
      else let '(n, r) := split_netloc s' in (String c n, r)
  end.

Definition uses_params : list string :=
  [EmptyString; "ftp"; "hdl"; "prospero"; "http"; "imap"; "https"; "shttp";
   "rtsp"; "rtspu"; "sip"; "sips"; "mms"; "sftp"; "tel"].

Definition str_mem (s : string) (l : list string) : bool :=
  existsb (str_eqb s) l.

(** [_splitparams]: the parameters start at the first [;] of the last path
    segment. *)
Definition split_params (url : string) : string * string :=
  match rcut_at "/" url with
  | Some (dir, last) =>
      match cut_at ";" last with
      | Some (l, p) => (dir +:+ "/" +:+ l, p)
      | None => (url, EmptyString)
      end
  | None =>
      match cut_at ";" url with
      | Some (l, p) => (l, p)
      | None => (url, EmptyString)
      end
  end.

Definition is_ascii_str (s : string) : bool :=
  all_chars (fun c => (code c <? 128)%N) s.

(** [urlparse(url)], after [urllib.parse] of CPython 3.12.  A lone square
    bracket in the authority is a [ValueError]; the checks Python runs on a
    bracketed host and on an authority outside ASCII are not followed. *)
Definition urlparse (url : string) : result ParseResult :=
  let url := lstrip_c0 url in
  let url := remove_char LF (remove_char CR (remove_char TAB url)) in
  let '(scheme, url) := split_scheme url in
  let '(netloc, url) :=
    if startswith "//" url
    then split_netloc (String.substring 2 (String.length url - 2) url)
    else (EmptyString, url) in
  let open := char_in "[" netloc in
  let close := char_in "]" netloc in
  if xorb open close then inl (ValueError "Invalid IPv6 URL")
  else if open || negb (is_ascii_str netloc) then inl OutOfModel
  else
    let '(url, fragment) :=
      match cut_at "#" url with Some p => p | None => (url, EmptyString) end in
    let '(url, query) :=
      match cut_at "?" url with Some p => p | None => (url, EmptyString) end in
    let '(url, params) :=
      if str_mem scheme uses_params && char_in ";" url
      then split_params url else (url, EmptyString) in
    inr {| scheme := scheme; netloc := netloc; path := url;
           params := params; query := query; fragment := fragment |}.

(** ** The regular expression of the SSH form under [re.match]

    The pattern is [git@], a greedy group of any characters, a colon, and a
    second such group.  The match is anchored at the start; a dot does not
    match a line feed, so both groups lie on the first line, and the first
    group, being greedy, reaches to the last colon of that line.  The result
    is the two groups. *)
Definition first_line (s : string) : string :=
  match cut_at LF s with
  | Some (l, _) => l
  | None => s
  end.

Definition match_git_at (url : string) : option (string * string) :=
  if startswith "git@" url
  then rcut_at ":" (first_line (String.substring 4 (String.length url - 4) url))
  else None.


(** ** The outside world and the monad of the script *)

Definition headers : Type := list (string * string).

(** An external call, as the script issues it. *)
Inductive call : Type :=
| Subprocess (command : string)        (* subprocess.check_output(command, shell=True) *)
| Get (url : string) (hdrs : headers)  (* requests.get(url, headers=hdrs) *)
| Post (url : string) (hdrs : headers) (data : string)
                                       (* requests.post(url, headers=hdrs, data=data) *)
| OpenW (file : string).               (* open(file, 'w') *)

(** What [requests] hands back once the exchange has taken place:
    [raise_for_status()] raises when [http_error] holds a message, and
    [json()] yields the decoded [json_body], or raises the
    [requests.exceptions.JSONDecodeError] of a body that is not JSON, with
    the message held on the left. *)
Record Response : Type := {
  http_error : option string;
  json_body : string + json
}.

Record World : Type := {
  (** the decoded output of the command, or the text of the
      [CalledProcessError] of a command that exits non-zero *)
  w_subprocess : list call -> string -> string + string;
  (** the response, or the message of the [RequestException] of an exchange
      that did not take place *)
  w_get : list call -> string -> headers -> string + Response;
  w_post : list call -> string -> headers -> string -> string + Response;
  (** the message of the [OSError] when the file cannot be opened for
      writing *)
  w_open : list call -> string -> option string
}.

Inductive level : Type := INFO | WARNING | ERROR.

(** A line the script emits. *)
Inductive output : Type :=
| Print (text : string)                 (* print(text): a line on standard output *)
| Log (lvl : level) (message : string)  (* a record of the logger, which basicConfig
                                           writes on standard error after the time *)
| Usage (message : string).             (* parser.error(message): the usage text and
                                           the message on standard error *)

Definition on_stderr (o : output) : bool :=
  match o with
  | Print _ => false
  | Log _ _ | Usage _ => true
  end.

Record state : Type := {
  calls : list call;              (* the external calls so far, oldest first *)
  out : list output;              (* the lines emitted so far, oldest first *)
  files : gmap string string      (* the content of the files *)
}.

Definition M (A : Type) : Type := state -> result A * state.

Definition ret {A} (a : A) : M A := fun st => (inr a, st).

Definition raise {A} (e : exn) : M A := fun st => (inl e, st).

Definition bind {A B} (m : M A) (k : A -> M B) : M B :=
  fun st =>
    match m st with
    | (inr a, st') => k a st'
    | (inl e, st') => (inl e, st')
    end.

Notation "x <- m ;; k" := (bind m (fun x => k))
  (at level 100, m at next level, right associativity).
Notation "m ;;; k" := (bind m (fun _ => k))
  (at level 100, right associativity).

(** A pure computation that may raise. *)
Definition lift {A} (r : result A) : M A := fun st => (r, st).

(** [try: m  except ...: ...]: [handler e] is the body of the first clause
    that catches [e], or [None] when no clause does. *)
Definition try_except {A} (m : M A) (handler : exn -> option (M A)) : M A :=
  fun st =>
    match m st with
    | (inr a, st') => (inr a, st')
    | (inl e, st') =>
        match handler e with
        | Some h => h st'
        | None => (inl e, st')
        end
    end.

(** [for x in l: body(x)] *)
Fixpoint for_each {A} (l : list A) (body : A -> M unit) : M unit :=
  match l with
  | [] => ret tt
  | x :: rest => body x ;;; for_each rest body
  end.

(** The state after one more external call, and after one more line. *)
Definition called (c : call) (st : state) : state :=
  {| calls := calls st ++ [c]; out := out st; files := files st |}.

Definition said (o : output) (st : state) : state :=
  {| calls := calls st; out := out st ++ [o]; files := files st |}.

Definition emit (o : output) : M unit := fun st => (inr tt, said o st).

Definition sys_exit {A} (status : Z) : M A := raise (SystemExit status).

Definition print (text : string) : M unit := emit (Print text).

Section Primitives.
Context (w : World).

(** [subprocess.check_output(command, shell=True).decode('utf-8')] *)
Definition check_output (command : string) : M string :=
  fun st =>
    let st' := called (Subprocess command) st in
    match w_subprocess w (calls st) command with
    | inr text => (inr text, st')
    | inl e => (inl (CalledProcessError e), st')
    end.

Definition requests_get (url : string) (hdrs : headers) : M Response :=
  fun st =>
    let st' := called (Get url hdrs) st in
    match w_get w (calls st) url hdrs with
    | inr r => (inr r, st')
    | inl e => (inl (RequestException e), st')
    end.

Definition requests_post (url : string) (hdrs : headers) (data : string) : M Response :=
  fun st =>
    let st' := called (Post url hdrs data) st in
    match w_post w (calls st) url hdrs data with
    | inr r => (inr r, st')
    | inl e => (inl (RequestException e), st')
    end.

(** [with open(file, 'w') as f: json.dump(v, f, indent=4)]: opening for
    writing empties the file, whatever it held, and the document is written
    into it. *)
Definition dump_to_file (file : string) (v : json) : M unit :=
  fun st =>
    match w_open w (calls st) file with
    | Some e =>
        (inl (OSError e), called (OpenW file) st)
    | None =>
        (inr tt,
         {| calls := calls st ++ [OpenW file]; out := out st;
            files := <[file := json_dumps (Some 4) v]> (files st) |})
    end.
End Primitives.

(** [response.raise_for_status()]: an [HTTPError] is a [RequestException]. *)
Definition raise_for_status (r : Response) : M unit :=
  match http_error r with
  | Some e => raise (RequestException e)
  | None => ret tt
  end.

(** [response.json()]: a [JSONDecodeError] of [requests] is a
    [RequestException]. *)
Definition decoded (r : Response) : result json :=
  match json_body r with
  | inl e => inl (RequestException e)
  | inr v => inr v
  end.

Definition response_json (r : Response) : M json := lift (decoded r).

(** ** Tag Resolver: the scan of the reference listing

    The [for] loop of [get_tag_for_commit]: the first line that holds both
    the hash and the marker decides. *)
Fixpoint scan_lines (commit_hash : string) (lines : list string) : option string :=
  match lines with
  | [] => None
  | line :: rest =>
      if str_in commit_hash line && str_in "refs/tags/" line
      then
        match str_split "refs/tags/" line with
        | _ :: part1 :: _ => Some (str_replace "^{}" EmptyString part1)
        | _ => scan_lines commit_hash rest
        end
      else scan_lines commit_hash rest
  end.

(** ** Message Formatter: the pieces of [build_message] *)

Definition message_header (project_name released_by git_hash commit_author : string) : string :=
  "*Release Notification:*" +:+ NL +:+
  "*Project:* " +:+ project_name +:+ NL +:+
  "*Released by:* " +:+ released_by +:+ NL +:+
  "*Commit:* " +:+ git_hash +:+ NL +:+
  "*Author:* " +:+ commit_author +:+ NL +:+
  "*What's Changed:*" +:+ NL +:+
  "```" +:+ NL.

(** The loop over the changelog, appending to [message]. *)
Fixpoint append_changes (message : string) (changelog : list string) : string :=
  match changelog with
  | [] => message
  | change :: rest =>
      if str_in "What's Changed" change
      then append_changes message rest
      else append_changes (message +:+ change +:+ NL) rest
  end.


(** The request headers of the hosting platform's API and of the webhook. *)
Definition api_headers (token : string) : headers :=
  [("Accept", "application/vnd.github.v3+json"); ("Authorization", "token " +:+ token)].

Definition slack_headers : headers := [("Content-Type", "application/json")].

(** [all([...])] over the six required arguments, and the parsed command
    line: an argument is [None] when neither the command line nor the
    environment gives it. *)
Record Args : Type := {
  git_repo_url : option string;
  git_hash : option string;
  project_name : option string;
  released_by : option string;
  release_bot_token : option string;
  slack_url_release : option string;
  dump_release_info_path : option string
}.

Definition all_given (args : Args) : bool :=
  forallb truthy_str
    [git_repo_url args; git_hash args; project_name args; released_by args;
     release_bot_token args; slack_url_release args].

(** The text of an argument that is known to be given. *)
Definition arg (o : option string) : string :=
  match o with
  | Some s => s
  | None => EmptyString
  end.

Definition missing_arguments : string :=
  "All arguments must be provided either as command-line parameters or environment variables.".

(** [parser.error(message)]: the usage text and the message on standard
    error, then exit status 2. *)
Definition parser_error {A} (message : string) : M A :=
  emit (Usage message) ;;; sys_exit 2.

(** [l[1]] *)
Definition item1 {A} (l : list A) : result A :=
  match l with
  | _ :: x :: _ => inr x
  | _ => inl (IndexError "list index out of range")
  end.

(** The changelog and the author a release record gives:
    [release_info['body'].split('\n')] and [release_info['author']['login']]. *)
Definition release_changes (release_info : json) : result (list string * string) :=
  match getitem release_info "body" with
  | inl e => inl e
  | inr body =>
      match method_split body NL with
      | inl e => inl e
      | inr changelog =>
          match getitem release_info "author" with
          | inl e => inl e
          | inr author =>
              match getitem author "login" with
              | inl e => inl e
              | inr login =>
                  match as_text login with
                  | inl e => inl e
                  | inr commit_author => inr (changelog, commit_author)
                  end
              end
          end
      end
  end.

(** [commit_info['commit']['message']] *)
Definition commit_message (commit_info : json) : result json :=
  match getitem commit_info "commit" with
  | inl e => inl e
  | inr c => getitem c "message"
  end.

(** [commit_info['commit']['author']['name']] *)
Definition commit_author_name (commit_info : json) : result json :=
  match getitem commit_info "commit" with
  | inl e => inl e
  | inr c =>
      match getitem c "author" with
      | inl e => inl e
      | inr a => getitem a "name"
      end
  end.

(** The changelog and the author a commit gives: the message as the only
    line, and the author's name. *)
Definition commit_changes (commit_info : json) : result (list string * string) :=
  match commit_message commit_info with
  | inl e => inl e
  | inr m =>
      match as_text m with
      | inl e => inl e
      | inr message =>
          match commit_author_name commit_info with
          | inl e => inl e
          | inr n =>
              match as_text n with
              | inl e => inl e
              | inr name => inr ([message], name)
              end
          end
      end
  end.

(** The record the persister writes when it falls back on the commit. *)
Definition commit_record (commit_info : json) : result json :=
  match commit_message commit_info with
  | inl e => inl e
  | inr message =>
      match commit_author_name commit_info with
      | inl e => inl e
      | inr author =>
          inr (JObj [("commit", commit_info); ("message", message); ("author", author)])
      end
  end.

(** The clauses of the top-level handler, in their order: the category of an
    exception, or [None] for what [except Exception] lets through. *)
Definition category (e : exn) : option string :=
  match e with
  | RequestException _ => Some "Network Error"
  | ValueError _ => Some "Value Error"
  | SystemExit _ | OutOfModel => None
  | _ => Some "Unexpected Error"
  end.

Definition error_line (e : exn) : option string :=
  match category e with
  | Some c => Some (c +:+ ": " +:+ exn_str e)
  | None => None
  end.

(** ** The script [slackbot.py] *)

Module Root.

(** Repository Locator *)
Definition extract_org_repo (git_repo_url : string) : result string :=
  match urlparse git_repo_url with
  | inl e => inl e
  | inr parsed_url =>
      if str_mem (scheme parsed_url) ["http"; "https"]
      then inr (str_replace ".git" EmptyString (str_lstrip "/" (path parsed_url)))
      else
        match match_git_at git_repo_url with
        | Some (_, group2) => inr (str_replace ".git" EmptyString group2)
        | None => inl (ValueError "Invalid git repository URL format")
        end
  end.

(** Message Formatter *)
Definition build_message
    (project_name released_by git_hash commit_author : string)
    (changelog : list string) : string :=
  let message := message_header project_name released_by git_hash commit_author in
  let message :=
    match changelog with
    | [] => message
    | _ => append_changes message changelog
    end in
  message +:+ "```".

Section Script.
Context (w : World).

Definition execute_shell_command (command : string) : M string :=
  try_except
    (result <- check_output w command ;;
     ret (str_strip result))
    (fun e =>
       match e with
       | CalledProcessError e =>
           Some (raise (RuntimeError ("Failed to execute command: " +:+ e)))
       | _ => None
       end).

Definition get_tag_for_commit (repo_url commit_hash : string) : M (option string) :=
  let command := "git ls-remote " +:+ repo_url in
  result <- execute_shell_command command ;;
  let lines := str_split NL result in
  ret (scan_lines commit_hash lines).

Definition get_release_info_by_tag (org_repo tag token : string) : M json :=
  let hdrs := api_headers token in
  let api_url :=
    "https://api.github.com/repos/" +:+ org_repo +:+ "/releases/tags/" +:+ tag in
  response <- requests_get w api_url hdrs ;;
  raise_for_status response ;;;
  response_json response.

Definition get_commit_info (repo_url commit_hash token : string) : M json :=
  let hdrs := api_headers token in
  part <- lift (item1 (str_split ":" repo_url)) ;;
  let api_url :=
    "https://api.github.com/repos/" +:+ str_replace ".git" EmptyString part
    +:+ "/commits/" +:+ commit_hash in
  response <- requests_get w api_url hdrs ;;
  raise_for_status response ;;;
  response_json response.

Definition send_slack_notification (webhook_url message : string) : M unit :=
  let hdrs := slack_headers in
  let payload := JObj [("text", JStr message)] in
  response <- requests_post w webhook_url hdrs (json_dumps None payload) ;;
  raise_for_status response.

Definition notify_release
    (git_repo_url git_hash project_name released_by release_bot_token : string)
    (slack_urls : list string) : M unit :=
  org_repo <- lift (extract_org_repo git_repo_url) ;;
  tag <- get_tag_for_commit git_repo_url git_hash ;;
  let changelog : list string := [] in
  let commit_author := EmptyString in
  found <-
    (if truthy_str tag
     then
       release_info <- get_release_info_by_tag org_repo (arg tag) release_bot_token ;;
       lift (release_changes release_info)
     else ret (changelog, commit_author)) ;;
  let '(changelog, commit_author) := found in
  found <-
    (match changelog with
     | [] =>
         commit_info <- get_commit_info git_repo_url git_hash release_bot_token ;;
         lift (commit_changes commit_info)
     | _ => ret (changelog, commit_author)
     end) ;;
  let '(changelog, commit_author) := found in
  let message :=
    build_message project_name released_by git_hash commit_author changelog in
  for_each slack_urls (fun url => send_slack_notification url message).

Definition dump_release_info
    (git_repo_url git_hash release_bot_token output_file : string) : M unit :=
  part <- lift (item1 (str_split ":" git_repo_url)) ;;
  let org_repo := str_replace ".git" EmptyString part in
  tag <- get_tag_for_commit git_repo_url git_hash ;;
  release_info <-
    (if truthy_str tag
     then get_release_info_by_tag org_repo (arg tag) release_bot_token
     else ret (JObj [])) ;;
  release_info <-
    (if negb (truthy release_info)
     then
       commit_info <- get_commit_info git_repo_url git_hash release_bot_token ;;
       lift (commit_record commit_info)
     else ret release_info) ;;
  dump_to_file w output_file release_info.

Definition main (args : Args) : M unit :=
  (if negb (all_given args) then parser_error missing_arguments else ret tt) ;;;
  let slack_urls := str_split "," (arg (slack_url_release args)) in
  notify_release (arg (git_repo_url args)) (arg (git_hash args))
                 (arg (project_name args)) (arg (released_by args))
                 (arg (release_bot_token args)) slack_urls ;;;
  if truthy_str (dump_release_info_path args)
  then dump_release_info (arg (git_repo_url args)) (arg (git_hash args))
                         (arg (release_bot_token args))
                         (arg (dump_release_info_path args))
  else ret tt.

(** The block under [if __name__ == '__main__']. *)
Definition script (args : Args) : M unit :=
  try_except
    (main args ;;; sys_exit 0)
    (fun e =>
       match error_line e with
       | Some line => Some (print line)
       | None => None
       end) ;;;
  sys_exit 1.
End Script.
End Root.

(** ** The script [tool/slackbot.py]: the same pipeline, with a logger *)

Module Tool.

Definition logger_info (message : string) : M unit := emit (Log INFO message).
Definition logger_warning (message : string) : M unit := emit (Log WARNING message).
Definition logger_error (message : string) : M unit := emit (Log ERROR message).

Section Script.
Context (w : World).

Definition execute_shell_command (command : string) : M string :=
  logger_info ("Executing command: " +:+ command) ;;;
  try_except
    (result <- check_output w command ;;
     ret (str_strip result))
    (fun e =>
       match e with
       | CalledProcessError e =>
           Some (logger_error ("Failed to execute command: " +:+ command
                               +:+ ", error: " +:+ e) ;;;
                 raise (RuntimeError ("Failed to execute command: " +:+ e)))
       | _ => None
       end).

Definition get_tag_for_commit (repo_url commit_hash : string) : M (option string) :=
  logger_info ("Getting tag for commit " +:+ commit_hash +:+ " in repo " +:+ repo_url) ;;;
  let command := "git ls-remote " +:+ repo_url in
  result <- execute_shell_command command ;;
  let lines := str_split NL result in
  match scan_lines commit_hash lines with
  | Some tag =>
      logger_info ("Found tag '" +:+ tag +:+ "' for commit " +:+ commit_hash) ;;;
      ret (Some tag)
  | None =>
      logger_warning ("No tag found for commit " +:+ commit_hash) ;;;
      ret None
  end.

Definition get_release_info_by_tag (org_repo tag token : string) : M json :=
  let hdrs := api_headers token in
  let api_url :=
    "https://api.github.com/repos/" +:+ org_repo +:+ "/releases/tags/" +:+ tag in
  logger_info ("Getting release info for tag " +:+ tag +:+ " from " +:+ api_url) ;;;
  response <- requests_get w api_url hdrs ;;
  raise_for_status response ;;;
  logger_info ("Received release info for tag " +:+ tag) ;;;
  response_json response.

Definition extract_org_repo (git_repo_url : string) : M string :=
  logger_info ("Extracting organization and repository from URL " +:+ git_repo_url) ;;;
  parsed_url <- lift (urlparse git_repo_url) ;;
  org_repo <-
    (if str_mem (scheme parsed_url) ["http"; "https"]
     then ret (str_lstrip "/" (path parsed_url))
     else
       match match_git_at git_repo_url with
       | Some (_, group2) => ret group2
       | None =>
           logger_error "Invalid git repository URL format" ;;;
           raise (ValueError "Invalid git repository URL format")
       end) ;;
  let org_repo := str_replace ".git" EmptyString org_repo in
  logger_info ("Extracted organization and repository: " +:+ org_repo) ;;;
  ret org_repo.

Definition get_commit_info (repo_url commit_hash token : string) : M json :=
  let hdrs := api_headers token in
  org_repo <- extract_org_repo repo_url ;;
  let api_url :=
    "https://api.github.com/repos/" +:+ org_repo +:+ "/commits/" +:+ commit_hash in
  logger_info ("Getting commit info for commit " +:+ commit_hash +:+ " from " +:+ api_url) ;;;
  response <- requests_get w api_url hdrs ;;
  raise_for_status response ;;;
  logger_info ("Received commit info for commit " +:+ commit_hash) ;;;
  response_json response.

Definition send_slack_notification (webhook_url message : string) : M unit :=
  let hdrs := slack_headers in
  let payload := JObj [("text", JStr message)] in
  logger_info ("Sending Slack notification to " +:+ webhook_url) ;;;
  response <- requests_post w webhook_url hdrs (json_dumps None payload) ;;
  raise_for_status response ;;;
  logger_info "Successfully sent Slack notification".

Definition build_message
    (project_name released_by git_hash commit_author : string)
    (changelog : list string) : M string :=
  logger_info ("Building Slack message for project " +:+ project_name) ;;;
  let message :=
    Root.build_message project_name released_by git_hash commit_author changelog in
  logger_info "Slack message built successfully" ;;;
  ret message.

Definition dump_release_info
    (git_repo_url git_hash release_bot_token output_file : string) : M unit :=
  logger_info ("Dumping release info for " +:+ git_hash +:+ " into " +:+ output_file) ;;;
  org_repo <- extract_org_repo git_repo_url ;;
  tag <- get_tag_for_commit git_repo_url git_hash ;;
  release_info <-
    (if truthy_str tag
     then get_release_info_by_tag org_repo (arg tag) release_bot_token
     else ret (JObj [])) ;;
  release_info <-
    (if negb (truthy release_info)
     then
       commit_info <- get_commit_info git_repo_url git_hash release_bot_token ;;
       lift (commit_record commit_info)
     else ret release_info) ;;
  dump_to_file w output_file release_info ;;;
  logger_info ("Release info dumped to " +:+ output_file).

Definition notify_release
    (git_repo_url git_hash project_name released_by release_bot_token : string)
    (slack_urls : list string) : M unit :=
  logger_info ("Starting release notification for project " +:+ project_name) ;;;
  org_repo <- extract_org_repo git_repo_url ;;
  tag <- get_tag_for_commit git_repo_url git_hash ;;
  let changelog : list string := [] in
  let commit_author := EmptyString in
  found <-
    (if truthy_str tag
     then
       release_info <- get_release_info_by_tag org_repo (arg tag) release_bot_token ;;
       lift (release_changes release_info)
     else ret (changelog, commit_author)) ;;
  let '(changelog, commit_author) := found in
  found <-
    (match changelog with
     | [] =>
         commit_info <- get_commit_info git_repo_url git_hash release_bot_token ;;
         lift (commit_changes commit_info)
     | _ => ret (changelog, commit_author)
     end) ;;
  let '(changelog, commit_author) := found in
  message <- build_message project_name released_by git_hash commit_author changelog ;;
  for_each slack_urls (fun url => send_slack_notification url message) ;;;
  logger_info ("Release notification for project " +:+ project_name
               +:+ " completed successfully").

(** The body of the [try] in [main], up to the exit. *)
Definition release (args : Args) (slack_urls : list string) : M unit :=
  notify_release (arg (git_repo_url args)) (arg (git_hash args))
                 (arg (project_name args)) (arg (released_by args))
                 (arg (release_bot_token args)) slack_urls ;;;
  (if truthy_str (dump_release_info_path args)
   then dump_release_info (arg (git_repo_url args)) (arg (git_hash args))
                          (arg (release_bot_token args))
                          (arg (dump_release_info_path args))
   else ret tt) ;;;
  logger_info "Main process completed successfully".

Definition main (args : Args) : M unit :=
  (if negb (all_given args) then parser_error missing_arguments else ret tt) ;;;
  let slack_urls := str_split "," (arg (slack_url_release args)) in
  logger_info "Starting main process" ;;;
  try_except
    (release args slack_urls ;;; sys_exit 0)
    (fun e =>
       match error_line e with
       | Some line => Some (logger_error line)
       | None => None
       end) ;;;
  sys_exit 1.
End Script.
End Tool.

(** ** Vocabulary of the statements *)

(** [part] names the repository [base]: it is [base], or [base.git], and
    [.git] occurs nowhere else in it. *)
Definition names_repo (part base : string) : Prop :=
  str_in ".git" base = false /\ (part = base \/ part = base +:+ ".git").

(** The changelog lines the formatter keeps, in their order. *)
Definition kept_changes (changelog : list string) : list string :=
  List.filter (fun change => negb (str_in "What's Changed" change)) changelog.

(** Each line followed by a line feed. *)
Fixpoint rows (lines : list string) : string :=
  match lines with
  | [] => EmptyString
  | l :: rest => l +:+ NL +:+ rows rest
  end.

(** The tag the specification reads off a line: everything after the first
    marker, without a [^{}] at the end. *)
Fixpoint after_marker (marker s : string) : option string :=
  if startswith marker s
  then Some (String.substring (String.length marker) (String.length s - String.length marker) s)
  else match s with
       | EmptyString => None
       | String _ s' => after_marker marker s'
       end.

Fixpoint without_suffix (suffix s : string) : string :=
  if str_eqb s suffix then EmptyString
  else match s with
       | EmptyString => EmptyString
       | String c s' => String c (without_suffix suffix s')
       end.

Definition spec_tag_of_line (line : string) : option string :=
  option_map (without_suffix "^{}") (after_marker "refs/tags/" line).

(** A world for examples: the listing the remote gives, the release record
    and the commit record of the hosting platform, webhooks that accept
    every message, and a writable file system. *)
Definition ok_response (v : json) : Response :=
  {| http_error := None; json_body := inr v |}.

Definition sample_world (listing : string) (release commit : json) : World := {|
  w_subprocess := fun _ _ => inr listing;
  w_get := fun _ url _ =>
    inr (ok_response (if str_in "/releases/tags/" url then release else commit));
  w_post := fun _ _ _ _ => inr (ok_response (JStr "ok"));
  w_open := fun _ _ => None
|}.

Definition start : state := {| calls := []; out := []; files := ∅ |}.

Definition sample_release (body : string) : json :=
  JObj [("tag_name", JStr "v1.0.0"); ("body", JStr body);
        ("author", JObj [("login", JStr "octocat")])].

Definition sample_commit : json :=
  JObj [("sha", JStr "abcdef");
        ("commit", JObj [("message", JStr "hotfix: patch");
                         ("author", JObj [("name", JStr "Jane Doe")])])].

(** The body the dispatcher posts, and the call that posts it. *)
Definition payload (message : string) : string :=
  json_dumps None (JObj [("text", JStr message)]).

Definition post_of (message url : string) : call :=
  Post url slack_headers (payload message).

Arguments payload : simpl never.
Arguments post_of : simpl never.

(** What one delivery comes to when the calls so far are [history]: [None]
    when the webhook takes the message, or the exception of the exchange or
    of [raise_for_status]. *)
Definition delivery (w : World) (history : list call) (url data : string) : option exn :=
  match w_post w history url slack_headers data with
  | inl e => Some (RequestException e)
  | inr r => option_map RequestException (http_error r)
  end.

(** The calls to webhooks among a list of calls. *)
Definition is_post (c : call) : bool :=
  match c with
  | Post _ _ _ => true
  | _ => false
  end.

Definition posts (l : list call) : list call := List.filter is_post l.

(** The calls to the commit endpoint of the hosting platform. *)
Definition is_commit_fetch (c : call) : bool :=
  match c with
  | Get url _ => str_in "/commits/" url
  | _ => false
  end.


(** The addresses of the two endpoints of the hosting platform, and the
    command that lists the references of the remote. *)
Definition release_url (org_repo tag : string) : string :=
  "https://api.github.com/repos/" +:+ org_repo +:+ "/releases/tags/" +:+ tag.

Definition commit_url (org_repo commit_hash : string) : string :=
  "https://api.github.com/repos/" +:+ org_repo +:+ "/commits/" +:+ commit_hash.

Definition ls_remote (repo_url : string) : string := "git ls-remote " +:+ repo_url.

(** What the tag resolver answers when the calls so far are [history]. *)
Definition listed_tag (w : World) (history : list call) (repo_url commit_hash : string)
  : result (option string) :=
  match w_subprocess w history (ls_remote repo_url) with
  | inl e => inl (RuntimeError ("Failed to execute command: " +:+ e))
  | inr text => inr (scan_lines commit_hash (str_split NL (str_strip text)))
  end.

(** What a fetch from the hosting platform answers when the calls so far
    are [history]: the decoded document of a response that is not an HTTP
    error. *)
Definition fetched (w : World) (history : list call) (url token : string) : result json :=
  match w_get w history url (api_headers token) with
  | inl e => inl (RequestException e)
  | inr r =>
      match http_error r with
      | Some e => inl (RequestException e)
      | None => decoded r
      end
  end.

(** Two states that differ in the emitted lines at most. *)
Definition same_world (st st' : state) : Prop :=
  calls st' = calls st /\ files st' = files st.

(** [st'] is [st] after the one external call [c], which left the files
    alone. *)
Definition after_call (c : call) (st st' : state) : Prop :=
  calls st' = calls st ++ [c] /\ files st' = files st.

(** An exit request, as opposed to an error. *)
Definition is_exit (e : exn) : bool :=
  match e with
  | SystemExit _ => true
  | _ => false
  end.

(** A computation that never asks for an exit. *)
Definition tame {A} (m : M A) : Prop :=
  forall st e, fst (m st) = inl e -> is_exit e = false.

(** A pure result that is not an exit request. *)
Definition tame_result {A} (r : result A) : Prop :=
  forall e, r = inl e -> is_exit e = false.

(** A computation that posts nothing to a webhook. *)
Definition quiet {A} (m : M A) : Prop :=
  forall st, posts (calls (snd (m st))) = posts (calls st).

(** A world whose hosting platform cannot be reached. *)
Definition unreachable_platform : World := {|
  w_subprocess := fun _ _ => inr ("abcdef" +:+ str1 TAB +:+ "refs/tags/v1.0.0");
  w_get := fun _ _ _ => inl "connection refused";
  w_post := fun _ _ _ _ => inr (ok_response (JStr "ok"));
  w_open := fun _ _ => None
|}.

Definition sample_args (slack_urls : string) (dump : option string) : Args := {|
  git_repo_url := Some "https://github.com/example/repo.git";
  git_hash := Some "abcdef";
  project_name := Some "ProjectX";
  released_by := Some "username";
  release_bot_token := Some "token123";
  slack_url_release := Some slack_urls;
  dump_release_info_path := dump
|}.

(** The outcome [r] of a run from [st] is normal and has written the
    document [v] into [file], whatever the file held. *)
Definition persisted (r : result unit * state) (st : state) (file : string) (v : json)
  : Prop :=
  fst r = inr tt /\ files (snd r) = <[file := json_dumps (Some 4) v]> (files st).

(** A computation whose posts are, in order, those of one message to the
    URLs of a prefix of [urls], the whole of [urls] when it returns
    normally. *)
Definition sends {A} (m : M A) (urls : list string) : Prop :=
  forall st, exists message k,
    posts (calls (snd (m st)))
    = posts (calls st) ++ List.map (post_of message) (take k urls)
    /\ (forall a, fst (m st) = inr a -> k = length urls).

(** The loop at the end of [notify_release] in [tool/slackbot.py]: the
    dispatcher. *)
Definition tool_dispatch (w : World) (message : string) (urls : list string) : M unit :=
  for_each urls (fun url => Tool.send_slack_notification w url message).

(** Three webhooks, the second of which refuses the message. *)
Definition second_refuses : World := {|
  w_subprocess := fun _ _ => inr EmptyString;
  w_get := fun _ _ _ => inr (ok_response JNull);
  w_post := fun _ url _ _ =>
    if str_eqb url "https://hooks.example/b" then inl "refused"
    else inr (ok_response (JStr "ok"));
  w_open := fun _ _ => None
|}.

(** ** Vocabulary of the further properties *)

(** A computation every external call of which satisfies [P]. *)
Definition within {A} (P : call -> Prop) (m : M A) : Prop :=
  forall st, exists d, calls (snd (m st)) = calls st ++ d /\ Forall P d.

(** A computation that leaves every file as it is. *)
Definition keeps_files {A} (m : M A) : Prop :=
  forall st, files (snd (m st)) = files st.

(** A computation that raises and changes no file, or returns normally
    having written one JSON document, with [indent=4], into [file]. *)
Definition writes_once {A} (file : string) (m : M A) : Prop :=
  forall st,
    (exists e, fst (m st) = inl e /\ files (snd (m st)) = files st)
    \/ (exists v a,
          fst (m st) = inr a
          /\ files (snd (m st)) = <[file := json_dumps (Some 4) v]> (files st)).

(** The external calls a run may make, given its arguments: the listing of
    the remote, as one shell command with the URL as it was given; a GET
    from the hosting platform's API with the token in its headers; a POST
    of a JSON message, with the content type as its only header, to one of
    the webhooks; and the opening of the dump file. *)
Definition run_call (repo_url token : string) (slack_urls : list string)
    (dump : option string) (c : call) : Prop :=
  match c with
  | Subprocess command => command = "git ls-remote " +:+ repo_url
  | Get url hdrs =>
      startswith "https://api.github.com/repos/" url = true /\ hdrs = api_headers token
  | Post url hdrs data =>
      In url slack_urls /\ hdrs = slack_headers /\ exists message, data = payload message
  | OpenW file => dump = Some file /\ file <> EmptyString
  end.

Definition is_open (c : call) : bool :=
  match c with
  | OpenW _ => true
  | _ => false
  end.

(** Two states that the world cannot tell apart: the same calls so far and
    the same files; the emitted lines may differ. *)
Definition same_view (st st' : state) : Prop :=
  calls st = calls st' /\ files st = files st'.

(** Two computations that, from states the world cannot tell apart, come to
    the same outcome in states the world cannot tell apart: they differ in
    the lines they emit at most. *)
Definition alike {A} (m m' : M A) : Prop :=
  forall st st', same_view st st' ->
    fst (m st) = fst (m' st') /\ same_view (snd (m st)) (snd (m' st')).

(** The two ways of locating the repository give the same answer on [url]:
    the locator, and the text after the first colon without [.git]. *)
Definition locators_agree (url : string) : Prop :=
  forall org, Root.extract_org_repo url = inr org ->
    exists part, item1 (str_split ":" url) = inr part
                 /\ str_replace ".git" EmptyString part = org.

(** A computation that always returns [a] and touches nothing the world
    sees. *)
Definition silent {A} (a : A) (m : M A) : Prop :=
  forall st, exists st1, m st = (inr a, st1) /\ same_view st st1.

(** A world whose remote cannot be listed, and one whose hosting platform
    has no release for the tag. *)
Definition unlisted_remote : World := {|
  w_subprocess := fun _ _ => inl "Command 'git ls-remote' returned non-zero exit status 128.";
  w_get := fun _ _ _ => inr (ok_response sample_commit);
  w_post := fun _ _ _ _ => inr (ok_response (JStr "ok"));
  w_open := fun _ _ => None
|}.

Definition no_release_for_tag : World := {|
  w_subprocess := fun _ _ => inr ("abcdef" +:+ str1 TAB +:+ "refs/tags/v1.0.0");
  w_get := fun _ url _ =>
    if str_in "/releases/tags/" url
    then inr {| http_error := Some "404 Client Error: Not Found"; json_body := inl "no body" |}
    else inr (ok_response sample_commit);
  w_post := fun _ _ _ _ => inr (ok_response (JStr "ok"));
  w_open := fun _ _ => None
|}.

(** A computation every error of which is of the kind [P]. *)
Definition raising {A} (P : exn -> bool) (m : M A) : Prop :=
  forall st e, fst (m st) = inl e -> P e = true.

(** The kinds of error, by where they arise: the locator ([urlparse] and
    the check of the URL's form), the listing of the remote, a request to
    the hosting platform or to a webhook, the reading of a decoded record,
    the second piece of the URL cut at its colons, and the dump file. *)
Definition is_locator_failure (e : exn) : bool :=
  match e with
  | ValueError _ | OutOfModel => true
  | _ => false
  end.

Definition is_listing_failure (e : exn) : bool :=
  match e with
  | RuntimeError m => startswith "Failed to execute command: " m
  | _ => false
  end.

Definition is_request_failure (e : exn) : bool :=
  match e with
  | RequestException _ => true
  | _ => false
  end.

Definition is_record_failure (e : exn) : bool :=
  match e with
  | KeyError _ | TypeError _ | AttributeError _ | OutOfModel => true
  | _ => false
  end.

Definition is_index_failure (e : exn) : bool :=
  match e with
  | IndexError _ => true
  | _ => false
  end.

Definition is_file_failure (e : exn) : bool :=
  match e with
  | OSError _ => true
  | _ => false
  end.

(** The errors of a run under the top-level handler: those of the locator,
    of the listing, of a request and of the reading of a record, and of the
    dump file when a dump is asked for. *)
Definition run_failure (dump : option string) (e : exn) : bool :=
  is_locator_failure e || is_listing_failure e || is_request_failure e
  || is_record_failure e || (truthy_str dump && is_file_failure e).

(** A listing with a branch, an annotated tag and the peeled line of that
    tag, which names the commit. *)
Definition annotated_listing : string :=
  "1111aaaa" +:+ str1 TAB +:+ "refs/heads/main" +:+ NL +:+
  "2222bbbb" +:+ str1 TAB +:+ "refs/tags/v1.0.0" +:+ NL +:+
  "abcdef01" +:+ str1 TAB +:+ "refs/tags/v1.0.0^{}" +:+ NL.

(** A computation every line of which satisfies [P]. *)
Definition emitting {A} (P : output -> Prop) (m : M A) : Prop :=
  forall st, exists d, out (snd (m st)) = out st ++ d /\ Forall P d.
(** * Properties *)

(** ** Strings *)

Lemma append_cons (c : ascii) (a b : string) : String c a +:+ b = String c (a +:+ b).
Proof. reflexivity. Qed.

Lemma append_empty_l (a : string) : EmptyString +:+ a = a.
Proof. reflexivity. Qed.

Lemma append_assoc (a b c : string) : (a +:+ b) +:+ c = a +:+ (b +:+ c).
Proof.
  induction a as [|x a IH]; [reflexivity|].
  rewrite !append_cons. now rewrite IH.
Qed.

Lemma append_empty_r (a : string) : a +:+ EmptyString = a.
Proof.
  induction a as [|x a IH]; [reflexivity|].
  rewrite append_cons. now rewrite IH.
Qed.

Lemma str_in_cons_false sub c s :
  str_in sub (String c s) = false ->
  startswith sub (String c s) = false /\ str_in sub s = false.
Proof. simpl. intros H. now apply orb_false_iff in H. Qed.

(** Replacing a text that does not occur changes nothing. *)
Lemma str_replace_absent old new s :
  str_in old s = false -> str_replace old new s = s.
Proof.
  unfold str_replace. induction s as [|c s IH]; intros H; [reflexivity|].
  apply str_in_cons_false in H as [Hp Hs].
  cbn [replace_from]. rewrite Hp. now rewrite IH.
Qed.

(** A [.git] at the end does not complete one that started earlier: none of
    [g], [i], [t] is a dot. *)
Lemma startswith_git_app c s :
  startswith ".git" (String c s +:+ ".git") = startswith ".git" (String c s).
Proof.
  destruct s as [|c1 [|c2 [|c3 s]]]; rewrite ?append_cons, ?append_empty_l; cbn;
    repeat match goal with
           | |- context [Ascii.eqb ?a ?b] => destruct (Ascii.eqb a b); cbn
           end; reflexivity.
Qed.

Lemma str_replace_git_suffix base :
  str_in ".git" base = false ->
  str_replace ".git" EmptyString (base +:+ ".git") = base.
Proof.
  unfold str_replace. induction base as [|c s IH]; intros H; [reflexivity|].
  apply str_in_cons_false in H as [Hp Hs].
  rewrite append_cons. cbn [replace_from]. rewrite <- append_cons.
  rewrite startswith_git_app, Hp. now rewrite IH.
Qed.

Lemma str_replace_names_repo part base :
  names_repo part base -> str_replace ".git" EmptyString part = base.
Proof.
  intros [Hin [-> | ->]].
  - now apply str_replace_absent.
  - now apply str_replace_git_suffix.
Qed.

(** A separator that occurs gives [split] at least two pieces. *)
Lemma split_from_in sep s :
  sep <> EmptyString -> str_in sep s = true ->
  exists p q qs, split_from sep 0 s = (p, q :: qs).
Proof.
  intros Hsep. induction s as [|c s IH]; intros H.
  - destruct sep; [congruence | discriminate].
  - cbn [split_from]. simpl in H.
    destruct (startswith sep (String c s)) eqn:E.
    + destruct (split_from sep (String.length sep - 1) s) as [p ps]. eauto.
    + simpl in H. destruct (IH H) as (p & q & qs & ->). eauto.
Qed.

(** ** Message Formatter *)

Lemma append_changes_rows message changelog :
  append_changes message changelog = message +:+ rows (kept_changes changelog).
Proof.
  revert message. induction changelog as [|change rest IH]; intros message; simpl.
  - now rewrite append_empty_r.
  - destruct (str_in "What's Changed" change); simpl.
    + apply IH.
    + rewrite IH. now rewrite !append_assoc.
Qed.

(** C5.  The formatter is a function of its five inputs: on the inputs of
    the unit test it gives the fixed text of that test; on every input it
    gives the header, then the changelog lines that do not contain
    "What's Changed", each on a row, in their order, then the closing fence;
    and the variant with a logger returns this same text in every state,
    issuing no external call and touching no file. *)
Theorem build_message_deterministic_template :
  Root.build_message "ProjectX" "username" "abcdef" "authorName" ["change1"; "change2"]
  = "*Release Notification:*" +:+ NL +:+
    "*Project:* ProjectX" +:+ NL +:+
    "*Released by:* username" +:+ NL +:+
    "*Commit:* abcdef" +:+ NL +:+
    "*Author:* authorName" +:+ NL +:+
    "*What's Changed:*" +:+ NL +:+
    "```" +:+ NL +:+
    "change1" +:+ NL +:+
    "change2" +:+ NL +:+
    "```"
  /\ (forall project_name released_by git_hash commit_author changelog,
        Root.build_message project_name released_by git_hash commit_author changelog
        = message_header project_name released_by git_hash commit_author
          +:+ rows (kept_changes changelog) +:+ "```")
  /\ (forall project_name released_by git_hash commit_author changelog st,
        fst (Tool.build_message project_name released_by git_hash commit_author changelog st)
        = inr (Root.build_message project_name released_by git_hash commit_author changelog)
        /\ calls (snd (Tool.build_message project_name released_by git_hash commit_author
                                          changelog st)) = calls st
        /\ files (snd (Tool.build_message project_name released_by git_hash commit_author
                                          changelog st)) = files st).
Proof.
  split; [reflexivity|]. split.
  - intros p r h a changelog. unfold Root.build_message.
    destruct changelog as [|c rest].
    + simpl. now rewrite append_empty_l.
    + rewrite append_changes_rows. now rewrite append_assoc.
  - intros. repeat split.
Qed.

(** ** Tag Resolver *)

(** No line holds both the hash and the marker: no tag. *)
Lemma scan_lines_none commit_hash lines :
  Forall (fun line => str_in commit_hash line && str_in "refs/tags/" line = false) lines ->
  scan_lines commit_hash lines = None.
Proof.
  induction 1 as [|line rest Hline _ IH]; [reflexivity|].
  simpl. now rewrite Hline.
Qed.

(** The first line that holds both decides, and the answer is the second
    piece of that line cut at the marker, with every [^{}] deleted. *)
Lemma scan_lines_first commit_hash before line rest :
  Forall (fun l => str_in commit_hash l && str_in "refs/tags/" l = false) before ->
  str_in commit_hash line = true ->
  str_in "refs/tags/" line = true ->
  exists p part1 others,
    str_split "refs/tags/" line = p :: part1 :: others /\
    scan_lines commit_hash (before ++ line :: rest)
    = Some (str_replace "^{}" EmptyString part1).
Proof.
  intros Hbefore Hhash Hmark.
  destruct (split_from_in "refs/tags/" line) as (p & q & qs & Hs); [discriminate | assumption |].
  exists p, q, qs. split.
  - unfold str_split. now rewrite Hs.
  - induction Hbefore as [|l ls Hl _ IH]; simpl.
    + rewrite Hhash, Hmark. simpl. unfold str_split. now rewrite Hs.
    + now rewrite Hl.
Qed.

(** C3.  The listing of a repository that has the tag [a/refs/tags/b] on
    commit [abc]: the line holds the hash and the marker, the text after the
    marker is [a/refs/tags/b], and the resolver, in both scripts, answers
    [a/], the piece up to the second marker. *)
Theorem tag_resolver_cuts_at_second_marker :
  let line := "abc" +:+ str1 TAB +:+ "refs/tags/a/refs/tags/b" in
  let w := sample_world line JNull JNull in
  let url := "https://github.com/example/repo.git" in
  str_in "abc" line = true
  /\ str_in "refs/tags/" line = true
  /\ spec_tag_of_line line = Some "a/refs/tags/b"
  /\ scan_lines "abc" [line] = Some "a/"
  /\ fst (Root.get_tag_for_commit w url "abc" start) = inr (Some "a/")
  /\ fst (Tool.get_tag_for_commit w url "abc" start) = inr (Some "a/").
Proof. cbv zeta. repeat split; vm_compute; reflexivity. Qed.

(** ** The fallback chain of the notify path *)

(** C1.  A run whose tag resolves to [v1.0.0] and whose release record has
    the empty string as body: splitting the empty body gives one empty line,
    so the changelog is not empty; both scripts fetch the release record,
    never ask for the commit, and post a message whose only changelog row is
    the empty line. *)
Theorem empty_release_body_skips_commit_fetch :
  let w := sample_world ("abcdef" +:+ str1 TAB +:+ "refs/tags/v1.0.0")
                        (sample_release EmptyString) sample_commit in
  let url := "https://github.com/example/repo.git" in
  let hook := "https://hooks.slack.com/services/XXX" in
  let expected :=
    [Subprocess "git ls-remote https://github.com/example/repo.git";
     Get "https://api.github.com/repos/example/repo/releases/tags/v1.0.0"
         (api_headers "token123");
     post_of (Root.build_message "ProjectX" "username" "abcdef" "octocat" [EmptyString])
             hook] in
  str_split NL EmptyString = [EmptyString]
  /\ Root.notify_release w url "abcdef" "ProjectX" "username" "token123" [hook] start
     = (inr tt, {| calls := expected; out := []; files := ∅ |})
  /\ fst (Tool.notify_release w url "abcdef" "ProjectX" "username" "token123" [hook] start)
     = inr tt
  /\ calls (snd (Tool.notify_release w url "abcdef" "ProjectX" "username" "token123"
                                     [hook] start)) = expected
  /\ List.filter is_commit_fetch expected = [].
Proof. cbv zeta. repeat split; vm_compute; reflexivity. Qed.

(** The two end-to-end scenarios of the specification, in both scripts: a
    tagged commit whose release body starts with the "What's Changed" line,
    and an untagged commit. *)
Example release_scenario :
  let w := sample_world ("abcdef" +:+ str1 TAB +:+ "refs/tags/v1.0.0")
             (sample_release ("What's Changed" +:+ NL +:+ "fix bug" +:+ NL +:+ "add feature"))
             sample_commit in
  let url := "https://github.com/example/repo.git" in
  let hook := "https://hooks.slack.com/services/XXX" in
  let message := Root.build_message "ProjectX" "username" "abcdef" "octocat"
                   ["What's Changed"; "fix bug"; "add feature"] in
  posts (calls (snd (Root.notify_release w url "abcdef" "ProjectX" "username" "token123"
                                         [hook] start))) = [post_of message hook]
  /\ posts (calls (snd (Tool.notify_release w url "abcdef" "ProjectX" "username" "token123"
                                            [hook] start))) = [post_of message hook]
  /\ message
     = message_header "ProjectX" "username" "abcdef" "octocat"
       +:+ "fix bug" +:+ NL +:+ "add feature" +:+ NL +:+ "```".
Proof. cbv zeta. repeat split; vm_compute; reflexivity. Qed.

Example commit_scenario :
  let w := sample_world ("123456" +:+ str1 TAB +:+ "refs/tags/v1.1.0")
                        (sample_release "fix bug") sample_commit in
  let hook := "https://hooks.slack.com/services/XXX" in
  let message := Root.build_message "ProjectX" "username" "abcdef" "Jane Doe"
                                    ["hotfix: patch"] in
  posts (calls (snd (Tool.notify_release w "https://github.com/example/repo.git" "abcdef"
                                         "ProjectX" "username" "token123" [hook] start)))
  = [post_of message hook]
  /\ posts (calls (snd (Root.notify_release w "git@github.com:example/repo.git" "abcdef"
                                            "ProjectX" "username" "token123" [hook] start)))
     = [post_of message hook]
  /\ message
     = message_header "ProjectX" "username" "abcdef" "Jane Doe"
       +:+ "hotfix: patch" +:+ NL +:+ "```".
Proof. cbv zeta. repeat split; vm_compute; reflexivity. Qed.

(** ** Notification Dispatcher *)

Section Dispatcher.
Context (w : World) (message : string).

Local Abbreviation data := (payload message).
Local Abbreviation post := (post_of message).

Lemma tool_send_run url st :
  Tool.send_slack_notification w url message st
  = match delivery w (calls st) url data with
    | Some e =>
        (inl e, called (post url)
                  (said (Log INFO ("Sending Slack notification to " +:+ url)) st))
    | None =>
        (inr tt, said (Log INFO "Successfully sent Slack notification")
                   (called (post url)
                      (said (Log INFO ("Sending Slack notification to " +:+ url)) st)))
    end.
Proof.
  unfold Tool.send_slack_notification, delivery, bind, requests_post, raise_for_status,
    Tool.logger_info, emit, called, said, post_of, payload. cbn.
  destruct (w_post w (calls st) url slack_headers _) as [e|r]; cbn; [reflexivity|].
  destruct (http_error r); reflexivity.
Qed.

Lemma root_send_run url st :
  Root.send_slack_notification w url message st
  = match delivery w (calls st) url data with
    | Some e => (inl e, called (post url) st)
    | None => (inr tt, called (post url) st)
    end.
Proof.
  unfold Root.send_slack_notification, delivery, bind, requests_post, raise_for_status,
    called, post_of, payload. cbn.
  destruct (w_post w (calls st) url slack_headers _) as [e|r]; cbn; [reflexivity|].
  destruct (http_error r); reflexivity.
Qed.


(** Every delivery goes through: one call per URL, in the order of the
    list, and nothing else. *)
Lemma tool_dispatch_all urls st :
  (forall k url, urls !! k = Some url ->
     delivery w (calls st ++ List.map post (take k urls)) url data = None) ->
  fst (tool_dispatch w message urls st) = inr tt
  /\ calls (snd (tool_dispatch w message urls st)) = calls st ++ List.map post urls
  /\ files (snd (tool_dispatch w message urls st)) = files st.
Proof.
  revert st. induction urls as [|u rest IH]; intros st Hall.
  - cbn. now rewrite app_nil_r.
  - unfold tool_dispatch. cbn [for_each]. unfold bind. rewrite tool_send_run.
    pose proof (Hall 0 u eq_refl) as H0. cbn in H0. rewrite app_nil_r in H0.
    rewrite H0. cbn [fst snd].
    set (st1 := said _ (called _ (said _ st))).
    destruct (IH st1) as (Hr & Hc & Hf).
    { intros k url Hk. specialize (Hall (S k) url Hk).
      cbn in Hall. cbn. now rewrite <- app_assoc. }
    fold (tool_dispatch w message rest). rewrite Hr, Hc, Hf. cbn. now rewrite <- app_assoc.
Qed.

(** The delivery at position [k] is the first to fail: its exception is
    the outcome, and the calls stop with it. *)
Lemma tool_dispatch_fails urls : forall k st url e,
  urls !! k = Some url ->
  (forall j u, j < k -> urls !! j = Some u ->
     delivery w (calls st ++ List.map post (take j urls)) u data = None) ->
  delivery w (calls st ++ List.map post (take k urls)) url data = Some e ->
  fst (tool_dispatch w message urls st) = inl e
  /\ calls (snd (tool_dispatch w message urls st)) = calls st ++ List.map post (take (S k) urls)
  /\ files (snd (tool_dispatch w message urls st)) = files st.
Proof.
  induction urls as [|u rest IH]; intros k st url e Hk Hbefore Hfail; [discriminate|].
  unfold tool_dispatch. cbn [for_each]. unfold bind. rewrite tool_send_run.
  destruct k as [|k].
  - cbn in Hk. injection Hk as ->. cbn in Hfail. rewrite app_nil_r in Hfail.
    rewrite Hfail. cbn. rewrite take_0. cbn. repeat split; reflexivity.
  - pose proof (Hbefore 0 u ltac:(lia) eq_refl) as H0. cbn in H0.
    rewrite app_nil_r in H0. rewrite H0. cbn [fst snd].
    set (st1 := said _ (called _ (said _ st))).
    destruct (IH k st1 url e) as (Hr & Hc & Hf).
    + exact Hk.
    + intros j u' Hj Hu. specialize (Hbefore (S j) u' ltac:(lia) Hu).
      cbn in Hbefore. cbn. now rewrite <- app_assoc.
    + cbn in Hfail. cbn. now rewrite <- app_assoc.
    + fold (tool_dispatch w message rest). rewrite Hr, Hc, Hf. cbn. now rewrite <- app_assoc.
Qed.
End Dispatcher.




(** ** Repository Locator *)

Lemma lstrip_c0_git_at rest : lstrip_c0 ("git@" +:+ rest) = "git@" +:+ rest.
Proof. reflexivity. Qed.

Lemma remove_tab_git_at rest : remove_char TAB ("git@" +:+ rest) = "git@" +:+ remove_char TAB rest.
Proof. reflexivity. Qed.
Lemma remove_cr_git_at rest : remove_char CR ("git@" +:+ rest) = "git@" +:+ remove_char CR rest.
Proof. reflexivity. Qed.
Lemma remove_lf_git_at rest : remove_char LF ("git@" +:+ rest) = "git@" +:+ remove_char LF rest.
Proof. reflexivity. Qed.

Lemma split_scheme_git_at r : split_scheme ("git@" +:+ r) = (EmptyString, "git@" +:+ r).
Proof.
  unfold split_scheme.
  replace (cut_at ":" ("git@" +:+ r))
    with (match cut_at ":" r with
          | Some (l, x) => Some ("git@" +:+ l, x)
          | None => None
          end).
  - destruct (cut_at ":" r) as [[l x]|]; reflexivity.
  - change ("git@" +:+ r) with (String "g" (String "i" (String "t" (String "@" r)))).
    cbn [cut_at]. 
    change (Ascii.eqb "g" ":") with false. change (Ascii.eqb "i" ":") with false.
    change (Ascii.eqb "t" ":") with false. change (Ascii.eqb "@" ":") with false.
    cbv iota. destruct (cut_at ":" r) as [[l x]|]; reflexivity.
Qed.

Lemma urlparse_git_at rest :
  exists p, urlparse ("git@" +:+ rest) = inr p /\ scheme p = EmptyString.
Proof.
  unfold urlparse.
  rewrite lstrip_c0_git_at, remove_tab_git_at, remove_cr_git_at, remove_lf_git_at.
  rewrite split_scheme_git_at.
  set (r := remove_char LF (remove_char CR (remove_char TAB rest))).
  change (startswith "//" ("git@" +:+ r)) with false. cbv iota beta.
  change (char_in "[" EmptyString) with false.
  change (char_in "]" EmptyString) with false.
  change (is_ascii_str EmptyString) with true.
  cbv iota beta. cbn [xorb orb negb].
  repeat match goal with
         | |- context [match ?x with _ => _ end] => destruct x
         end; eexists; (split; [reflexivity | reflexivity]).
Qed.

Lemma substring_all s : String.substring 0 (String.length s) s = s.
Proof. induction s as [|c s IH]; [reflexivity|]. simpl. now rewrite IH. Qed.

Lemma cut_at_absent c s : char_in c s = false -> cut_at c s = None.
Proof.
  induction s as [|b s IH]; [reflexivity|]. simpl. intros H.
  apply orb_false_iff in H as [Hb Hs]. rewrite Ascii.eqb_sym, Hb. now rewrite IH.
Qed.

Lemma rcut_at_absent c s : char_in c s = false -> rcut_at c s = None.
Proof.
  induction s as [|b s IH]; [reflexivity|]. simpl. intros H.
  apply orb_false_iff in H as [Hb Hs]. rewrite (IH Hs). now rewrite Ascii.eqb_sym, Hb.
Qed.

Lemma char_in_app c a b : char_in c (a +:+ b) = char_in c a || char_in c b.
Proof.
  induction a as [|x a IH]; [reflexivity|].
  rewrite append_cons. simpl. rewrite IH. now rewrite orb_assoc.
Qed.

Lemma rcut_at_last c a b :
  char_in c b = false -> rcut_at c (a +:+ String c b) = Some (a, b).
Proof.
  intros Hb. induction a as [|x a IH].
  - rewrite append_empty_l. simpl. rewrite (rcut_at_absent _ _ Hb).
    now rewrite Ascii.eqb_refl.
  - rewrite append_cons. simpl. now rewrite IH.
Qed.

(** The SSH form [git@host:part], on one line and with no colon in [part]:
    the second group is [part]. *)
Lemma match_git_at_form host part :
  char_in LF host = false -> char_in LF part = false -> char_in ":" part = false ->
  match_git_at ("git@" +:+ host +:+ ":" +:+ part) = Some (host, part).
Proof.
  intros Hh Hp Hc. unfold match_git_at.
  change (startswith "git@" ("git@" +:+ host +:+ ":" +:+ part)) with true. cbv iota.
  replace (String.substring 4 (String.length ("git@" +:+ host +:+ ":" +:+ part) - 4)
             ("git@" +:+ host +:+ ":" +:+ part))
    with (host +:+ ":" +:+ part).
  - unfold first_line. rewrite cut_at_absent.
    + apply (rcut_at_last ":" host part Hc).
    + rewrite char_in_app, Hh. change (":" +:+ part) with (String ":" part).
      simpl. now rewrite Hp.
  - change ("git@" +:+ host +:+ ":" +:+ part)
      with (String "g" (String "i" (String "t" (String "@" (host +:+ ":" +:+ part))))).
    cbn [String.length Nat.sub String.substring]. now rewrite Nat.sub_0_r, substring_all.
Qed.

Lemma tool_extract_org_repo_result url st :
  fst (Tool.extract_org_repo url st) = Root.extract_org_repo url.
Proof.
  unfold Tool.extract_org_repo, Root.extract_org_repo, bind, lift, Tool.logger_info,
    Tool.logger_error, emit, ret, raise. cbn.
  destruct (urlparse url) as [e|p]; cbn; [reflexivity|].
  destruct (str_eqb (scheme p) "http" || _); cbn; [reflexivity|].
  destruct (match_git_at url) as [[g1 g2]|]; reflexivity.
Qed.




(** ** What each function of the scripts does to the world *)

Lemma same_world_refl st : same_world st st.
Proof. now split. Qed.

Lemma tool_extract_org_repo_run url st :
  exists st',
    Tool.extract_org_repo url st = (Root.extract_org_repo url, st') /\ same_world st st'.
Proof.
  exists (snd (Tool.extract_org_repo url st)). split.
  - rewrite <- (tool_extract_org_repo_result url st). now destruct (Tool.extract_org_repo url st).
  - unfold Tool.extract_org_repo, bind, lift, Tool.logger_info, Tool.logger_error, emit,
      ret, raise, same_world. cbn.
    destruct (urlparse url) as [e|p]; cbn; [now split|].
    destruct (str_eqb (scheme p) "http" || _); cbn; [now split|].
    destruct (match_git_at url) as [[g1 g2]|]; cbn; now split.
Qed.

Section Runs.
Context (w : World).

Lemma root_get_tag_run url hash st :
  exists st',
    Root.get_tag_for_commit w url hash st = (listed_tag w (calls st) url hash, st')
    /\ after_call (Subprocess (ls_remote url)) st st'.
Proof.
  unfold Root.get_tag_for_commit, Root.execute_shell_command, try_except, bind, check_output,
    listed_tag, after_call, ls_remote. cbn.
  destruct (w_subprocess w (calls st) ("git ls-remote " +:+ url)); cbn;
    eexists; (split; [reflexivity | now split]).
Qed.

Lemma tool_get_tag_run url hash st :
  exists st',
    Tool.get_tag_for_commit w url hash st = (listed_tag w (calls st) url hash, st')
    /\ after_call (Subprocess (ls_remote url)) st st'.
Proof.
  unfold Tool.get_tag_for_commit, Tool.execute_shell_command, try_except, bind, check_output,
    listed_tag, after_call, ls_remote, Tool.logger_info, Tool.logger_error,
    Tool.logger_warning, emit. cbn.
  destruct (w_subprocess w (calls st) ("git ls-remote " +:+ url)); cbn.
  - eexists; (split; [reflexivity | now split]).
  - destruct (scan_lines hash _); cbn; eexists; (split; [reflexivity | now split]).
Qed.

Lemma root_get_release_run org tag token st :
  exists st',
    Root.get_release_info_by_tag w org tag token st
    = (fetched w (calls st) (release_url org tag) token, st')
    /\ after_call (Get (release_url org tag) (api_headers token)) st st'.
Proof.
  unfold Root.get_release_info_by_tag, bind, requests_get, raise_for_status, response_json,
    lift, fetched, after_call, release_url. cbn.
  destruct (w_get w (calls st) _ (api_headers token)) as [e|r]; cbn.
  - eexists; (split; [reflexivity | now split]).
  - destruct (http_error r); cbn; eexists; (split; [reflexivity | now split]).
Qed.

Lemma tool_get_release_run org tag token st :
  exists st',
    Tool.get_release_info_by_tag w org tag token st
    = (fetched w (calls st) (release_url org tag) token, st')
    /\ after_call (Get (release_url org tag) (api_headers token)) st st'.
Proof.
  unfold Tool.get_release_info_by_tag, bind, requests_get, raise_for_status, response_json,
    lift, fetched, after_call, release_url, Tool.logger_info, emit. cbn.
  destruct (w_get w (calls st) _ (api_headers token)) as [e|r]; cbn.
  - eexists; (split; [reflexivity | now split]).
  - destruct (http_error r); cbn; eexists; (split; [reflexivity | now split]).
Qed.

(** The commit fetcher of [slackbot.py] cuts the URL at its first colon. *)
Lemma root_get_commit_run url hash token st :
  match item1 (str_split ":" url) with
  | inl e => Root.get_commit_info w url hash token st = (inl e, st)
  | inr part =>
      let org_repo := str_replace ".git" EmptyString part in
      exists st',
        Root.get_commit_info w url hash token st
        = (fetched w (calls st) (commit_url org_repo hash) token, st')
        /\ after_call (Get (commit_url org_repo hash) (api_headers token)) st st'
  end.
Proof.
  unfold Root.get_commit_info, bind, lift.
  destruct (item1 (str_split ":" url)) as [e|part]; [reflexivity|].
  unfold requests_get, raise_for_status, response_json, lift, fetched, after_call,
    commit_url, bind. cbn.
  destruct (w_get w (calls st) _ (api_headers token)) as [e|r]; cbn.
  - eexists; (split; [reflexivity | now split]).
  - destruct (http_error r); cbn; eexists; (split; [reflexivity | now split]).
Qed.

(** The commit fetcher of [tool/slackbot.py] asks the locator. *)
Lemma tool_get_commit_run url hash token st :
  match Root.extract_org_repo url with
  | inl e =>
      exists st',
        Tool.get_commit_info w url hash token st = (inl e, st') /\ same_world st st'
  | inr org_repo =>
      exists st',
        Tool.get_commit_info w url hash token st
        = (fetched w (calls st) (commit_url org_repo hash) token, st')
        /\ after_call (Get (commit_url org_repo hash) (api_headers token)) st st'
  end.
Proof.
  unfold Tool.get_commit_info, bind.
  destruct (tool_extract_org_repo_run url st) as (st1 & -> & Hc & Hf).
  destruct (Root.extract_org_repo url) as [e|org]; [eexists; split; [reflexivity | now split]|].
  unfold requests_get, raise_for_status, response_json, lift, fetched, after_call,
    commit_url, bind, Tool.logger_info, emit, called, said. cbn. rewrite Hc, Hf.
  destruct (w_get w (calls st) _ (api_headers token)) as [e|r]; cbn.
  - eexists; (split; [reflexivity | now split]).
  - destruct (http_error r); cbn; eexists; (split; [reflexivity | now split]).
Qed.

Lemma dump_to_file_run file v st :
  match w_open w (calls st) file with
  | Some e =>
      exists st', dump_to_file w file v st = (inl (OSError e), st')
                  /\ after_call (OpenW file) st st'
  | None =>
      exists st', dump_to_file w file v st = (inr tt, st')
                  /\ calls st' = calls st ++ [OpenW file]
                  /\ files st' = <[file := json_dumps (Some 4) v]> (files st)
  end.
Proof.
  unfold dump_to_file, after_call.
  destruct (w_open w (calls st) file); eexists; (split; [reflexivity | now split]).
Qed.
End Runs.

(** ** One repository location for every fetch *)

(** C9.  For the HTTPS URL of the usage example, which the locator accepts
    as [example/repo], the commit fetcher of [slackbot.py] asks for
    [repos///github.com/example/repo] and the one of [tool/slackbot.py] for
    [repos/example/repo], whatever the world answers. *)
Theorem commit_fetchers_differ_on_https_url :
  forall (w : World) (st : state),
    let url := "https://github.com/example/repo.git" in
    Root.extract_org_repo url = inr "example/repo"
    /\ calls (snd (Root.get_commit_info w url "abcdef" "token123" st))
       = calls st ++
         [Get "https://api.github.com/repos///github.com/example/repo/commits/abcdef"
              (api_headers "token123")]
    /\ calls (snd (Tool.get_commit_info w url "abcdef" "token123" st))
       = calls st ++
         [Get "https://api.github.com/repos/example/repo/commits/abcdef"
              (api_headers "token123")].
Proof.
  intros w st. cbv zeta. split; [reflexivity|]. split.
  - pose proof (root_get_commit_run w "https://github.com/example/repo.git" "abcdef"
                  "token123" st) as H.
    change (item1 (str_split ":" "https://github.com/example/repo.git"))
      with (@inr exn string "//github.com/example/repo.git") in H.
    destruct H as (st' & -> & Hc & _). cbn [snd]. rewrite Hc. reflexivity.
  - pose proof (tool_get_commit_run w "https://github.com/example/repo.git" "abcdef"
                  "token123" st) as H.
    change (Root.extract_org_repo "https://github.com/example/repo.git")
      with (@inr exn string "example/repo") in H.
    destruct H as (st' & -> & Hc & _). cbn [snd]. rewrite Hc. reflexivity.
Qed.

(** C8.  A run of [slackbot.py] on the HTTPS URL of its usage example.  The
    locator gives [example/repo], and the release fetch of the notify path
    uses it; but for an untagged commit the commit fetch asks for
    [repos///github.com/example/repo], and for a tagged commit the release
    fetch of the dump path asks for [repos///github.com/example/repo] too:
    both cut the URL at its first colon instead of using the locator. *)
Theorem root_fetches_derive_location_differently :
  let url := "https://github.com/example/repo.git" in
  let hook := "https://hooks.slack.com/services/XXX" in
  let untagged := sample_world ("123456" +:+ str1 TAB +:+ "refs/tags/v1.1.0")
                               (sample_release "fix bug") sample_commit in
  let tagged := sample_world ("abcdef" +:+ str1 TAB +:+ "refs/tags/v1.0.0")
                             (sample_release "fix bug") sample_commit in
  Root.extract_org_repo url = inr "example/repo"
  /\ calls (snd (Root.notify_release tagged url "abcdef" "ProjectX" "username" "token123"
                                     [hook] start))
     = [Subprocess "git ls-remote https://github.com/example/repo.git";
        Get "https://api.github.com/repos/example/repo/releases/tags/v1.0.0"
            (api_headers "token123");
        post_of (Root.build_message "ProjectX" "username" "abcdef" "octocat" ["fix bug"])
                hook]
  /\ calls (snd (Root.notify_release untagged url "abcdef" "ProjectX" "username" "token123"
                                     [hook] start))
     = [Subprocess "git ls-remote https://github.com/example/repo.git";
        Get "https://api.github.com/repos///github.com/example/repo/commits/abcdef"
            (api_headers "token123");
        post_of (Root.build_message "ProjectX" "username" "abcdef" "Jane Doe"
                                    ["hotfix: patch"])
                hook]
  /\ calls (snd (Root.dump_release_info tagged url "abcdef" "token123" "/tmp/release.json"
                                        start))
     = [Subprocess "git ls-remote https://github.com/example/repo.git";
        Get "https://api.github.com/repos///github.com/example/repo/releases/tags/v1.0.0"
            (api_headers "token123");
        OpenW "/tmp/release.json"].
Proof. cbv zeta. repeat split; vm_compute; reflexivity. Qed.

(** Where the two commit fetchers agree: the SSH form [git@host:part] with
    a single colon, on one line. *)
Lemma split_colon_absent s : char_in ":" s = false -> split_from ":" 0 s = (s, []).
Proof.
  induction s as [|x s IH]; [reflexivity|]. cbn [char_in]. intros H.
  apply orb_false_iff in H as [Hx Hs].
  cbn [split_from startswith]. rewrite Hx. cbn [andb]. now rewrite (IH Hs).
Qed.

Lemma split_colon_once a b :
  char_in ":" a = false -> char_in ":" b = false ->
  str_split ":" (a +:+ String ":" b) = [a; b].
Proof.
  intros Ha Hb. unfold str_split.
  enough (split_from ":" 0 (a +:+ String ":" b) = (a, [b])) as -> by reflexivity.
  induction a as [|x a IH].
  - rewrite append_empty_l. cbn [split_from startswith Ascii.eqb Bool.eqb andb].
    cbn [String.length Nat.sub]. now rewrite (split_colon_absent b Hb).
  - cbn [char_in] in Ha. apply orb_false_iff in Ha as [Hx Ha].
    rewrite append_cons. cbn [split_from startswith]. rewrite Hx. cbn [andb].
    now rewrite (IH Ha).
Qed.

Lemma extract_org_repo_git_at host part :
  char_in LF host = false -> char_in LF part = false -> char_in ":" part = false ->
  Root.extract_org_repo ("git@" +:+ host +:+ ":" +:+ part)
  = inr (str_replace ".git" EmptyString part).
Proof.
  intros Hh Hl Hc.
  destruct (urlparse_git_at (host +:+ ":" +:+ part)) as (p & Hp & Hs).
  unfold Root.extract_org_repo. rewrite Hp, Hs.
  change (str_mem EmptyString ["http"; "https"]) with false. cbv iota.
  now rewrite (match_git_at_form host part Hh Hl Hc).
Qed.

Lemma commit_fetchers_agree_on_git_ssh w host part hash token st :
  char_in ":" host = false -> char_in LF host = false ->
  char_in ":" part = false -> char_in LF part = false ->
  let url := "git@" +:+ host +:+ ":" +:+ part in
  let target := Get (commit_url (str_replace ".git" EmptyString part) hash)
                    (api_headers token) in
  fst (Root.get_commit_info w url hash token st)
  = fst (Tool.get_commit_info w url hash token st)
  /\ calls (snd (Root.get_commit_info w url hash token st)) = calls st ++ [target]
  /\ calls (snd (Tool.get_commit_info w url hash token st)) = calls st ++ [target].
Proof.
  intros Hch Hlh Hcp Hlp url target.
  pose proof (root_get_commit_run w url hash token st) as Hr.
  pose proof (tool_get_commit_run w url hash token st) as Ht.
  unfold url in Hr, Ht.
  rewrite (extract_org_repo_git_at host part Hlh Hlp Hcp) in Ht.
  replace (str_split ":" ("git@" +:+ host +:+ ":" +:+ part)) with ["git@" +:+ host; part]
    in Hr.
  - cbn [item1] in Hr. cbv zeta in Hr.
    destruct Hr as (s1 & Hr & Hc1 & _). destruct Ht as (s2 & Ht & Hc2 & _).
    fold url in Hr, Ht. rewrite Hr, Ht. cbn [fst snd]. now repeat split.
  - symmetry. rewrite <- (append_assoc "git@" host (":" +:+ part)).
    apply (split_colon_once ("git@" +:+ host) part); [|exact Hcp].
    rewrite char_in_app, Hch. reflexivity.
Qed.

(** ** Exits and posts, function by function *)

Lemma tame_ret {A} (a : A) : tame (ret a).
Proof. intros st e H. discriminate. Qed.

Lemma tame_raise {A} e : is_exit e = false -> tame (@raise A e).
Proof. intros He st e' H. cbn in H. now injection H as <-. Qed.

Lemma tame_lift {A} (r : result A) : tame_result r -> tame (lift r).
Proof. intros Hr st e H. now apply Hr. Qed.

Lemma tame_bind {A B} (m : M A) (k : A -> M B) :
  tame m -> (forall a, tame (k a)) -> tame (bind m k).
Proof.
  intros Hm Hk st e. unfold bind. specialize (Hm st).
  destruct (m st) as [[e1|a] st1]; cbn in *.
  - intros H. injection H as <-. now apply Hm.
  - apply Hk.
Qed.

Lemma tame_try_except {A} (m : M A) handler :
  tame m -> (forall e h, handler e = Some h -> tame h) -> tame (try_except m handler).
Proof.
  intros Hm Hh st e. unfold try_except. specialize (Hm st).
  destruct (m st) as [[e1|a] st1]; cbn in *; [|discriminate].
  destruct (handler e1) as [h|] eqn:E.
  - apply (Hh e1 h E).
  - cbn. intros H. injection H as <-. now apply Hm.
Qed.

Lemma tame_emit o : tame (emit o).
Proof. intros st e H. discriminate. Qed.

Lemma tame_for_each {A} (l : list A) body :
  (forall x, tame (body x)) -> tame (for_each l body).
Proof.
  intros Hb. induction l as [|x l IH]; cbn [for_each].
  - apply tame_ret.
  - apply tame_bind; [apply Hb | intros _; exact IH].
Qed.

Lemma quiet_ret {A} (a : A) : quiet (ret a).
Proof. intros st. reflexivity. Qed.

Lemma quiet_raise {A} e : quiet (@raise A e).
Proof. intros st. reflexivity. Qed.

Lemma quiet_lift {A} (r : result A) : quiet (lift r).
Proof. intros st. reflexivity. Qed.

Lemma quiet_emit o : quiet (emit o).
Proof. intros st. reflexivity. Qed.

Lemma quiet_bind {A B} (m : M A) (k : A -> M B) :
  quiet m -> (forall a, quiet (k a)) -> quiet (bind m k).
Proof.
  intros Hm Hk st. unfold bind. specialize (Hm st).
  destruct (m st) as [[e1|a] st1]; cbn in *; [assumption|].
  now rewrite Hk.
Qed.

Lemma quiet_try_except {A} (m : M A) handler :
  quiet m -> (forall e h, handler e = Some h -> quiet h) -> quiet (try_except m handler).
Proof.
  intros Hm Hh st. unfold try_except. specialize (Hm st).
  destruct (m st) as [[e1|a] st1]; cbn in *; [|assumption].
  destruct (handler e1) as [h|] eqn:E; [|assumption].
  now rewrite (Hh e1 h E).
Qed.

Lemma posts_app l1 l2 : posts (l1 ++ l2) = posts l1 ++ posts l2.
Proof. apply List.filter_app. Qed.

(** The pure parts. *)

Ltac break_match_in H :=
  repeat match type of H with
         | context [match ?x with _ => _ end] => destruct x
         end.

Lemma urlparse_tame url : tame_result (urlparse url).
Proof.
  intros e H. unfold urlparse in H. break_match_in H; try discriminate;
    injection H as <-; reflexivity.
Qed.

Lemma extract_org_repo_tame url : tame_result (Root.extract_org_repo url).
Proof.
  intros e H. unfold Root.extract_org_repo in H.
  destruct (urlparse url) as [e1|p] eqn:E.
  - injection H as <-. exact (urlparse_tame url e1 E).
  - break_match_in H; try discriminate. injection H as <-. reflexivity.
Qed.

Lemma getitem_tame v key : tame_result (getitem v key).
Proof.
  intros e H. unfold getitem in H. break_match_in H; try discriminate;
    injection H as <-; reflexivity.
Qed.

Lemma method_split_tame v sep : tame_result (method_split v sep).
Proof.
  intros e H. destruct v; try discriminate; injection H as <-; reflexivity.
Qed.

Lemma as_text_tame v : tame_result (as_text v).
Proof.
  intros e H. destruct v; try discriminate; injection H as <-; reflexivity.
Qed.

Lemma item1_tame {A} (l : list A) : tame_result (item1 l).
Proof.
  intros e H. destruct l as [|? [|? ?]]; try discriminate; injection H as <-; reflexivity.
Qed.

Lemma decoded_tame r : tame_result (decoded r).
Proof.
  intros e H. unfold decoded in H. destruct (json_body r); [|discriminate].
  injection H as <-. reflexivity.
Qed.

Ltac tame_cases H :=
  repeat match type of H with
         | context [match ?x with _ => _ end] =>
             let E := fresh "E" in
             destruct x eqn:E;
             try (injection H as <-;
                  first [ eapply getitem_tame; eassumption
                        | eapply method_split_tame; eassumption
                        | eapply as_text_tame; eassumption ])
         end; try discriminate.

Lemma commit_message_tame v : tame_result (commit_message v).
Proof.
  intros e H. unfold commit_message in H. tame_cases H.
  eapply getitem_tame; eassumption.
Qed.

Lemma commit_author_name_tame v : tame_result (commit_author_name v).
Proof.
  intros e H. unfold commit_author_name in H. tame_cases H.
  eapply getitem_tame; eassumption.
Qed.

Lemma release_changes_tame v : tame_result (release_changes v).
Proof. intros e H. unfold release_changes in H. tame_cases H. Qed.

Lemma commit_changes_tame v : tame_result (commit_changes v).
Proof.
  intros e H. unfold commit_changes in H.
  repeat match type of H with
         | context [match ?x with _ => _ end] =>
             let E := fresh "E" in
             destruct x eqn:E;
             try (injection H as <-;
                  first [ eapply commit_message_tame; eassumption
                        | eapply commit_author_name_tame; eassumption
                        | eapply as_text_tame; eassumption ])
         end; try discriminate.
Qed.

Lemma commit_record_tame v : tame_result (commit_record v).
Proof.
  intros e H. unfold commit_record in H.
  repeat match type of H with
         | context [match ?x with _ => _ end] =>
             let E := fresh "E" in
             destruct x eqn:E;
             try (injection H as <-;
                  first [ eapply commit_message_tame; eassumption
                        | eapply commit_author_name_tame; eassumption ])
         end; try discriminate.
Qed.

Create HintDb script discriminated.

#[export] Hint Resolve urlparse_tame extract_org_repo_tame getitem_tame method_split_tame
  as_text_tame item1_tame decoded_tame commit_message_tame commit_author_name_tame
  release_changes_tame commit_changes_tame commit_record_tame : script.

(** The primitives. *)

Section Primitives.
Context (w : World).

Lemma tame_check_output command : tame (check_output w command).
Proof.
  intros st e. unfold check_output. destruct (w_subprocess w (calls st) command); cbn.
  - intros H. now injection H as <-.
  - discriminate.
Qed.

Lemma quiet_check_output command : quiet (check_output w command).
Proof.
  intros st. unfold check_output.
  destruct (w_subprocess w (calls st) command); cbn;
    rewrite posts_app; cbn; now rewrite app_nil_r.
Qed.

Lemma tame_requests_get url hdrs : tame (requests_get w url hdrs).
Proof.
  intros st e. unfold requests_get. destruct (w_get w (calls st) url hdrs); cbn.
  - intros H. now injection H as <-.
  - discriminate.
Qed.

Lemma quiet_requests_get url hdrs : quiet (requests_get w url hdrs).
Proof.
  intros st. unfold requests_get.
  destruct (w_get w (calls st) url hdrs); cbn;
    rewrite posts_app; cbn; now rewrite app_nil_r.
Qed.

Lemma tame_requests_post url hdrs data : tame (requests_post w url hdrs data).
Proof.
  intros st e. unfold requests_post. destruct (w_post w (calls st) url hdrs data); cbn.
  - intros H. now injection H as <-.
  - discriminate.
Qed.

Lemma tame_dump_to_file file v : tame (dump_to_file w file v).
Proof.
  intros st e. unfold dump_to_file. destruct (w_open w (calls st) file); cbn.
  - intros H. now injection H as <-.
  - discriminate.
Qed.

Lemma quiet_dump_to_file file v : quiet (dump_to_file w file v).
Proof.
  intros st. unfold dump_to_file.
  destruct (w_open w (calls st) file); cbn;
    rewrite posts_app; cbn; now rewrite app_nil_r.
Qed.
End Primitives.

Lemma tame_raise_for_status r : tame (raise_for_status r).
Proof.
  unfold raise_for_status. destruct (http_error r);
    [now apply tame_raise | apply tame_ret].
Qed.

Lemma quiet_raise_for_status r : quiet (raise_for_status r).
Proof.
  unfold raise_for_status. destruct (http_error r);
    [apply quiet_raise | apply quiet_ret].
Qed.

Lemma tame_response_json r : tame (response_json r).
Proof. apply tame_lift, decoded_tame. Qed.

Lemma quiet_response_json r : quiet (response_json r).
Proof. apply quiet_lift. Qed.

#[export] Hint Resolve tame_check_output tame_requests_get tame_requests_post
  tame_dump_to_file tame_raise_for_status tame_response_json tame_ret tame_emit
  quiet_check_output quiet_requests_get quiet_dump_to_file quiet_raise_for_status
  quiet_response_json quiet_ret quiet_raise quiet_lift quiet_emit : script.

(** One step through the text of a function. *)
Ltac tame_step :=
  match goal with
  | |- tame (bind _ _) => apply tame_bind; [|intros ?]
  | |- tame (lift _) => apply tame_lift; solve [auto with script]
  | |- tame (raise _) => apply tame_raise; reflexivity
  | |- tame (for_each _ _) => apply tame_for_each; intros ?
  | |- tame (if ?b then _ else _) => destruct b
  | |- tame (match ?x with _ => _ end) => destruct x
  | |- tame _ => solve [auto with script]
  end.

Ltac quiet_step :=
  match goal with
  | |- quiet (bind _ _) => apply quiet_bind; [|intros ?]
  | |- quiet (if ?b then _ else _) => destruct b
  | |- quiet (match ?x with _ => _ end) => destruct x
  | |- quiet _ => solve [auto with script]
  end.

(** The handler that turns a failed command into a [RuntimeError]. *)
Ltac handler_cases :=
  let e := fresh "e" in
  let h := fresh "h" in
  let H := fresh "H" in
  intros e h H; destruct e; try discriminate; injection H as <-.

Section Functions.
Context (w : World).

Lemma tame_root_execute command : tame (Root.execute_shell_command w command).
Proof.
  unfold Root.execute_shell_command. apply tame_try_except.
  - repeat tame_step.
  - handler_cases. repeat tame_step.
Qed.

Lemma quiet_root_execute command : quiet (Root.execute_shell_command w command).
Proof.
  unfold Root.execute_shell_command. apply quiet_try_except.
  - repeat quiet_step.
  - handler_cases. repeat quiet_step.
Qed.

Lemma tame_tool_execute command : tame (Tool.execute_shell_command w command).
Proof.
  unfold Tool.execute_shell_command, Tool.logger_info, Tool.logger_error.
  tame_step; [tame_step|]. apply tame_try_except.
  - repeat tame_step.
  - handler_cases. repeat tame_step.
Qed.

Lemma quiet_tool_execute command : quiet (Tool.execute_shell_command w command).
Proof.
  unfold Tool.execute_shell_command, Tool.logger_info, Tool.logger_error.
  quiet_step; [quiet_step|]. apply quiet_try_except.
  - repeat quiet_step.
  - handler_cases. repeat quiet_step.
Qed.

Hint Resolve tame_root_execute quiet_root_execute tame_tool_execute quiet_tool_execute
  : script.

Lemma tame_root_get_tag url hash : tame (Root.get_tag_for_commit w url hash).
Proof. unfold Root.get_tag_for_commit. repeat tame_step. Qed.

Lemma quiet_root_get_tag url hash : quiet (Root.get_tag_for_commit w url hash).
Proof. unfold Root.get_tag_for_commit. repeat quiet_step. Qed.

Lemma tame_tool_get_tag url hash : tame (Tool.get_tag_for_commit w url hash).
Proof.
  unfold Tool.get_tag_for_commit, Tool.logger_info, Tool.logger_warning. repeat tame_step.
Qed.

Lemma quiet_tool_get_tag url hash : quiet (Tool.get_tag_for_commit w url hash).
Proof.
  unfold Tool.get_tag_for_commit, Tool.logger_info, Tool.logger_warning. repeat quiet_step.
Qed.

Lemma tame_root_get_release org tag token :
  tame (Root.get_release_info_by_tag w org tag token).
Proof. unfold Root.get_release_info_by_tag. repeat tame_step. Qed.

Lemma quiet_root_get_release org tag token :
  quiet (Root.get_release_info_by_tag w org tag token).
Proof. unfold Root.get_release_info_by_tag. repeat quiet_step. Qed.

Lemma tame_tool_get_release org tag token :
  tame (Tool.get_release_info_by_tag w org tag token).
Proof. unfold Tool.get_release_info_by_tag, Tool.logger_info. repeat tame_step. Qed.

Lemma quiet_tool_get_release org tag token :
  quiet (Tool.get_release_info_by_tag w org tag token).
Proof. unfold Tool.get_release_info_by_tag, Tool.logger_info. repeat quiet_step. Qed.

Lemma tame_tool_extract url : tame (Tool.extract_org_repo url).
Proof.
  unfold Tool.extract_org_repo, Tool.logger_info, Tool.logger_error. repeat tame_step.
Qed.

Lemma quiet_tool_extract url : quiet (Tool.extract_org_repo url).
Proof.
  unfold Tool.extract_org_repo, Tool.logger_info, Tool.logger_error. repeat quiet_step.
Qed.

Hint Resolve tame_tool_extract quiet_tool_extract : script.

Lemma tame_root_get_commit url hash token : tame (Root.get_commit_info w url hash token).
Proof. unfold Root.get_commit_info. repeat tame_step. Qed.

Lemma quiet_root_get_commit url hash token : quiet (Root.get_commit_info w url hash token).
Proof. unfold Root.get_commit_info. repeat quiet_step. Qed.

Lemma tame_tool_get_commit url hash token : tame (Tool.get_commit_info w url hash token).
Proof. unfold Tool.get_commit_info, Tool.logger_info. repeat tame_step. Qed.

Lemma quiet_tool_get_commit url hash token : quiet (Tool.get_commit_info w url hash token).
Proof. unfold Tool.get_commit_info, Tool.logger_info. repeat quiet_step. Qed.

Lemma tame_root_send url message : tame (Root.send_slack_notification w url message).
Proof. unfold Root.send_slack_notification. repeat tame_step. Qed.

Lemma tame_tool_send url message : tame (Tool.send_slack_notification w url message).
Proof. unfold Tool.send_slack_notification, Tool.logger_info. repeat tame_step. Qed.

Lemma tame_tool_build_message p r h a changelog :
  tame (Tool.build_message p r h a changelog).
Proof. unfold Tool.build_message, Tool.logger_info. repeat tame_step. Qed.

Lemma quiet_tool_build_message p r h a changelog :
  quiet (Tool.build_message p r h a changelog).
Proof. unfold Tool.build_message, Tool.logger_info. repeat quiet_step. Qed.

Hint Resolve tame_root_get_tag quiet_root_get_tag tame_tool_get_tag quiet_tool_get_tag
  tame_root_get_release quiet_root_get_release tame_tool_get_release
  quiet_tool_get_release tame_root_get_commit quiet_root_get_commit
  tame_tool_get_commit quiet_tool_get_commit tame_root_send tame_tool_send
  tame_tool_build_message quiet_tool_build_message : script.

Lemma tame_root_notify url hash p r token urls :
  tame (Root.notify_release w url hash p r token urls).
Proof. unfold Root.notify_release. repeat tame_step. Qed.

Lemma tame_tool_notify url hash p r token urls :
  tame (Tool.notify_release w url hash p r token urls).
Proof. unfold Tool.notify_release, Tool.logger_info. repeat tame_step. Qed.

Lemma tame_root_dump url hash token file :
  tame (Root.dump_release_info w url hash token file).
Proof. unfold Root.dump_release_info. repeat tame_step. Qed.

Lemma quiet_root_dump url hash token file :
  quiet (Root.dump_release_info w url hash token file).
Proof. unfold Root.dump_release_info. repeat quiet_step. Qed.

Lemma tame_tool_dump url hash token file :
  tame (Tool.dump_release_info w url hash token file).
Proof. unfold Tool.dump_release_info, Tool.logger_info. repeat tame_step. Qed.

Lemma quiet_tool_dump url hash token file :
  quiet (Tool.dump_release_info w url hash token file).
Proof. unfold Tool.dump_release_info, Tool.logger_info. repeat quiet_step. Qed.
End Functions.

#[export] Hint Resolve tame_root_notify tame_tool_notify tame_root_dump tame_tool_dump
  quiet_root_dump quiet_tool_dump quiet_root_get_tag quiet_tool_get_tag
  quiet_root_get_release quiet_tool_get_release quiet_root_get_commit
  quiet_tool_get_commit quiet_tool_extract quiet_tool_build_message : script.

(** ** The top-level entry point *)

Lemma error_line_of_error e :
  is_exit e = false -> e <> OutOfModel ->
  exists c, category e = Some c /\ error_line e = Some (c +:+ ": " +:+ exn_str e).
Proof.
  intros He Hm. destruct e; try discriminate; try congruence;
    eexists; (split; [reflexivity | reflexivity]).
Qed.

Section EntryPoint.
Context (w : World) (args : Args).

(** The block under [__main__] of [slackbot.py], by the outcome of [main]. *)
Lemma root_script_run st :
  Root.script w args st
  = match Root.main w args st with
    | (inr _, st') => (inl (SystemExit 0), st')
    | (inl e, st') =>
        match error_line e with
        | Some line => (inl (SystemExit 1), said (Print line) st')
        | None => (inl e, st')
        end
    end.
Proof.
  unfold Root.script, try_except, bind, sys_exit, raise, print, emit, said.
  destruct (Root.main w args st) as [[e|u] st']; cbn; [|reflexivity].
  destruct (error_line e); reflexivity.
Qed.

Lemma root_main_missing st :
  all_given args = false ->
  Root.main w args st = (inl (SystemExit 2), said (Usage missing_arguments) st).
Proof. intros H. unfold Root.main, bind. rewrite H. reflexivity. Qed.

Lemma root_main_tame : all_given args = true -> tame (Root.main w args).
Proof.
  intros H. unfold Root.main. rewrite H. cbn [negb].
  repeat tame_step.
Qed.

Lemma tool_release_tame urls : tame (Tool.release w args urls).
Proof. unfold Tool.release, Tool.logger_info. repeat tame_step. Qed.

Lemma tool_main_missing st :
  all_given args = false ->
  Tool.main w args st = (inl (SystemExit 2), said (Usage missing_arguments) st).
Proof. intros H. unfold Tool.main, bind. rewrite H. reflexivity. Qed.

(** [main] of [tool/slackbot.py], by the outcome of the body of its [try]. *)
Lemma tool_main_run st :
  all_given args = true ->
  Tool.main w args st
  = match Tool.release w args (str_split "," (arg (slack_url_release args)))
                       (said (Log INFO "Starting main process") st) with
    | (inr _, st') => (inl (SystemExit 0), st')
    | (inl e, st') =>
        match error_line e with
        | Some line => (inl (SystemExit 1), said (Log ERROR line) st')
        | None => (inl e, st')
        end
    end.
Proof.
  intros H. unfold Tool.main. rewrite H. cbn [negb].
  unfold try_except, bind, sys_exit, raise, ret, Tool.logger_info, Tool.logger_error, emit,
    said. cbn.
  destruct (Tool.release w args _ _) as [[e|u] st']; cbn; [|reflexivity].
  destruct (error_line e); reflexivity.
Qed.
End EntryPoint.

(** C6, as the claim states it: [slackbot.py] reports a failure with
    [print], on standard output; nothing reaches the error stream. *)
Lemma root_reports_failure_on_stdout :
  let run := Root.script unreachable_platform
                         (sample_args "https://hooks.slack.com/services/XXX" None) start in
  fst run = inl (SystemExit 1)
  /\ out (snd run) = [Print "Network Error: connection refused"]
  /\ List.filter on_stderr (out (snd run)) = [].
Proof. cbv zeta. repeat split; vm_compute; reflexivity. Qed.

(** C6, amended.  With all six required arguments given, either script exits
    with status 0 exactly when its run returns normally, and when the run
    raises an error it exits with status 1 after one more line, the category
    of the error ([Network Error] for a [RequestException], [Value Error]
    for a [ValueError], [Unexpected Error] for any other exception), a colon
    and the text of the error: [tool/slackbot.py] writes it through the
    logger, on the error stream, [slackbot.py] with [print], on standard
    output.  With a required argument missing, either script reports the
    usage error on the error stream and exits with status 2, having made no
    external call. *)
Theorem entry_point_exit_status :
  forall (w : World) (args : Args) (st : state),
    (all_given args = false ->
     Root.script w args st = (inl (SystemExit 2), said (Usage missing_arguments) st)
     /\ Tool.main w args st = (inl (SystemExit 2), said (Usage missing_arguments) st)
     /\ calls (said (Usage missing_arguments) st) = calls st)
    /\ (all_given args = true ->
        (fst (Root.script w args st) = inl (SystemExit 0)
         <-> fst (Root.main w args st) = inr tt)
        /\ (forall e,
              fst (Root.main w args st) = inl e -> e <> OutOfModel ->
              exists c,
                category e = Some c
                /\ Root.script w args st
                   = (inl (SystemExit 1),
                      said (Print (c +:+ ": " +:+ exn_str e)) (snd (Root.main w args st)))))
    /\ (all_given args = true ->
        let urls := str_split "," (arg (slack_url_release args)) in
        let st1 := said (Log INFO "Starting main process") st in
        (fst (Tool.main w args st) = inl (SystemExit 0)
         <-> fst (Tool.release w args urls st1) = inr tt)
        /\ (forall e,
              fst (Tool.release w args urls st1) = inl e -> e <> OutOfModel ->
              exists c,
                category e = Some c
                /\ Tool.main w args st
                   = (inl (SystemExit 1),
                      said (Log ERROR (c +:+ ": " +:+ exn_str e))
                           (snd (Tool.release w args urls st1)))))
    /\ (forall m, category (RequestException m) = Some "Network Error")
    /\ (forall m, category (ValueError m) = Some "Value Error")
    /\ (forall e, is_Exception e = true ->
                  (forall m, e <> RequestException m) -> (forall m, e <> ValueError m) ->
                  category e = Some "Unexpected Error")
    /\ (forall line, on_stderr (Print line) = false /\ on_stderr (Log ERROR line) = true)
    /\ on_stderr (Usage missing_arguments) = true.
Proof.
  intros w args st.
  split; [|split; [|split; [|split; [|split; [|split; [|split]]]]]].
  - intros H. rewrite root_script_run, (root_main_missing w args st H), tool_main_missing by exact H.
    repeat split.
  - intros H. rewrite root_script_run.
    pose proof (root_main_tame w args H st) as Htame.
    destruct (Root.main w args st) as [[e|[]] st'] eqn:E; cbn [fst snd] in *.
    + split.
      * split; [|discriminate]. specialize (Htame e eq_refl).
        destruct (error_line e); cbn; [discriminate|].
        intros Hx. injection Hx as ->. discriminate.
      * intros e' He' Hm. injection He' as <-.
        destruct (error_line_of_error e (Htame e eq_refl) Hm) as (c & Hc & Hl).
        exists c. split; [exact Hc|]. now rewrite Hl.
    + split; [split; reflexivity|]. intros e He. discriminate.
  - intros H. cbv zeta. rewrite (tool_main_run w args st H).
    pose proof (tool_release_tame w args (str_split "," (arg (slack_url_release args)))
                  (said (Log INFO "Starting main process") st)) as Htame.
    destruct (Tool.release w args _ _) as [[e|[]] st'] eqn:E; cbn [fst snd] in *.
    + split.
      * split; [|discriminate]. specialize (Htame e eq_refl).
        destruct (error_line e); cbn; [discriminate|].
        intros Hx. injection Hx as ->. discriminate.
      * intros e' He' Hm. injection He' as <-.
        destruct (error_line_of_error e (Htame e eq_refl) Hm) as (c & Hc & Hl).
        exists c. split; [exact Hc|]. now rewrite Hl.
    + split; [split; reflexivity|]. intros e He. discriminate.
  - reflexivity.
  - reflexivity.
  - intros e He Hr Hv. destruct e; try discriminate; try reflexivity.
    + now destruct (Hr msg).
    + now destruct (Hv msg).
  - intros line. now split.
  - reflexivity.
Qed.

Lemma entry_point_exit_status_witness :
  exists c,
    category (RequestException "connection refused") = Some c
    /\ Tool.main unreachable_platform
                 (sample_args "https://hooks.slack.com/services/XXX" None) start
       = (inl (SystemExit 1),
          said (Log ERROR (c +:+ ": " +:+ exn_str (RequestException "connection refused")))
               (snd (Tool.release unreachable_platform
                       (sample_args "https://hooks.slack.com/services/XXX" None)
                       (str_split "," "https://hooks.slack.com/services/XXX")
                       (said (Log INFO "Starting main process") start)))).
Proof.
  apply (proj2 (proj1 (proj2 (proj2
           (entry_point_exit_status unreachable_platform
              (sample_args "https://hooks.slack.com/services/XXX" None) start)))
           eq_refl)
         (RequestException "connection refused")).
  - vm_compute. reflexivity.
  - discriminate.
Defined.

(** ** Info Persister *)

Lemma persisted_lookup r st file v :
  persisted r st file v -> files (snd r) !! file = Some (json_dumps (Some 4) v).
Proof. intros [_ ->]. apply lookup_insert_eq. Qed.

Lemma persisted_elsewhere r st file v other :
  persisted r st file v -> other <> file -> files (snd r) !! other = files st !! other.
Proof. intros [_ ->] Hne. apply lookup_insert_ne. congruence. Qed.

Section Persister.
Context (w : World) (url hash token file : string) (st : state).

Local Abbreviation listing := (Subprocess (ls_remote url)).

(** [tool/slackbot.py], with the tag and a release record that is not
    empty. *)
Lemma tool_dump_release org tag record :
  Root.extract_org_repo url = inr org ->
  listed_tag w (calls st) url hash = inr (Some tag) ->
  tag <> EmptyString ->
  fetched w (calls st ++ [listing]) (release_url org tag) token = inr record ->
  truthy record = true ->
  w_open w (calls st ++ [listing; Get (release_url org tag) (api_headers token)]) file
  = None ->
  persisted (Tool.dump_release_info w url hash token file st) st file record.
Proof.
  intros Horg Htag Hne Hrel Htrue Hopen.
  unfold Tool.dump_release_info, bind, Tool.logger_info, emit.
  set (st0 := said _ st).
  destruct (tool_extract_org_repo_run url st0) as (st1 & -> & Hc1 & Hf1).
  rewrite Horg.
  destruct (tool_get_tag_run w url hash st1) as (st2 & -> & Hc2 & Hf2).
  rewrite Hc1. cbn [calls st0 said]. rewrite Htag.
  assert (truthy_str (Some tag) = true) as -> by (destruct tag; [congruence | reflexivity]).
  destruct (tool_get_release_run w org (arg (Some tag)) token st2) as (st3 & -> & Hc3 & Hf3).
  cbn [arg] in *. rewrite Hc2, Hc1. cbn [calls st0 said]. rewrite Hrel, Htrue.
  cbn [negb ret].
  pose proof (dump_to_file_run w file record st3) as Hd.
  rewrite Hc3, Hc2, Hc1 in Hd. cbn [calls st0 said] in Hd.
  rewrite <- app_assoc in Hd. cbn [app] in Hd. rewrite Hopen in Hd.
  destruct Hd as (st4 & -> & Hc4 & Hf4).
  split; [reflexivity|]. cbn [snd files said]. rewrite Hf4, Hf3, Hf2, Hf1. reflexivity.
Qed.

Lemma commit_record_fields commit_info message author :
  commit_message commit_info = inr message ->
  commit_author_name commit_info = inr author ->
  commit_record commit_info
  = inr (JObj [("commit", commit_info); ("message", message); ("author", author)]).
Proof. intros Hm Ha. unfold commit_record. now rewrite Hm, Ha. Qed.

(** [tool/slackbot.py], with no tag: the record of the commit. *)
Lemma tool_dump_commit org tag commit_info message author :
  Root.extract_org_repo url = inr org ->
  listed_tag w (calls st) url hash = inr tag ->
  truthy_str tag = false ->
  fetched w (calls st ++ [listing]) (commit_url org hash) token = inr commit_info ->
  commit_message commit_info = inr message ->
  commit_author_name commit_info = inr author ->
  w_open w (calls st ++ [listing; Get (commit_url org hash) (api_headers token)]) file
  = None ->
  persisted (Tool.dump_release_info w url hash token file st) st file
            (JObj [("commit", commit_info); ("message", message); ("author", author)]).
Proof.
  intros Horg Htag Hno Hcommit Hm Ha Hopen.
  unfold Tool.dump_release_info, bind, Tool.logger_info, emit.
  set (st0 := said _ st).
  destruct (tool_extract_org_repo_run url st0) as (st1 & -> & Hc1 & Hf1).
  rewrite Horg.
  destruct (tool_get_tag_run w url hash st1) as (st2 & -> & Hc2 & Hf2).
  rewrite Hc1. cbn [calls st0 said]. rewrite Htag, Hno. cbn [ret truthy negb].
  pose proof (tool_get_commit_run w url hash token st2) as Hg. rewrite Horg in Hg.
  destruct Hg as (st3 & -> & Hc3 & Hf3).
  rewrite Hc2, Hc1. cbn [calls st0 said]. rewrite Hcommit.
  unfold lift. rewrite (commit_record_fields _ _ _ Hm Ha).
  pose proof (dump_to_file_run w file
                (JObj [("commit", commit_info); ("message", message); ("author", author)])
                st3) as Hd.
  rewrite Hc3, Hc2, Hc1 in Hd. cbn [calls st0 said] in Hd.
  rewrite <- app_assoc in Hd. cbn [app] in Hd. rewrite Hopen in Hd.
  destruct Hd as (st4 & -> & Hc4 & Hf4).
  split; [reflexivity|]. cbn [snd files said]. rewrite Hf4, Hf3, Hf2, Hf1. reflexivity.
Qed.

(** [tool/slackbot.py], with the tag and an empty release record: the
    record of the commit again. *)
Lemma tool_dump_empty_release org tag record commit_info message author :
  Root.extract_org_repo url = inr org ->
  listed_tag w (calls st) url hash = inr (Some tag) ->
  tag <> EmptyString ->
  fetched w (calls st ++ [listing]) (release_url org tag) token = inr record ->
  truthy record = false ->
  fetched w (calls st ++ [listing; Get (release_url org tag) (api_headers token)])
          (commit_url org hash) token = inr commit_info ->
  commit_message commit_info = inr message ->
  commit_author_name commit_info = inr author ->
  w_open w (calls st ++ [listing; Get (release_url org tag) (api_headers token);
                         Get (commit_url org hash) (api_headers token)]) file = None ->
  persisted (Tool.dump_release_info w url hash token file st) st file
            (JObj [("commit", commit_info); ("message", message); ("author", author)]).
Proof.
  intros Horg Htag Hne Hrel Hfalse Hcommit Hm Ha Hopen.
  unfold Tool.dump_release_info, bind, Tool.logger_info, emit.
  set (st0 := said _ st).
  destruct (tool_extract_org_repo_run url st0) as (st1 & -> & Hc1 & Hf1).
  rewrite Horg.
  destruct (tool_get_tag_run w url hash st1) as (st2 & -> & Hc2 & Hf2).
  rewrite Hc1. cbn [calls st0 said]. rewrite Htag.
  assert (truthy_str (Some tag) = true) as -> by (destruct tag; [congruence | reflexivity]).
  destruct (tool_get_release_run w org (arg (Some tag)) token st2) as (st3 & -> & Hc3 & Hf3).
  cbn [arg] in *. rewrite Hc2, Hc1. cbn [calls st0 said]. rewrite Hrel, Hfalse.
  cbn [negb].
  pose proof (tool_get_commit_run w url hash token st3) as Hg. rewrite Horg in Hg.
  destruct Hg as (st4 & -> & Hc4 & Hf4).
  rewrite Hc3, Hc2, Hc1. cbn [calls st0 said]. rewrite <- app_assoc. cbn [app].
  rewrite Hcommit.
  unfold lift. rewrite (commit_record_fields _ _ _ Hm Ha).
  pose proof (dump_to_file_run w file
                (JObj [("commit", commit_info); ("message", message); ("author", author)])
                st4) as Hd.
  rewrite Hc4, Hc3, Hc2, Hc1 in Hd. cbn [calls st0 said] in Hd.
  rewrite <- !app_assoc in Hd. cbn [app] in Hd. rewrite Hopen in Hd.
  destruct Hd as (st5 & -> & Hc5 & Hf5).
  split; [reflexivity|]. cbn [snd files said]. rewrite Hf5, Hf4, Hf3, Hf2, Hf1. reflexivity.
Qed.

(** [slackbot.py]: the same three cases, with the repository taken from
    the URL after its first colon. *)
Lemma root_dump_release part tag record :
  item1 (str_split ":" url) = inr part ->
  let org := str_replace ".git" EmptyString part in
  listed_tag w (calls st) url hash = inr (Some tag) ->
  tag <> EmptyString ->
  fetched w (calls st ++ [listing]) (release_url org tag) token = inr record ->
  truthy record = true ->
  w_open w (calls st ++ [listing; Get (release_url org tag) (api_headers token)]) file
  = None ->
  persisted (Root.dump_release_info w url hash token file st) st file record.
Proof.
  intros Hpart org Htag Hne Hrel Htrue Hopen.
  unfold Root.dump_release_info, bind, lift. rewrite Hpart. fold org.
  destruct (root_get_tag_run w url hash st) as (st2 & -> & Hc2 & Hf2).
  rewrite Htag.
  assert (truthy_str (Some tag) = true) as -> by (destruct tag; [congruence | reflexivity]).
  destruct (root_get_release_run w org (arg (Some tag)) token st2) as (st3 & -> & Hc3 & Hf3).
  cbn [arg] in *. rewrite Hc2, Hrel, Htrue. cbn [negb ret].
  pose proof (dump_to_file_run w file record st3) as Hd.
  rewrite Hc3, Hc2 in Hd. rewrite <- app_assoc in Hd. cbn [app] in Hd.
  rewrite Hopen in Hd. destruct Hd as (st4 & -> & Hc4 & Hf4).
  split; [reflexivity|]. cbn [snd files said]. rewrite Hf4, Hf3, Hf2. reflexivity.
Qed.

Lemma root_dump_commit part tag commit_info message author :
  item1 (str_split ":" url) = inr part ->
  let org := str_replace ".git" EmptyString part in
  listed_tag w (calls st) url hash = inr tag ->
  truthy_str tag = false ->
  fetched w (calls st ++ [listing]) (commit_url org hash) token = inr commit_info ->
  commit_message commit_info = inr message ->
  commit_author_name commit_info = inr author ->
  w_open w (calls st ++ [listing; Get (commit_url org hash) (api_headers token)]) file
  = None ->
  persisted (Root.dump_release_info w url hash token file st) st file
            (JObj [("commit", commit_info); ("message", message); ("author", author)]).
Proof.
  intros Hpart org Htag Hno Hcommit Hm Ha Hopen.
  unfold Root.dump_release_info, bind, lift. rewrite Hpart. fold org.
  destruct (root_get_tag_run w url hash st) as (st2 & -> & Hc2 & Hf2).
  rewrite Htag, Hno. cbn [ret truthy negb].
  pose proof (root_get_commit_run w url hash token st2) as Hg. rewrite Hpart in Hg.
  cbv zeta in Hg. fold org in Hg. destruct Hg as (st3 & -> & Hc3 & Hf3).
  rewrite Hc2, Hcommit. rewrite (commit_record_fields _ _ _ Hm Ha).
  pose proof (dump_to_file_run w file
                (JObj [("commit", commit_info); ("message", message); ("author", author)])
                st3) as Hd.
  rewrite Hc3, Hc2 in Hd. rewrite <- app_assoc in Hd. cbn [app] in Hd.
  rewrite Hopen in Hd. destruct Hd as (st4 & -> & Hc4 & Hf4).
  split; [reflexivity|]. cbn [snd files said]. rewrite Hf4, Hf3, Hf2. reflexivity.
Qed.

Lemma root_dump_empty_release part tag record commit_info message author :
  item1 (str_split ":" url) = inr part ->
  let org := str_replace ".git" EmptyString part in
  listed_tag w (calls st) url hash = inr (Some tag) ->
  tag <> EmptyString ->
  fetched w (calls st ++ [listing]) (release_url org tag) token = inr record ->
  truthy record = false ->
  fetched w (calls st ++ [listing; Get (release_url org tag) (api_headers token)])
          (commit_url org hash) token = inr commit_info ->
  commit_message commit_info = inr message ->
  commit_author_name commit_info = inr author ->
  w_open w (calls st ++ [listing; Get (release_url org tag) (api_headers token);
                         Get (commit_url org hash) (api_headers token)]) file = None ->
  persisted (Root.dump_release_info w url hash token file st) st file
            (JObj [("commit", commit_info); ("message", message); ("author", author)]).
Proof.
  intros Hpart org Htag Hne Hrel Hfalse Hcommit Hm Ha Hopen.
  unfold Root.dump_release_info, bind, lift. rewrite Hpart. fold org.
  destruct (root_get_tag_run w url hash st) as (st2 & -> & Hc2 & Hf2).
  rewrite Htag.
  assert (truthy_str (Some tag) = true) as -> by (destruct tag; [congruence | reflexivity]).
  destruct (root_get_release_run w org (arg (Some tag)) token st2) as (st3 & -> & Hc3 & Hf3).
  cbn [arg] in *. rewrite Hc2, Hrel, Hfalse. cbn [negb].
  pose proof (root_get_commit_run w url hash token st3) as Hg. rewrite Hpart in Hg.
  cbv zeta in Hg. fold org in Hg. destruct Hg as (st4 & -> & Hc4 & Hf4).
  rewrite Hc3, Hc2. rewrite <- app_assoc. cbn [app]. rewrite Hcommit.
  rewrite (commit_record_fields _ _ _ Hm Ha).
  pose proof (dump_to_file_run w file
                (JObj [("commit", commit_info); ("message", message); ("author", author)])
                st4) as Hd.
  rewrite Hc4, Hc3, Hc2 in Hd. rewrite <- !app_assoc in Hd. cbn [app] in Hd.
  rewrite Hopen in Hd. destruct Hd as (st5 & -> & Hc5 & Hf5).
  split; [reflexivity|]. cbn [snd files said]. rewrite Hf5, Hf4, Hf3, Hf2. reflexivity.
Qed.
End Persister.

(** [json.dump] writes the fields of a record in the order the record has
    them, each after its quoted key. *)
Lemma json_dumps_field_order indent k v fields :
  json_dumps indent (JObj ((k, v) :: fields))
  = "{" +:+ bracketed indent 0
              (List.map (fun kv => quote (fst kv) +:+ ": " +:+ encode indent 1 (snd kv))
                        ((k, v) :: fields))
    +:+ "}".
Proof. reflexivity. Qed.

(** C7, as the claim states it: the tag resolves and the hosting platform
    answers with the empty record; the file does not hold that record but
    the record of the commit. *)
Lemma dump_of_empty_release_is_commit_record :
  let w := sample_world ("abcdef" +:+ str1 TAB +:+ "refs/tags/v1.0.0") (JObj []) sample_commit in
  let run := Tool.dump_release_info w "https://github.com/example/repo.git" "abcdef"
                                    "token123" "/tmp/release.json" start in
  fst (Tool.get_tag_for_commit w "https://github.com/example/repo.git" "abcdef" start)
  = inr (Some "v1.0.0")
  /\ fst (Tool.get_release_info_by_tag w "example/repo" "v1.0.0" "token123" start)
     = inr (JObj [])
  /\ fst run = inr tt
  /\ files (snd run) !! "/tmp/release.json"
     = Some (json_dumps (Some 4)
               (JObj [("commit", sample_commit); ("message", JStr "hotfix: patch");
                      ("author", JStr "Jane Doe")]))
  /\ files (snd run) !! "/tmp/release.json" <> Some (json_dumps (Some 4) (JObj [])).
Proof. cbv zeta. repeat split; try (vm_compute; reflexivity). vm_compute. discriminate. Qed.

(** C7, amended.  For every dump run of either script in which the listing,
    the fetches and the opening of the file succeed: when the commit's tag
    resolves and the fetched release record is not empty, the file holds
    exactly that record, written by [json.dump] with [indent=4], its fields
    in the order of the record; when no tag resolves, or the fetched release
    record is empty, the file holds a record with the keys [commit],
    [message] and [author] in this order, taken from the commit info; and in
    every case the file holds this text whatever it held before, the other
    files being left as they were. *)
Theorem dump_writes_release_or_commit_record :
  forall (w : World) (url hash token file : string) (st : state),
    let listing := Subprocess (ls_remote url) in
    let fallback commit_info message author :=
      JObj [("commit", commit_info); ("message", message); ("author", author)] in
    (forall org tag record,
       Root.extract_org_repo url = inr org ->
       listed_tag w (calls st) url hash = inr (Some tag) -> tag <> EmptyString ->
       fetched w (calls st ++ [listing]) (release_url org tag) token = inr record ->
       truthy record = true ->
       w_open w (calls st ++ [listing; Get (release_url org tag) (api_headers token)]) file
       = None ->
       persisted (Tool.dump_release_info w url hash token file st) st file record)
    /\ (forall org tag commit_info message author,
          Root.extract_org_repo url = inr org ->
          listed_tag w (calls st) url hash = inr tag -> truthy_str tag = false ->
          fetched w (calls st ++ [listing]) (commit_url org hash) token = inr commit_info ->
          commit_message commit_info = inr message ->
          commit_author_name commit_info = inr author ->
          w_open w (calls st ++ [listing; Get (commit_url org hash) (api_headers token)]) file
          = None ->
          persisted (Tool.dump_release_info w url hash token file st) st file
                    (fallback commit_info message author))
    /\ (forall org tag record commit_info message author,
          Root.extract_org_repo url = inr org ->
          listed_tag w (calls st) url hash = inr (Some tag) -> tag <> EmptyString ->
          fetched w (calls st ++ [listing]) (release_url org tag) token = inr record ->
          truthy record = false ->
          fetched w (calls st ++ [listing; Get (release_url org tag) (api_headers token)])
                  (commit_url org hash) token = inr commit_info ->
          commit_message commit_info = inr message ->
          commit_author_name commit_info = inr author ->
          w_open w (calls st ++ [listing; Get (release_url org tag) (api_headers token);
                                 Get (commit_url org hash) (api_headers token)]) file
          = None ->
          persisted (Tool.dump_release_info w url hash token file st) st file
                    (fallback commit_info message author))
    /\ (forall part tag record,
          item1 (str_split ":" url) = inr part ->
          let org := str_replace ".git" EmptyString part in
          listed_tag w (calls st) url hash = inr (Some tag) -> tag <> EmptyString ->
          fetched w (calls st ++ [listing]) (release_url org tag) token = inr record ->
          truthy record = true ->
          w_open w (calls st ++ [listing; Get (release_url org tag) (api_headers token)]) file
          = None ->
          persisted (Root.dump_release_info w url hash token file st) st file record)
    /\ (forall part tag commit_info message author,
          item1 (str_split ":" url) = inr part ->
          let org := str_replace ".git" EmptyString part in
          listed_tag w (calls st) url hash = inr tag -> truthy_str tag = false ->
          fetched w (calls st ++ [listing]) (commit_url org hash) token = inr commit_info ->
          commit_message commit_info = inr message ->
          commit_author_name commit_info = inr author ->
          w_open w (calls st ++ [listing; Get (commit_url org hash) (api_headers token)]) file
          = None ->
          persisted (Root.dump_release_info w url hash token file st) st file
                    (fallback commit_info message author))
    /\ (forall part tag record commit_info message author,
          item1 (str_split ":" url) = inr part ->
          let org := str_replace ".git" EmptyString part in
          listed_tag w (calls st) url hash = inr (Some tag) -> tag <> EmptyString ->
          fetched w (calls st ++ [listing]) (release_url org tag) token = inr record ->
          truthy record = false ->
          fetched w (calls st ++ [listing; Get (release_url org tag) (api_headers token)])
                  (commit_url org hash) token = inr commit_info ->
          commit_message commit_info = inr message ->
          commit_author_name commit_info = inr author ->
          w_open w (calls st ++ [listing; Get (release_url org tag) (api_headers token);
                                 Get (commit_url org hash) (api_headers token)]) file
          = None ->
          persisted (Root.dump_release_info w url hash token file st) st file
                    (fallback commit_info message author))
    /\ (forall r v,
          persisted r st file v ->
          files (snd r) !! file = Some (json_dumps (Some 4) v)
          /\ forall other, other <> file -> files (snd r) !! other = files st !! other)
    /\ (forall indent k v fields,
          json_dumps indent (JObj ((k, v) :: fields))
          = "{" +:+ bracketed indent 0
                      (List.map (fun kv => quote (fst kv) +:+ ": "
                                           +:+ encode indent 1 (snd kv))
                                ((k, v) :: fields))
            +:+ "}").
Proof.
  intros w url hash token file st. cbv zeta.
  split; [|split; [|split; [|split; [|split; [|split; [|split]]]]]].
  - intros org tag record. apply tool_dump_release.
  - intros org tag ci m a. apply tool_dump_commit.
  - intros org tag record ci m a. apply tool_dump_empty_release.
  - intros part tag record. apply root_dump_release.
  - intros part tag ci m a. apply root_dump_commit.
  - intros part tag record ci m a. apply root_dump_empty_release.
  - intros r v H. split.
    + exact (persisted_lookup r st file v H).
    + intros other Hne. exact (persisted_elsewhere r st file v other H Hne).
  - intros. apply json_dumps_field_order.
Qed.

(** A run on a tagged commit over a file that already holds something. *)
Lemma dump_writes_release_or_commit_record_witness :
  let w := sample_world ("abcdef" +:+ str1 TAB +:+ "refs/tags/v1.0.0")
                        (sample_release "fix bug") sample_commit in
  let st := {| calls := []; out := [];
               files := <["/tmp/release.json" := "stale"]> ∅ |} in
  persisted (Tool.dump_release_info w "https://github.com/example/repo.git" "abcdef"
                                    "token123" "/tmp/release.json" st)
            st "/tmp/release.json" (sample_release "fix bug").
Proof.
  cbv zeta.
  apply (proj1 (dump_writes_release_or_commit_record
                  (sample_world ("abcdef" +:+ str1 TAB +:+ "refs/tags/v1.0.0")
                                (sample_release "fix bug") sample_commit)
                  "https://github.com/example/repo.git" "abcdef" "token123"
                  "/tmp/release.json"
                  {| calls := []; out := [];
                     files := <["/tmp/release.json" := "stale"]> ∅ |})
               "example/repo" "v1.0.0" (sample_release "fix bug")).
  - reflexivity.
  - reflexivity.
  - discriminate.
  - reflexivity.
  - reflexivity.
  - reflexivity.
Defined.

(** ** The webhook targets *)

Lemma posts_of_posts message urls :
  posts (List.map (post_of message) urls) = List.map (post_of message) urls.
Proof.
  induction urls as [|u l IH]; [reflexivity|].
  change (posts (List.map (post_of message) (u :: l)))
    with (post_of message u :: posts (List.map (post_of message) l)).
  now rewrite IH.
Qed.

Lemma sends_quiet_bind {A B} (m : M A) (k : A -> M B) urls :
  quiet m -> (forall a, sends (k a) urls) -> sends (bind m k) urls.
Proof.
  intros Hm Hk st. unfold bind. specialize (Hm st).
  destruct (m st) as [[e|a] st1]; cbn [fst snd] in *.
  - exists EmptyString, 0. rewrite Hm, take_0. cbn. rewrite app_nil_r.
    split; [reflexivity | discriminate].
  - destruct (Hk a st1) as (message & n & Hp & Hn).
    exists message, n. rewrite Hp, Hm. now split.
Qed.

Lemma sends_bind_quiet {A B} (m : M A) (k : A -> M B) urls :
  sends m urls -> (forall a, quiet (k a)) -> sends (bind m k) urls.
Proof.
  intros Hm Hk st. unfold bind. destruct (Hm st) as (message & n & Hp & Hn).
  exists message, n.
  destruct (m st) as [[e|a] st1]; cbn [fst snd] in *.
  - split; [exact Hp | discriminate].
  - rewrite Hk. split; [exact Hp|]. intros _ _. now apply (Hn a).
Qed.

Section Loops.
Context (w : World) (message : string).

Lemma root_dispatch_prefix urls st :
  exists k,
    calls (snd (for_each urls (fun url => Root.send_slack_notification w url message) st))
    = calls st ++ List.map (post_of message) (take k urls)
    /\ (fst (for_each urls (fun url => Root.send_slack_notification w url message) st)
        = inr tt -> k = length urls).
Proof.
  revert st. induction urls as [|u rest IH]; intros st.
  - exists 0. cbn. rewrite app_nil_r. now split.
  - cbn [for_each]. unfold bind. rewrite root_send_run.
    destruct (delivery w (calls st) u (payload message)).
    + exists 1. cbn. split; [reflexivity | discriminate].
    + destruct (IH (called (post_of message u) st)) as (k & Hc & Hk).
      exists (S k). cbn [fst snd] in *. rewrite Hc. cbn. rewrite <- app_assoc.
      split; [reflexivity|]. intros H. now rewrite (Hk H).
Qed.

Lemma tool_dispatch_prefix urls st :
  exists k,
    calls (snd (tool_dispatch w message urls st))
    = calls st ++ List.map (post_of message) (take k urls)
    /\ (fst (tool_dispatch w message urls st) = inr tt -> k = length urls).
Proof.
  revert st. unfold tool_dispatch. induction urls as [|u rest IH]; intros st.
  - exists 0. cbn. rewrite app_nil_r. now split.
  - cbn [for_each]. unfold bind. rewrite tool_send_run.
    destruct (delivery w (calls st) u (payload message)).
    + exists 1. cbn. split; [reflexivity | discriminate].
    + match goal with
      | |- context [for_each rest _ ?s] => destruct (IH s) as (k & Hc & Hk)
      end.
      exists (S k). cbn [fst snd] in *. rewrite Hc. cbn. rewrite <- app_assoc.
      split; [reflexivity|]. intros H. now rewrite (Hk H).
Qed.

Lemma sends_root_dispatch urls :
  sends (for_each urls (fun url => Root.send_slack_notification w url message)) urls.
Proof.
  intros st. destruct (root_dispatch_prefix urls st) as (k & Hc & Hk).
  exists message, k. rewrite Hc, posts_app, posts_of_posts. split; [reflexivity|].
  intros []. exact Hk.
Qed.

Lemma sends_tool_dispatch urls :
  sends (for_each urls (fun url => Tool.send_slack_notification w url message)) urls.
Proof.
  intros st. destruct (tool_dispatch_prefix urls st) as (k & Hc & Hk).
  exists message, k. unfold tool_dispatch in *. rewrite Hc, posts_app, posts_of_posts.
  split; [reflexivity|]. intros []. exact Hk.
Qed.
End Loops.

(** One step through the text of a function that ends in the dispatch. *)
Ltac sends_step :=
  match goal with
  | |- sends (for_each _ (fun url => Root.send_slack_notification _ url _)) _ =>
      apply sends_root_dispatch
  | |- sends (for_each _ (fun url => Tool.send_slack_notification _ url _)) _ =>
      apply sends_tool_dispatch
  | |- sends (bind _ _) _ =>
      first [ apply sends_quiet_bind; [solve [repeat quiet_step] | intros ?]
            | apply sends_bind_quiet; [| intros ?; solve [repeat quiet_step]] ]
  | |- sends (match ?x with _ => _ end) _ => destruct x
  end.

Section Targets.
Context (w : World).

Lemma sends_root_notify url hash p r token urls :
  sends (Root.notify_release w url hash p r token urls) urls.
Proof. unfold Root.notify_release. repeat sends_step. Qed.

Lemma sends_tool_notify url hash p r token urls :
  sends (Tool.notify_release w url hash p r token urls) urls.
Proof. unfold Tool.notify_release, Tool.logger_info. repeat sends_step. Qed.

Lemma quiet_parser_error {A} message : quiet (@parser_error A message).
Proof. unfold parser_error, sys_exit. repeat quiet_step. Qed.

Lemma sends_root_main args :
  sends (Root.main w args) (str_split "," (arg (slack_url_release args))).
Proof.
  unfold Root.main. apply sends_quiet_bind.
  - destruct (negb (all_given args)); [apply quiet_parser_error | apply quiet_ret].
  - intros _. apply sends_bind_quiet; [apply sends_root_notify|].
    intros _. destruct (truthy_str _); auto with script.
Qed.

Lemma sends_tool_release args urls : sends (Tool.release w args urls) urls.
Proof.
  unfold Tool.release, Tool.logger_info. apply sends_bind_quiet; [apply sends_tool_notify|].
  intros _. apply quiet_bind; [|intros _; apply quiet_emit].
  destruct (truthy_str _); auto with script.
Qed.
End Targets.

(** Splitting at commas: a comma at the end leaves an empty last piece, and
    two commas in a row leave an empty piece between them. *)
Lemma split_comma_trailing s :
  exists p ps, split_from "," 0 (s +:+ ",") = (p, ps ++ [EmptyString]).
Proof.
  induction s as [|x s (p & ps & IH)].
  - exists EmptyString, []. reflexivity.
  - rewrite append_cons. cbn [split_from startswith String.length Nat.sub].
    rewrite IH. destruct (Ascii.eqb "," x); cbn.
    + exists EmptyString, (p :: ps). reflexivity.
    + exists (String x p), ps. reflexivity.
Qed.

Lemma split_comma_doubled s t :
  In EmptyString (snd (split_from "," 0 (s +:+ ",," +:+ t))).
Proof.
  induction s as [|x s IH].
  - rewrite append_empty_l. change (",," +:+ t) with (String "," (String "," t)).
    cbn [split_from startswith String.length Nat.sub Ascii.eqb Bool.eqb andb].
    destruct (split_from "," 0 t) as [p ps]. cbn. now left.
  - rewrite append_cons. cbn [split_from startswith String.length Nat.sub].
    destruct (split_from "," 0 (s +:+ ",," +:+ t)) as [p ps].
    destruct (Ascii.eqb "," x); cbn in *; [now right | assumption].
Qed.

Lemma str_split_comma_trailing s : last (str_split "," (s +:+ ",")) = Some EmptyString.
Proof.
  unfold str_split. destruct (split_comma_trailing s) as (p & ps & ->).
  rewrite app_comm_cons. apply last_snoc.
Qed.

Lemma str_split_comma_doubled s t : In EmptyString (str_split "," (s +:+ ",," +:+ t)).
Proof.
  unfold str_split. pose proof (split_comma_doubled s t) as H.
  destruct (split_from "," 0 (s +:+ ",," +:+ t)) as [p ps]. now right.
Qed.

Lemma tool_main_sends w args :
  forall st, exists message k,
    posts (calls (snd (Tool.main w args st)))
    = posts (calls st)
      ++ List.map (post_of message) (take k (str_split "," (arg (slack_url_release args))))
    /\ (fst (Tool.main w args st) = inl (SystemExit 0) ->
        k = length (str_split "," (arg (slack_url_release args)))).
Proof.
  intros st. destruct (all_given args) eqn:Hall.
  - rewrite (tool_main_run w args st Hall).
    set (urls := str_split "," (arg (slack_url_release args))).
    set (st1 := said _ st).
    destruct (sends_tool_release w args urls st1) as (message & k & Hp & Hk).
    pose proof (tool_release_tame w args urls st1) as Htame.
    exists message, k.
    destruct (Tool.release w args urls st1) as [[e|[]] st']; cbn [fst snd] in *.
    + specialize (Htame e eq_refl).
      destruct (error_line e); cbn [fst snd calls said].
      * split; [exact Hp | discriminate].
      * split; [exact Hp|]. intros H. injection H as ->. discriminate.
    + split; [exact Hp|]. intros _. now apply (Hk tt).
  - rewrite (tool_main_missing w args st Hall). exists EmptyString, 0.
    rewrite take_0. cbn. rewrite app_nil_r. split; [reflexivity | discriminate].
Qed.

Lemma posted_to_each message urls before (l : list call) url :
  posts l = before ++ List.map (post_of message) urls ->
  In url urls -> In (post_of message url) l.
Proof.
  intros Hp Hin.
  assert (In (post_of message url) (posts l)) as H.
  { rewrite Hp. apply in_or_app. right. now apply in_map. }
  unfold posts in H. now apply List.filter_In in H.
Qed.



(** ** The notify path, where it keeps to the fallback chain *)

Lemma str_split_not_empty sep s : str_split sep s <> [].
Proof. unfold str_split. now destruct (split_from sep 0 s). Qed.

Lemma release_changes_not_empty record changelog author :
  release_changes record = inr (changelog, author) -> changelog <> [].
Proof.
  unfold release_changes. intros H.
  destruct (getitem record "body") as [|body]; [discriminate|].
  destruct body; try discriminate. cbn [method_split] in H.
  break_match_in H; try discriminate. injection H as <- _. apply str_split_not_empty.
Qed.

Lemma commit_changes_text commit_info message name :
  commit_message commit_info = inr (JStr message) ->
  commit_author_name commit_info = inr (JStr name) ->
  commit_changes commit_info = inr ([message], name).
Proof. intros Hm Hn. unfold commit_changes. now rewrite Hm, Hn. Qed.

Section NotifyPath.
Context (w : World) (url hash project releaser token : string) (urls : list string)
        (st : state).

Local Abbreviation listing := (Subprocess (ls_remote url)).

(** No tag: [slackbot.py] fetches the commit, and the message carries the
    commit message as its only changelog line. *)
Lemma root_notify_untagged org part tag commit_info message name :
  Root.extract_org_repo url = inr org ->
  item1 (str_split ":" url) = inr part ->
  let location := str_replace ".git" EmptyString part in
  listed_tag w (calls st) url hash = inr tag ->
  truthy_str tag = false ->
  fetched w (calls st ++ [listing]) (commit_url location hash) token = inr commit_info ->
  commit_message commit_info = inr (JStr message) ->
  commit_author_name commit_info = inr (JStr name) ->
  exists k,
    calls (snd (Root.notify_release w url hash project releaser token urls st))
    = calls st
      ++ [listing; Get (commit_url location hash) (api_headers token)]
      ++ List.map (post_of (Root.build_message project releaser hash name [message]))
                  (take k urls).
Proof.
  intros Horg Hpart location Htag Hno Hcommit Hm Hn.
  unfold Root.notify_release, bind, lift. rewrite Horg.
  destruct (root_get_tag_run w url hash st) as (st2 & -> & Hc2 & Hf2).
  rewrite Htag, Hno. cbn [ret].
  pose proof (root_get_commit_run w url hash token st2) as Hg. rewrite Hpart in Hg.
  cbv zeta in Hg. fold location in Hg. destruct Hg as (st3 & -> & Hc3 & Hf3).
  rewrite Hc2, Hcommit, (commit_changes_text _ _ _ Hm Hn).
  destruct (root_dispatch_prefix w
              (Root.build_message project releaser hash name [message]) urls st3)
    as (k & Hk & _).
  exists k. rewrite Hk, Hc3, Hc2, <- !app_assoc. reflexivity.
Qed.

(** A tag and a release record with a body: [slackbot.py] fetches the
    release record and never the commit. *)
Lemma root_notify_tagged org tag record changelog author :
  Root.extract_org_repo url = inr org ->
  listed_tag w (calls st) url hash = inr (Some tag) ->
  tag <> EmptyString ->
  fetched w (calls st ++ [listing]) (release_url org tag) token = inr record ->
  release_changes record = inr (changelog, author) ->
  exists k,
    calls (snd (Root.notify_release w url hash project releaser token urls st))
    = calls st
      ++ [listing; Get (release_url org tag) (api_headers token)]
      ++ List.map (post_of (Root.build_message project releaser hash author changelog))
                  (take k urls).
Proof.
  intros Horg Htag Hne Hrel Hch.
  unfold Root.notify_release, bind, lift. rewrite Horg.
  destruct (root_get_tag_run w url hash st) as (st2 & -> & Hc2 & Hf2).
  rewrite Htag.
  assert (truthy_str (Some tag) = true) as -> by (destruct tag; [congruence | reflexivity]).
  destruct (root_get_release_run w org (arg (Some tag)) token st2) as (st3 & -> & Hc3 & Hf3).
  cbn [arg] in *. rewrite Hc2, Hrel, Hch.
  pose proof (release_changes_not_empty _ _ _ Hch) as Hnil.
  destruct changelog as [|line rest]; [congruence|]. cbn [ret].
  destruct (root_dispatch_prefix w
              (Root.build_message project releaser hash author (line :: rest)) urls st3)
    as (k & Hk & _).
  exists k. rewrite Hk, Hc3, Hc2, <- !app_assoc. reflexivity.
Qed.

(** The same two cases in [tool/slackbot.py], where the commit fetch asks
    the locator. *)
Lemma tool_notify_untagged org tag commit_info message name :
  Root.extract_org_repo url = inr org ->
  listed_tag w (calls st) url hash = inr tag ->
  truthy_str tag = false ->
  fetched w (calls st ++ [listing]) (commit_url org hash) token = inr commit_info ->
  commit_message commit_info = inr (JStr message) ->
  commit_author_name commit_info = inr (JStr name) ->
  exists k,
    calls (snd (Tool.notify_release w url hash project releaser token urls st))
    = calls st
      ++ [listing; Get (commit_url org hash) (api_headers token)]
      ++ List.map (post_of (Root.build_message project releaser hash name [message]))
                  (take k urls).
Proof.
  intros Horg Htag Hno Hcommit Hm Hn.
  unfold Tool.notify_release, bind, Tool.logger_info, emit.
  set (st0 := said _ st).
  destruct (tool_extract_org_repo_run url st0) as (st1 & -> & Hc1 & Hf1).
  rewrite Horg.
  destruct (tool_get_tag_run w url hash st1) as (st2 & -> & Hc2 & Hf2).
  rewrite Hc1. cbn [calls st0 said]. rewrite Htag, Hno. cbn [ret].
  pose proof (tool_get_commit_run w url hash token st2) as Hg. rewrite Horg in Hg.
  destruct Hg as (st3 & -> & Hc3 & Hf3).
  rewrite Hc2, Hc1. cbn [calls st0 said]. rewrite Hcommit.
  unfold lift. rewrite (commit_changes_text _ _ _ Hm Hn).
  unfold Tool.build_message, bind, Tool.logger_info, emit, ret. cbn [fst snd].
  match goal with
  | |- context [for_each urls _ ?s] =>
      destruct (tool_dispatch_prefix w
                  (Root.build_message project releaser hash name [message]) urls s)
        as (k & Hk & _)
  end.
  exists k. unfold tool_dispatch in Hk.
  match goal with
  | |- context [for_each urls ?f ?s] => destruct (for_each urls f s) as [[e|[]] st5]
  end; cbn [fst snd calls said] in *; rewrite Hk; cbn [calls said];
    rewrite Hc3, Hc2, Hc1; cbn [calls st0 said]; rewrite <- !app_assoc; reflexivity.
Qed.

Lemma tool_notify_tagged org tag record changelog author :
  Root.extract_org_repo url = inr org ->
  listed_tag w (calls st) url hash = inr (Some tag) ->
  tag <> EmptyString ->
  fetched w (calls st ++ [listing]) (release_url org tag) token = inr record ->
  release_changes record = inr (changelog, author) ->
  exists k,
    calls (snd (Tool.notify_release w url hash project releaser token urls st))
    = calls st
      ++ [listing; Get (release_url org tag) (api_headers token)]
      ++ List.map (post_of (Root.build_message project releaser hash author changelog))
                  (take k urls).
Proof.
  intros Horg Htag Hne Hrel Hch.
  unfold Tool.notify_release, bind, Tool.logger_info, emit.
  set (st0 := said _ st).
  destruct (tool_extract_org_repo_run url st0) as (st1 & -> & Hc1 & Hf1).
  rewrite Horg.
  destruct (tool_get_tag_run w url hash st1) as (st2 & -> & Hc2 & Hf2).
  rewrite Hc1. cbn [calls st0 said]. rewrite Htag.
  assert (truthy_str (Some tag) = true) as -> by (destruct tag; [congruence | reflexivity]).
  destruct (tool_get_release_run w org (arg (Some tag)) token st2) as (st3 & -> & Hc3 & Hf3).
  cbn [arg] in *. rewrite Hc2, Hc1. cbn [calls st0 said]. rewrite Hrel.
  unfold lift. rewrite Hch.
  pose proof (release_changes_not_empty _ _ _ Hch) as Hnil.
  destruct changelog as [|line rest]; [congruence|]. cbn [ret].
  unfold Tool.build_message, bind, Tool.logger_info, emit, ret. cbn [fst snd].
  match goal with
  | |- context [for_each urls _ ?s] =>
      destruct (tool_dispatch_prefix w
                  (Root.build_message project releaser hash author (line :: rest)) urls s)
        as (k & Hk & _)
  end.
  exists k. unfold tool_dispatch in Hk.
  match goal with
  | |- context [for_each urls ?f ?s] => destruct (for_each urls f s) as [[e|[]] st5]
  end; cbn [fst snd calls said] in *; rewrite Hk; cbn [calls said];
    rewrite Hc3, Hc2, Hc1; cbn [calls st0 said]; rewrite <- !app_assoc; reflexivity.
Qed.
End NotifyPath.

(** * Further properties *)

(** ** The external calls of a run *)

Section Within.
Context (P : call -> Prop).

Lemma within_ret {A} (a : A) : within P (ret a).
Proof. intros st. exists []. cbn. now rewrite app_nil_r. Qed.

Lemma within_raise {A} e : within P (@raise A e).
Proof. intros st. exists []. cbn. now rewrite app_nil_r. Qed.

Lemma within_lift {A} (r : result A) : within P (lift r).
Proof. intros st. exists []. cbn. now rewrite app_nil_r. Qed.

Lemma within_emit o : within P (emit o).
Proof. intros st. exists []. cbn. now rewrite app_nil_r. Qed.

Lemma within_bind {A B} (m : M A) (k : A -> M B) :
  within P m -> (forall a, within P (k a)) -> within P (bind m k).
Proof.
  intros Hm Hk st. unfold bind. destruct (Hm st) as (d1 & H1 & F1).
  destruct (m st) as [[e|a] st1]; cbn [fst snd] in *.
  - now exists d1.
  - destruct (Hk a st1) as (d2 & H2 & F2). exists (d1 ++ d2).
    rewrite H2, H1, app_assoc. split; [reflexivity | now apply Forall_app].
Qed.

Lemma within_try_except {A} (m : M A) handler :
  within P m -> (forall e h, handler e = Some h -> within P h) ->
  within P (try_except m handler).
Proof.
  intros Hm Hh st. unfold try_except. destruct (Hm st) as (d1 & H1 & F1).
  destruct (m st) as [[e|a] st1]; cbn [fst snd] in *; [|now exists d1].
  destruct (handler e) as [h|] eqn:E; [|now exists d1].
  destruct (Hh e h E st1) as (d2 & H2 & F2). exists (d1 ++ d2).
  rewrite H2, H1, app_assoc. split; [reflexivity | now apply Forall_app].
Qed.

Lemma within_for_each {A} (l : list A) body :
  (forall x, In x l -> within P (body x)) -> within P (for_each l body).
Proof.
  induction l as [|x l IH]; intros Hb; cbn [for_each].
  - apply within_ret.
  - apply within_bind; [apply Hb; now left|].
    intros _. apply IH. intros y Hy. apply Hb. now right.
Qed.

Context (w : World).

Lemma within_check_output command :
  P (Subprocess command) -> within P (check_output w command).
Proof.
  intros Hp st. exists [Subprocess command]. unfold check_output.
  destruct (w_subprocess w (calls st) command); cbn; (split; [reflexivity | now constructor]).
Qed.

Lemma within_requests_get url hdrs : P (Get url hdrs) -> within P (requests_get w url hdrs).
Proof.
  intros Hp st. exists [Get url hdrs]. unfold requests_get.
  destruct (w_get w (calls st) url hdrs); cbn; (split; [reflexivity | now constructor]).
Qed.

Lemma within_requests_post url hdrs data :
  P (Post url hdrs data) -> within P (requests_post w url hdrs data).
Proof.
  intros Hp st. exists [Post url hdrs data]. unfold requests_post.
  destruct (w_post w (calls st) url hdrs data); cbn;
    (split; [reflexivity | now constructor]).
Qed.

Lemma within_dump_to_file file v : P (OpenW file) -> within P (dump_to_file w file v).
Proof.
  intros Hp st. exists [OpenW file]. unfold dump_to_file.
  destruct (w_open w (calls st) file); cbn; (split; [reflexivity | now constructor]).
Qed.

Lemma within_raise_for_status r : within P (raise_for_status r).
Proof.
  unfold raise_for_status. destruct (http_error r); [apply within_raise | apply within_ret].
Qed.
End Within.

(** One step through the text of a function; the conditions on the calls
    themselves are left as goals. *)
Ltac within_step :=
  match goal with
  | |- within _ (bind _ _) => apply within_bind; [|intros ?]
  | |- within _ (ret _) => apply within_ret
  | |- within _ (raise _) => apply within_raise
  | |- within _ (lift _) => apply within_lift
  | |- within _ (response_json _) => apply within_lift
  | |- within _ (emit _) => apply within_emit
  | |- within _ (raise_for_status _) => apply within_raise_for_status
  | |- within _ (check_output _ _) => apply within_check_output
  | |- within _ (requests_get _ _ _) => apply within_requests_get
  | |- within _ (requests_post _ _ _ _) => apply within_requests_post
  | |- within _ (dump_to_file _ _ _) => apply within_dump_to_file
  | |- within _ (if ?b then _ else _) => destruct b
  | |- within _ (match ?x with _ => _ end) => destruct x
  end.

Lemma startswith_app p s : startswith p (p +:+ s) = true.
Proof.
  induction p as [|c p IH]; [reflexivity|].
  rewrite append_cons. cbn [startswith]. now rewrite Ascii.eqb_refl, IH.
Qed.

Section CallsOfFunctions.
Context (w : World) (P : call -> Prop).

Lemma within_root_execute command :
  P (Subprocess command) -> within P (Root.execute_shell_command w command).
Proof.
  intros Hp. unfold Root.execute_shell_command. apply within_try_except.
  - repeat within_step. exact Hp.
  - handler_cases. apply within_raise.
Qed.

Lemma within_tool_execute command :
  P (Subprocess command) -> within P (Tool.execute_shell_command w command).
Proof.
  intros Hp. unfold Tool.execute_shell_command, Tool.logger_info, Tool.logger_error.
  within_step; [within_step|]. apply within_try_except.
  - repeat within_step. exact Hp.
  - handler_cases. repeat within_step.
Qed.

Lemma within_root_get_tag url hash :
  P (Subprocess ("git ls-remote " +:+ url)) -> within P (Root.get_tag_for_commit w url hash).
Proof.
  intros Hp. unfold Root.get_tag_for_commit.
  apply within_bind; [now apply within_root_execute | intros ?; apply within_ret].
Qed.

Lemma within_tool_get_tag url hash :
  P (Subprocess ("git ls-remote " +:+ url)) -> within P (Tool.get_tag_for_commit w url hash).
Proof.
  intros Hp. unfold Tool.get_tag_for_commit, Tool.logger_info, Tool.logger_warning.
  within_step; [within_step|].
  apply within_bind; [now apply within_tool_execute | intros ?].
  repeat within_step.
Qed.

Lemma within_root_get_release org tag token :
  P (Get (release_url org tag) (api_headers token)) ->
  within P (Root.get_release_info_by_tag w org tag token).
Proof. intros Hp. unfold Root.get_release_info_by_tag. repeat within_step. exact Hp. Qed.

Lemma within_tool_get_release org tag token :
  P (Get (release_url org tag) (api_headers token)) ->
  within P (Tool.get_release_info_by_tag w org tag token).
Proof.
  intros Hp. unfold Tool.get_release_info_by_tag, Tool.logger_info.
  repeat within_step. exact Hp.
Qed.

Lemma within_root_get_commit url hash token :
  (forall org, P (Get (commit_url org hash) (api_headers token))) ->
  within P (Root.get_commit_info w url hash token).
Proof. intros Hp. unfold Root.get_commit_info. repeat within_step. apply Hp. Qed.

Lemma within_tool_extract url : within P (Tool.extract_org_repo url).
Proof.
  unfold Tool.extract_org_repo, Tool.logger_info, Tool.logger_error. repeat within_step.
Qed.

Lemma within_tool_get_commit url hash token :
  (forall org, P (Get (commit_url org hash) (api_headers token))) ->
  within P (Tool.get_commit_info w url hash token).
Proof.
  intros Hp. unfold Tool.get_commit_info, Tool.logger_info.
  apply within_bind; [apply within_tool_extract | intros ?].
  repeat within_step. apply Hp.
Qed.

Lemma within_root_send url message :
  P (post_of message url) -> within P (Root.send_slack_notification w url message).
Proof. intros Hp. unfold Root.send_slack_notification. repeat within_step. exact Hp. Qed.

Lemma within_tool_send url message :
  P (post_of message url) -> within P (Tool.send_slack_notification w url message).
Proof.
  intros Hp. unfold Tool.send_slack_notification, Tool.logger_info.
  repeat within_step. exact Hp.
Qed.

Lemma within_tool_build_message p r h a changelog :
  within P (Tool.build_message p r h a changelog).
Proof. unfold Tool.build_message, Tool.logger_info. repeat within_step. Qed.
End CallsOfFunctions.

Section CallsOfARun.
Context (w : World) (P : call -> Prop) (url hash token : string) (urls : list string).

Hypothesis listing_ok : P (Subprocess ("git ls-remote " +:+ url)).
Hypothesis release_ok : forall org tag, P (Get (release_url org tag) (api_headers token)).
Hypothesis commit_ok : forall org, P (Get (commit_url org hash) (api_headers token)).

Lemma within_root_notify p r :
  (forall message u, In u urls -> P (post_of message u)) ->
  within P (Root.notify_release w url hash p r token urls).
Proof.
  intros Hpost. unfold Root.notify_release.
  within_step; [within_step|].
  apply within_bind; [now apply within_root_get_tag | intros tag].
  apply within_bind.
  { destruct (truthy_str tag); [|apply within_ret].
    apply within_bind; [now apply within_root_get_release | intros ?; apply within_lift]. }
  intros [changelog author].
  apply within_bind.
  { destruct changelog; [|apply within_ret].
    apply within_bind; [now apply within_root_get_commit | intros ?; apply within_lift]. }
  intros [changelog' author'].
  apply within_for_each. intros u Hu. apply within_root_send. now apply Hpost.
Qed.

Lemma within_tool_notify p r :
  (forall message u, In u urls -> P (post_of message u)) ->
  within P (Tool.notify_release w url hash p r token urls).
Proof.
  intros Hpost. unfold Tool.notify_release, Tool.logger_info.
  within_step; [within_step|].
  apply within_bind; [apply within_tool_extract | intros org].
  apply within_bind; [now apply within_tool_get_tag | intros tag].
  apply within_bind.
  { destruct (truthy_str tag); [|apply within_ret].
    apply within_bind; [now apply within_tool_get_release | intros ?; apply within_lift]. }
  intros [changelog author].
  apply within_bind.
  { destruct changelog; [|apply within_ret].
    apply within_bind; [now apply within_tool_get_commit | intros ?; apply within_lift]. }
  intros [changelog' author'].
  apply within_bind; [apply within_tool_build_message | intros message].
  apply within_bind; [|intros ?; apply within_emit].
  apply within_for_each. intros u Hu. apply within_tool_send. now apply Hpost.
Qed.

Lemma within_root_dump file :
  P (OpenW file) -> within P (Root.dump_release_info w url hash token file).
Proof.
  intros Hopen. unfold Root.dump_release_info.
  within_step; [within_step|].
  apply within_bind; [now apply within_root_get_tag | intros tag].
  apply within_bind.
  { destruct (truthy_str tag); [|apply within_ret]. now apply within_root_get_release. }
  intros release_info.
  apply within_bind.
  { destruct (negb (truthy release_info)); [|apply within_ret].
    apply within_bind; [now apply within_root_get_commit | intros ?; apply within_lift]. }
  intros record. now apply within_dump_to_file.
Qed.

Lemma within_tool_dump file :
  P (OpenW file) -> within P (Tool.dump_release_info w url hash token file).
Proof.
  intros Hopen. unfold Tool.dump_release_info, Tool.logger_info.
  within_step; [within_step|].
  apply within_bind; [apply within_tool_extract | intros org].
  apply within_bind; [now apply within_tool_get_tag | intros tag].
  apply within_bind.
  { destruct (truthy_str tag); [|apply within_ret]. now apply within_tool_get_release. }
  intros release_info.
  apply within_bind.
  { destruct (negb (truthy release_info)); [|apply within_ret].
    apply within_bind; [now apply within_tool_get_commit | intros ?; apply within_lift]. }
  intros record.
  apply within_bind; [now apply within_dump_to_file | intros ?; apply within_emit].
Qed.
End CallsOfARun.

(** The calls of the entry points are those of their pipelines. *)
Lemma root_script_world w args st :
  calls (snd (Root.script w args st)) = calls (snd (Root.main w args st))
  /\ files (snd (Root.script w args st)) = files (snd (Root.main w args st)).
Proof.
  rewrite root_script_run. destruct (Root.main w args st) as [[e|u] st']; cbn [snd].
  - destruct (error_line e); now split.
  - now split.
Qed.

Lemma within_parser_error P {A} message : within P (@parser_error A message).
Proof. unfold parser_error, sys_exit. repeat within_step. Qed.

Lemma truthy_str_given o : truthy_str o = true -> o = Some (arg o) /\ arg o <> EmptyString.
Proof. destruct o as [[|c s]|]; try discriminate. intros _. now split. Qed.

Section CallsOfMain.
Context (w : World) (args : Args).

Local Abbreviation allowed :=
  (run_call (arg (git_repo_url args)) (arg (release_bot_token args))
            (str_split "," (arg (slack_url_release args)))
            (dump_release_info_path args)).

Lemma allowed_listing : allowed (Subprocess ("git ls-remote " +:+ arg (git_repo_url args))).
Proof. reflexivity. Qed.

Lemma allowed_release org tag :
  allowed (Get (release_url org tag) (api_headers (arg (release_bot_token args)))).
Proof. split; [apply startswith_app | reflexivity]. Qed.

Lemma allowed_commit hash org :
  allowed (Get (commit_url org hash) (api_headers (arg (release_bot_token args)))).
Proof. split; [apply startswith_app | reflexivity]. Qed.

Lemma allowed_post message u :
  In u (str_split "," (arg (slack_url_release args))) -> allowed (post_of message u).
Proof. intros Hu. split; [exact Hu|]. split; [reflexivity | now exists message]. Qed.

Lemma within_root_main : within allowed (Root.main w args).
Proof.
  unfold Root.main. apply within_bind.
  { destruct (negb (all_given args)); [apply within_parser_error | apply within_ret]. }
  intros _. apply within_bind.
  { apply within_root_notify;
      auto using allowed_listing, allowed_release, allowed_commit, allowed_post. }
  intros _. destruct (truthy_str (dump_release_info_path args)) eqn:E; [|apply within_ret].
  apply within_root_dump;
    auto using allowed_listing, allowed_release, allowed_commit.
  exact (truthy_str_given _ E).
Qed.

Lemma within_tool_release :
  within allowed (Tool.release w args (str_split "," (arg (slack_url_release args)))).
Proof.
  unfold Tool.release, Tool.logger_info. apply within_bind.
  { apply within_tool_notify;
      auto using allowed_listing, allowed_release, allowed_commit, allowed_post. }
  intros _. apply within_bind; [|intros ?; apply within_emit].
  destruct (truthy_str (dump_release_info_path args)) eqn:E; [|apply within_ret].
  apply within_tool_dump;
    auto using allowed_listing, allowed_release, allowed_commit.
  exact (truthy_str_given _ E).
Qed.

Lemma within_tool_main : within allowed (Tool.main w args).
Proof.
  unfold Tool.main, Tool.logger_info, Tool.logger_error, sys_exit.
  apply within_bind.
  { destruct (negb (all_given args)); [apply within_parser_error | apply within_ret]. }
  intros _. apply within_bind; [apply within_emit | intros _].
  apply within_bind; [|intros ?; apply within_raise].
  apply within_try_except.
  - apply within_bind; [apply within_tool_release | intros ?; apply within_raise].
  - intros e h H. destruct (error_line e); [|discriminate].
    injection H as <-. apply within_emit.
Qed.
End CallsOfMain.

(** X1.  Whatever the world answers and whatever the arguments are, every
    external call of a run of either script is one of four: the command
    [git ls-remote] followed by the repository URL as it was given; a GET
    from [https://api.github.com/repos/...] whose headers carry the token; a
    POST, to one of the pieces of the raw webhook string cut at its commas,
    of a JSON message with the content type as its only header; the opening
    for writing of the file named by [--dump-release-info], which is then
    not empty.  So the token goes to the hosting platform only, and no other
    command is run. *)
Theorem every_external_call_is_expected :
  forall (w : World) (args : Args) (st : state),
    let allowed :=
      run_call (arg (git_repo_url args)) (arg (release_bot_token args))
               (str_split "," (arg (slack_url_release args)))
               (dump_release_info_path args) in
    (exists d, calls (snd (Root.script w args st)) = calls st ++ d /\ Forall allowed d)
    /\ (exists d, calls (snd (Tool.main w args st)) = calls st ++ d /\ Forall allowed d).
Proof.
  intros w args st. cbv zeta. split.
  - rewrite (proj1 (root_script_world w args st)). apply within_root_main.
  - apply within_tool_main.
Qed.

(** ** The files of a run *)

Lemma keeps_files_ret {A} (a : A) : keeps_files (ret a).
Proof. intros st. reflexivity. Qed.

Lemma keeps_files_raise {A} e : keeps_files (@raise A e).
Proof. intros st. reflexivity. Qed.

Lemma keeps_files_lift {A} (r : result A) : keeps_files (lift r).
Proof. intros st. reflexivity. Qed.

Lemma keeps_files_emit o : keeps_files (emit o).
Proof. intros st. reflexivity. Qed.

Lemma keeps_files_bind {A B} (m : M A) (k : A -> M B) :
  keeps_files m -> (forall a, keeps_files (k a)) -> keeps_files (bind m k).
Proof.
  intros Hm Hk st. unfold bind. specialize (Hm st).
  destruct (m st) as [[e|a] st1]; cbn [snd] in *; [assumption|].
  now rewrite Hk.
Qed.

Lemma keeps_files_try_except {A} (m : M A) handler :
  keeps_files m -> (forall e h, handler e = Some h -> keeps_files h) ->
  keeps_files (try_except m handler).
Proof.
  intros Hm Hh st. unfold try_except. specialize (Hm st).
  destruct (m st) as [[e|a] st1]; cbn [snd] in *; [|assumption].
  destruct (handler e) as [h|] eqn:E; [|assumption].
  now rewrite (Hh e h E).
Qed.

Lemma keeps_files_for_each {A} (l : list A) body :
  (forall x, keeps_files (body x)) -> keeps_files (for_each l body).
Proof.
  intros Hb. induction l as [|x l IH]; cbn [for_each].
  - apply keeps_files_ret.
  - apply keeps_files_bind; [apply Hb | intros _; exact IH].
Qed.

Lemma keeps_files_check_output w command : keeps_files (check_output w command).
Proof.
  intros st. unfold check_output. now destruct (w_subprocess w (calls st) command).
Qed.

Lemma keeps_files_requests_get w url hdrs : keeps_files (requests_get w url hdrs).
Proof. intros st. unfold requests_get. now destruct (w_get w (calls st) url hdrs). Qed.

Lemma keeps_files_requests_post w url hdrs data :
  keeps_files (requests_post w url hdrs data).
Proof.
  intros st. unfold requests_post. now destruct (w_post w (calls st) url hdrs data).
Qed.

Lemma keeps_files_raise_for_status r : keeps_files (raise_for_status r).
Proof.
  unfold raise_for_status.
  destruct (http_error r); [apply keeps_files_raise | apply keeps_files_ret].
Qed.

Ltac files_step :=
  match goal with
  | |- keeps_files (bind _ _) => apply keeps_files_bind; [|intros ?]
  | |- keeps_files (ret _) => apply keeps_files_ret
  | |- keeps_files (raise _) => apply keeps_files_raise
  | |- keeps_files (sys_exit _) => apply keeps_files_raise
  | |- keeps_files (lift _) => apply keeps_files_lift
  | |- keeps_files (response_json _) => apply keeps_files_lift
  | |- keeps_files (emit _) => apply keeps_files_emit
  | |- keeps_files (raise_for_status _) => apply keeps_files_raise_for_status
  | |- keeps_files (check_output _ _) => apply keeps_files_check_output
  | |- keeps_files (requests_get _ _ _) => apply keeps_files_requests_get
  | |- keeps_files (requests_post _ _ _ _) => apply keeps_files_requests_post
  | |- keeps_files (for_each _ _) => apply keeps_files_for_each; intros ?
  | |- keeps_files (if ?b then _ else _) => destruct b
  | |- keeps_files (match ?x with _ => _ end) => destruct x
  end.

Section FilesOfFunctions.
Context (w : World).

Lemma keeps_files_root_execute command : keeps_files (Root.execute_shell_command w command).
Proof.
  unfold Root.execute_shell_command. apply keeps_files_try_except.
  - repeat files_step.
  - handler_cases. repeat files_step.
Qed.

Lemma keeps_files_tool_execute command : keeps_files (Tool.execute_shell_command w command).
Proof.
  unfold Tool.execute_shell_command, Tool.logger_info, Tool.logger_error.
  files_step; [files_step|]. apply keeps_files_try_except.
  - repeat files_step.
  - handler_cases. repeat files_step.
Qed.

Lemma keeps_files_root_get_tag url hash : keeps_files (Root.get_tag_for_commit w url hash).
Proof.
  unfold Root.get_tag_for_commit.
  apply keeps_files_bind; [apply keeps_files_root_execute | intros ?; files_step].
Qed.

Lemma keeps_files_tool_get_tag url hash : keeps_files (Tool.get_tag_for_commit w url hash).
Proof.
  unfold Tool.get_tag_for_commit, Tool.logger_info, Tool.logger_warning.
  files_step; [files_step|].
  apply keeps_files_bind; [apply keeps_files_tool_execute | intros ?].
  repeat files_step.
Qed.

Lemma keeps_files_root_get_release org tag token :
  keeps_files (Root.get_release_info_by_tag w org tag token).
Proof. unfold Root.get_release_info_by_tag. repeat files_step. Qed.

Lemma keeps_files_tool_get_release org tag token :
  keeps_files (Tool.get_release_info_by_tag w org tag token).
Proof. unfold Tool.get_release_info_by_tag, Tool.logger_info. repeat files_step. Qed.

Lemma keeps_files_tool_extract url : keeps_files (Tool.extract_org_repo url).
Proof.
  unfold Tool.extract_org_repo, Tool.logger_info, Tool.logger_error. repeat files_step.
Qed.

Lemma keeps_files_root_get_commit url hash token :
  keeps_files (Root.get_commit_info w url hash token).
Proof. unfold Root.get_commit_info. repeat files_step. Qed.

Lemma keeps_files_tool_get_commit url hash token :
  keeps_files (Tool.get_commit_info w url hash token).
Proof.
  unfold Tool.get_commit_info, Tool.logger_info.
  apply keeps_files_bind; [apply keeps_files_tool_extract | intros ?].
  repeat files_step.
Qed.

Lemma keeps_files_root_send url message :
  keeps_files (Root.send_slack_notification w url message).
Proof. unfold Root.send_slack_notification. repeat files_step. Qed.

Lemma keeps_files_tool_send url message :
  keeps_files (Tool.send_slack_notification w url message).
Proof. unfold Tool.send_slack_notification, Tool.logger_info. repeat files_step. Qed.

Lemma keeps_files_root_notify url hash p r token urls :
  keeps_files (Root.notify_release w url hash p r token urls).
Proof.
  unfold Root.notify_release.
  files_step; [files_step|].
  apply keeps_files_bind; [apply keeps_files_root_get_tag | intros tag].
  apply keeps_files_bind.
  { destruct (truthy_str tag); [|files_step].
    apply keeps_files_bind; [apply keeps_files_root_get_release | intros ?; files_step]. }
  intros [changelog author].
  apply keeps_files_bind.
  { destruct changelog; [|files_step].
    apply keeps_files_bind; [apply keeps_files_root_get_commit | intros ?; files_step]. }
  intros [changelog' author'].
  apply keeps_files_for_each. intros u. apply keeps_files_root_send.
Qed.

Lemma keeps_files_tool_notify url hash p r token urls :
  keeps_files (Tool.notify_release w url hash p r token urls).
Proof.
  unfold Tool.notify_release, Tool.logger_info, Tool.build_message.
  files_step; [files_step|].
  apply keeps_files_bind; [apply keeps_files_tool_extract | intros org].
  apply keeps_files_bind; [apply keeps_files_tool_get_tag | intros tag].
  apply keeps_files_bind.
  { destruct (truthy_str tag); [|files_step].
    apply keeps_files_bind; [apply keeps_files_tool_get_release | intros ?; files_step]. }
  intros [changelog author].
  apply keeps_files_bind.
  { destruct changelog; [|files_step].
    apply keeps_files_bind; [apply keeps_files_tool_get_commit | intros ?; files_step]. }
  intros [changelog' author'].
  apply keeps_files_bind; [unfold Tool.logger_info; repeat files_step | intros message].
  apply keeps_files_bind; [|intros ?; files_step].
  apply keeps_files_for_each. intros u. apply keeps_files_tool_send.
Qed.
End FilesOfFunctions.

Lemma writes_once_bind {A B} file (m : M A) (k : A -> M B) :
  keeps_files m -> (forall a, writes_once file (k a)) -> writes_once file (bind m k).
Proof.
  intros Hm Hk st. unfold bind. specialize (Hm st).
  destruct (m st) as [[e|a] st1]; cbn [fst snd] in *; [left; now exists e|].
  destruct (Hk a st1) as [(e & Hr & Hf) | (v & b & Hr & Hf)].
  - left. exists e. rewrite Hr, Hf, Hm. now split.
  - right. exists v, b. rewrite Hr, Hf, Hm. now split.
Qed.

Lemma writes_once_dump_to_file w file v : writes_once file (dump_to_file w file v).
Proof.
  intros st. unfold dump_to_file. destruct (w_open w (calls st) file) as [e|]; cbn.
  - left. exists (OSError e). now split.
  - right. exists v, tt. now split.
Qed.

Lemma writes_once_then_emit file (m : M unit) o :
  writes_once file m -> writes_once file (bind m (fun _ => emit o)).
Proof.
  intros Hm st. unfold bind. specialize (Hm st).
  destruct (m st) as [[e|[]] st1]; cbn [fst snd] in *.
  - destruct Hm as [H | (v & b & Hr & _)]; [now left | discriminate].
  - destruct Hm as [(e & Hr & _) | (v & b & Hr & Hf)]; [discriminate|].
    right. exists v, tt. cbn. now split.
Qed.

Section FilesOfDump.
Context (w : World) (url hash token file : string).

Lemma writes_once_root_dump : writes_once file (Root.dump_release_info w url hash token file).
Proof.
  unfold Root.dump_release_info.
  apply writes_once_bind; [files_step | intros part].
  apply writes_once_bind; [apply keeps_files_root_get_tag | intros tag].
  apply writes_once_bind.
  { destruct (truthy_str tag); [apply keeps_files_root_get_release | files_step]. }
  intros release_info.
  apply writes_once_bind.
  { destruct (negb (truthy release_info)); [|files_step].
    apply keeps_files_bind; [apply keeps_files_root_get_commit | intros ?; files_step]. }
  intros record. apply writes_once_dump_to_file.
Qed.

Lemma writes_once_tool_dump : writes_once file (Tool.dump_release_info w url hash token file).
Proof.
  unfold Tool.dump_release_info, Tool.logger_info.
  apply writes_once_bind; [files_step | intros _].
  apply writes_once_bind; [apply keeps_files_tool_extract | intros org].
  apply writes_once_bind; [apply keeps_files_tool_get_tag | intros tag].
  apply writes_once_bind.
  { destruct (truthy_str tag); [apply keeps_files_tool_get_release | files_step]. }
  intros release_info.
  apply writes_once_bind.
  { destruct (negb (truthy release_info)); [|files_step].
    apply keeps_files_bind; [apply keeps_files_tool_get_commit | intros ?; files_step]. }
  intros record. apply writes_once_then_emit, writes_once_dump_to_file.
Qed.
End FilesOfDump.



(** ** The dump comes after the notification *)

Lemma bind_calls_split {A B} (P1 P2 : call -> Prop) (m : M A) (k : A -> M B) st :
  within P1 m -> (forall a, within P2 (k a)) ->
  exists d1 d2,
    calls (snd (bind m k st)) = calls st ++ d1 ++ d2
    /\ calls (snd (m st)) = calls st ++ d1
    /\ Forall P1 d1 /\ Forall P2 d2
    /\ (d2 <> [] -> exists a, fst (m st) = inr a).
Proof.
  intros Hm Hk. unfold bind. destruct (Hm st) as (d1 & H1 & F1).
  destruct (m st) as [[e|a] st1]; cbn [fst snd] in *.
  - exists d1, []. rewrite app_nil_r. repeat split; try assumption; [constructor | congruence].
  - destruct (Hk a st1) as (d2 & H2 & F2). exists d1, d2.
    rewrite H2, H1, app_assoc. repeat split; try assumption. intros _. now exists a.
Qed.

Lemma not_open_post message u : is_open (post_of message u) = false.
Proof. reflexivity. Qed.

Section Order.
Context (w : World) (args : Args).

Local Abbreviation urls := (str_split "," (arg (slack_url_release args))).
Local Abbreviation quiet_call := (fun c => is_post c = false).
Local Abbreviation closed_call := (fun c => is_open c = false).

Lemma root_notify_then_dump st :
  exists message d1 d2,
    calls (snd (Root.main w args st)) = calls st ++ d1 ++ d2
    /\ Forall closed_call d1 /\ Forall quiet_call d2
    /\ (d2 <> [] -> posts d1 = List.map (post_of message) urls).
Proof.
  unfold Root.main, bind at 1.
  destruct (negb (all_given args)).
  - exists EmptyString, [], []. cbn. rewrite app_nil_r.
    repeat split; try constructor. congruence.
  - cbn [ret].
    set (notify := Root.notify_release w _ _ _ _ _ urls).
    set (dump := fun _ : unit => if truthy_str _ then _ else _).
    destruct (sends_root_notify w (arg (git_repo_url args)) (arg (git_hash args))
                (arg (project_name args)) (arg (released_by args))
                (arg (release_bot_token args)) urls st) as (message & k & Hp & Hk).
    fold notify in Hp, Hk.
    destruct (bind_calls_split closed_call quiet_call notify dump st)
      as (d1 & d2 & Hc & Hn & F1 & F2 & Hok).
    { apply within_root_notify; try reflexivity; intros; reflexivity. }
    { intros []. unfold dump. destruct (truthy_str _); [|apply within_ret].
      apply within_root_dump; try reflexivity; intros; reflexivity. }
    exists message, d1, d2. repeat split; try assumption.
    intros Hne. destruct (Hok Hne) as (a & Ha).
    rewrite Hn, posts_app in Hp. apply app_inv_head in Hp.
    now rewrite Hp, (Hk a Ha), firstn_all.
Qed.

Lemma tool_notify_then_dump st :
  exists message d1 d2,
    calls (snd (Tool.release w args urls st)) = calls st ++ d1 ++ d2
    /\ Forall closed_call d1 /\ Forall quiet_call d2
    /\ (d2 <> [] -> posts d1 = List.map (post_of message) urls).
Proof.
  unfold Tool.release.
  set (notify := Tool.notify_release w _ _ _ _ _ urls).
  set (rest := fun _ : unit => bind _ _).
  destruct (sends_tool_notify w (arg (git_repo_url args)) (arg (git_hash args))
              (arg (project_name args)) (arg (released_by args))
              (arg (release_bot_token args)) urls st) as (message & k & Hp & Hk).
  fold notify in Hp, Hk.
  destruct (bind_calls_split closed_call quiet_call notify rest st)
    as (d1 & d2 & Hc & Hn & F1 & F2 & Hok).
  { apply within_tool_notify; try reflexivity; intros; reflexivity. }
  { intros []. unfold rest, Tool.logger_info.
    apply within_bind; [|intros ?; apply within_emit].
    destruct (truthy_str _); [|apply within_ret].
    apply within_tool_dump; try reflexivity; intros; reflexivity. }
  exists message, d1, d2. repeat split; try assumption.
  intros Hne. destruct (Hok Hne) as (a & Ha).
  rewrite Hn, posts_app in Hp. apply app_inv_head in Hp.
  now rewrite Hp, (Hk a Ha), firstn_all.
Qed.
End Order.

Lemma tool_main_world w args st :
  calls (snd (Tool.main w args st))
  = (if all_given args
     then calls (snd (Tool.release w args (str_split "," (arg (slack_url_release args)))
                                   (said (Log INFO "Starting main process") st)))
     else calls st)
  /\ files (snd (Tool.main w args st))
     = (if all_given args
        then files (snd (Tool.release w args (str_split "," (arg (slack_url_release args)))
                                      (said (Log INFO "Starting main process") st)))
        else files st).
Proof.
  destruct (all_given args) eqn:E.
  - rewrite (tool_main_run w args st E).
    destruct (Tool.release w args _ _) as [[e|u] st']; cbn [snd].
    + destruct (error_line e); now split.
    + now split.
  - rewrite (tool_main_missing w args st E). now split.
Qed.




(** ** The two scripts, side by side *)

Lemma same_view_said o st st' : same_view st st' -> same_view st (said o st').
Proof. intros [Hc Hf]. now split. Qed.

Lemma alike_ret {A} (a : A) : alike (ret a) (ret a).
Proof. intros st st' H. now split. Qed.

Lemma alike_raise {A} e : alike (@raise A e) (raise e).
Proof. intros st st' H. now split. Qed.

Lemma alike_lift {A} (r : result A) : alike (lift r) (lift r).
Proof. intros st st' H. now split. Qed.

Lemma alike_bind {A B} (m m' : M A) (k k' : A -> M B) :
  alike m m' -> (forall a, alike (k a) (k' a)) -> alike (bind m k) (bind m' k').
Proof.
  intros Hm Hk st st' H. unfold bind. destruct (Hm st st' H) as [Hr Hv].
  destruct (m st) as [[e|a] st1], (m' st') as [[e'|a'] st1']; cbn [fst snd] in *;
    try discriminate.
  - injection Hr as <-. now split.
  - injection Hr as <-. now apply Hk.
Qed.

(** A line emitted by the second computation only. *)
Lemma alike_emit_right {A} (m m' : M A) o :
  alike m m' -> alike m (bind (emit o) (fun _ => m')).
Proof.
  intros Hm st st' H. unfold bind, emit. cbn. apply Hm. now apply same_view_said.
Qed.

Lemma alike_then_emit_right (m m' : M unit) o :
  alike m m' -> alike m (bind m' (fun _ => emit o)).
Proof.
  intros Hm st st' H. unfold bind. destruct (Hm st st' H) as [Hr Hv].
  destruct (m' st') as [[e|[]] st1]; cbn [fst snd] in *; [now split|].
  split; [exact Hr | now apply same_view_said].
Qed.

Lemma alike_try_except {A} (m m' : M A) handler handler' :
  alike m m' ->
  (forall e, match handler e, handler' e with
             | Some h, Some h' => alike h h'
             | None, None => True
             | _, _ => False
             end) ->
  alike (try_except m handler) (try_except m' handler').
Proof.
  intros Hm Hh st st' H. unfold try_except. destruct (Hm st st' H) as [Hr Hv].
  destruct (m st) as [[e|a] st1], (m' st') as [[e'|a'] st1']; cbn [fst snd] in *;
    try discriminate.
  - injection Hr as <-. specialize (Hh e).
    destruct (handler e), (handler' e); try contradiction.
    + now apply Hh.
    + now split.
  - now split.
Qed.

Lemma alike_for_each {A} (l : list A) body body' :
  (forall x, alike (body x) (body' x)) -> alike (for_each l body) (for_each l body').
Proof.
  intros Hb. induction l as [|x l IH]; cbn [for_each].
  - apply alike_ret.
  - apply alike_bind; [apply Hb | intros _; exact IH].
Qed.

Section AlikePrimitives.
Context (w : World).

Lemma alike_check_output command : alike (check_output w command) (check_output w command).
Proof.
  intros st st' [Hc Hf]. unfold check_output. rewrite Hc.
  destruct (w_subprocess w (calls st') command); cbn;
    (split; [reflexivity | split; cbn; congruence]).
Qed.

Lemma alike_requests_get url hdrs : alike (requests_get w url hdrs) (requests_get w url hdrs).
Proof.
  intros st st' [Hc Hf]. unfold requests_get. rewrite Hc.
  destruct (w_get w (calls st') url hdrs); cbn;
    (split; [reflexivity | split; cbn; congruence]).
Qed.

Lemma alike_requests_post url hdrs data :
  alike (requests_post w url hdrs data) (requests_post w url hdrs data).
Proof.
  intros st st' [Hc Hf]. unfold requests_post. rewrite Hc.
  destruct (w_post w (calls st') url hdrs data); cbn;
    (split; [reflexivity | split; cbn; congruence]).
Qed.

Lemma alike_dump_to_file file v : alike (dump_to_file w file v) (dump_to_file w file v).
Proof.
  intros st st' [Hc Hf]. unfold dump_to_file. rewrite Hc.
  destruct (w_open w (calls st') file); cbn;
    (split; [reflexivity | split; cbn; congruence]).
Qed.

Lemma alike_raise_for_status r : alike (raise_for_status r) (raise_for_status r).
Proof.
  unfold raise_for_status. destruct (http_error r); [apply alike_raise | apply alike_ret].
Qed.

(** The functions of the two scripts. *)

Lemma alike_execute command :
  alike (Root.execute_shell_command w command) (Tool.execute_shell_command w command).
Proof.
  unfold Root.execute_shell_command, Tool.execute_shell_command, Tool.logger_info,
    Tool.logger_error.
  apply alike_emit_right, alike_try_except.
  - apply alike_bind; [apply alike_check_output | intros ?; apply alike_ret].
  - intros e. destruct e; try exact I. apply alike_emit_right, alike_raise.
Qed.

Lemma alike_get_tag url hash :
  alike (Root.get_tag_for_commit w url hash) (Tool.get_tag_for_commit w url hash).
Proof.
  unfold Root.get_tag_for_commit, Tool.get_tag_for_commit, Tool.logger_info,
    Tool.logger_warning.
  apply alike_emit_right, alike_bind; [apply alike_execute | intros result].
  destruct (scan_lines hash (str_split NL result)); apply alike_emit_right, alike_ret.
Qed.

Lemma alike_get_release org tag token :
  alike (Root.get_release_info_by_tag w org tag token)
        (Tool.get_release_info_by_tag w org tag token).
Proof.
  unfold Root.get_release_info_by_tag, Tool.get_release_info_by_tag, Tool.logger_info.
  apply alike_emit_right, alike_bind; [apply alike_requests_get | intros response].
  apply alike_bind; [apply alike_raise_for_status | intros _].
  apply alike_emit_right, alike_lift.
Qed.

Lemma alike_send url message :
  alike (Root.send_slack_notification w url message)
        (Tool.send_slack_notification w url message).
Proof.
  unfold Root.send_slack_notification, Tool.send_slack_notification, Tool.logger_info.
  apply alike_emit_right, alike_bind; [apply alike_requests_post | intros r].
  apply alike_then_emit_right, alike_raise_for_status.
Qed.

Lemma alike_extract url : alike (lift (Root.extract_org_repo url)) (Tool.extract_org_repo url).
Proof.
  intros st st' H.
  destruct (tool_extract_org_repo_run url st') as (st1 & -> & Hc & Hf).
  cbn. split; [reflexivity|]. destruct H as [Hc' Hf']. split; congruence.
Qed.

Lemma alike_build_message p r h a changelog :
  alike (ret (Root.build_message p r h a changelog)) (Tool.build_message p r h a changelog).
Proof.
  unfold Tool.build_message, Tool.logger_info.
  apply alike_emit_right.
  intros st st' H. cbn. split; [reflexivity | now apply same_view_said].
Qed.

Lemma alike_get_commit url hash token org part :
  Root.extract_org_repo url = inr org ->
  item1 (str_split ":" url) = inr part ->
  str_replace ".git" EmptyString part = org ->
  alike (Root.get_commit_info w url hash token) (Tool.get_commit_info w url hash token).
Proof.
  intros Horg Hpart Heq st st' [Hc Hf].
  pose proof (root_get_commit_run w url hash token st) as Hr.
  pose proof (tool_get_commit_run w url hash token st') as Ht.
  rewrite Hpart in Hr. rewrite Horg in Ht. cbv zeta in Hr. rewrite Heq in Hr.
  destruct Hr as (s1 & -> & Hc1 & Hf1). destruct Ht as (s2 & -> & Hc2 & Hf2).
  cbn [fst snd]. rewrite Hc. split; [reflexivity|]. split; congruence.
Qed.
End AlikePrimitives.

Lemma alike_silent_right {A B} (a : A) (m' : M A) (x : M B) (k' : A -> M B) :
  silent a m' -> alike x (k' a) -> alike x (bind m' k').
Proof.
  intros Hs Hx st st' [Hc Hf]. unfold bind.
  destruct (Hs st') as (st1 & -> & Hc1 & Hf1).
  apply Hx. split; congruence.
Qed.

Lemma alike_failing {A B} (m m' : M A) (k k' : A -> M B) :
  alike m m' -> (forall st a, fst (m st) <> inr a) -> alike (bind m k) (bind m' k').
Proof.
  intros Hm Hf st st' H. unfold bind. destruct (Hm st st' H) as [Hr Hv].
  specialize (Hf st).
  destruct (m st) as [[e|a] st1], (m' st') as [[e'|a'] st1']; cbn [fst snd] in *;
    try discriminate.
  - injection Hr as <-. now split.
  - now destruct (Hf a).
Qed.

Lemma silent_emit o : silent tt (emit o).
Proof. intros st. eexists. split; [reflexivity | now split]. Qed.

Lemma silent_tool_extract url org :
  Root.extract_org_repo url = inr org -> silent org (Tool.extract_org_repo url).
Proof.
  intros H st. destruct (tool_extract_org_repo_run url st) as (st1 & -> & Hc & Hf).
  exists st1. rewrite H. split; [reflexivity|]. split; congruence.
Qed.

Lemma silent_tool_build_message p r h a changelog :
  silent (Root.build_message p r h a changelog) (Tool.build_message p r h a changelog).
Proof.
  intros st. unfold Tool.build_message, Tool.logger_info, bind, emit, ret. cbn.
  eexists. split; [reflexivity | now split].
Qed.

Section AlikeRuns.
Context (w : World) (url hash token : string).

Variables org part : string.
Hypothesis located : Root.extract_org_repo url = inr org.
Hypothesis cut : item1 (str_split ":" url) = inr part.
Hypothesis same : str_replace ".git" EmptyString part = org.

Lemma alike_notify p r urls :
  alike (Root.notify_release w url hash p r token urls)
        (Tool.notify_release w url hash p r token urls).
Proof.
  unfold Root.notify_release, Tool.notify_release, Tool.logger_info.
  apply (alike_silent_right tt); [apply silent_emit|].
  apply (alike_silent_right org); [now apply silent_tool_extract|].
  rewrite located.
  change (alike
    (tag <- Root.get_tag_for_commit w url hash ;;
     found <- (if truthy_str tag
               then release_info <- Root.get_release_info_by_tag w org (arg tag) token ;;
                    lift (release_changes release_info)
               else ret ([], EmptyString)) ;;
     let '(changelog, commit_author) := found in
     found <- match changelog with
              | [] => commit_info <- Root.get_commit_info w url hash token ;;
                      lift (commit_changes commit_info)
              | _ :: _ => ret (changelog, commit_author)
              end ;;
     let '(changelog, commit_author) := found in
     for_each urls
       (fun u => Root.send_slack_notification w u
                   (Root.build_message p r hash commit_author changelog)))
    (tag <- Tool.get_tag_for_commit w url hash ;;
     found <- (if truthy_str tag
               then release_info <- Tool.get_release_info_by_tag w org (arg tag) token ;;
                    lift (release_changes release_info)
               else ret ([], EmptyString)) ;;
     let '(changelog, commit_author) := found in
     found <- match changelog with
              | [] => commit_info <- Tool.get_commit_info w url hash token ;;
                      lift (commit_changes commit_info)
              | _ :: _ => ret (changelog, commit_author)
              end ;;
     let '(changelog, commit_author) := found in
     message <- Tool.build_message p r hash commit_author changelog ;;
     (for_each urls (fun u => Tool.send_slack_notification w u message) ;;;
      Tool.logger_info ("Release notification for project " +:+ p
                        +:+ " completed successfully")))).
  apply alike_bind; [apply alike_get_tag | intros tag].
  apply alike_bind.
  { destruct (truthy_str tag); [|apply alike_ret].
    apply alike_bind; [apply alike_get_release | intros ?; apply alike_lift]. }
  intros [changelog author].
  apply alike_bind.
  { destruct changelog; [|apply alike_ret].
    apply alike_bind; [|intros ?; apply alike_lift].
    exact (alike_get_commit w url hash token org part located cut same). }
  intros [changelog' author'].
  apply (alike_silent_right (Root.build_message p r hash author' changelog'));
    [apply silent_tool_build_message|].
  apply alike_then_emit_right, alike_for_each. intros u. apply alike_send.
Qed.

Lemma alike_dump file :
  alike (Root.dump_release_info w url hash token file)
        (Tool.dump_release_info w url hash token file).
Proof.
  unfold Root.dump_release_info, Tool.dump_release_info, Tool.logger_info.
  apply (alike_silent_right tt); [apply silent_emit|].
  apply (alike_silent_right org); [now apply silent_tool_extract|].
  rewrite cut.
  change (alike
    (let org_repo := str_replace ".git" EmptyString part in
     tag <- Root.get_tag_for_commit w url hash ;;
     release_info <- (if truthy_str tag
                      then Root.get_release_info_by_tag w org_repo (arg tag) token
                      else ret (JObj [])) ;;
     release_info <- (if negb (truthy release_info)
                      then commit_info <- Root.get_commit_info w url hash token ;;
                           lift (commit_record commit_info)
                      else ret release_info) ;;
     dump_to_file w file release_info)
    (tag <- Tool.get_tag_for_commit w url hash ;;
     release_info <- (if truthy_str tag
                      then Tool.get_release_info_by_tag w org (arg tag) token
                      else ret (JObj [])) ;;
     release_info <- (if negb (truthy release_info)
                      then commit_info <- Tool.get_commit_info w url hash token ;;
                           lift (commit_record commit_info)
                      else ret release_info) ;;
     (dump_to_file w file release_info ;;;
      Tool.logger_info ("Release info dumped to " +:+ file)))).
  cbv zeta. rewrite same.
  apply alike_bind; [apply alike_get_tag | intros tag].
  apply alike_bind.
  { destruct (truthy_str tag); [apply alike_get_release | apply alike_ret]. }
  intros release_info.
  apply alike_bind.
  { destruct (negb (truthy release_info)); [|apply alike_ret].
    apply alike_bind; [|intros ?; apply alike_lift].
    exact (alike_get_commit w url hash token org part located cut same). }
  intros record. apply alike_then_emit_right, alike_dump_to_file.
Qed.
End AlikeRuns.

(** A URL the locator rejects ends the notify path at once. *)
Lemma notify_unlocated w url hash p r token urls e :
  Root.extract_org_repo url = inl e ->
  (forall st, Root.notify_release w url hash p r token urls st = (inl e, st))
  /\ (forall st, exists st1,
        Tool.notify_release w url hash p r token urls st = (inl e, st1)
        /\ same_view st st1).
Proof.
  intros E. split.
  - intros st. unfold Root.notify_release, bind, lift. now rewrite E.
  - intros st. unfold Tool.notify_release, bind, Tool.logger_info, emit.
    destruct (tool_extract_org_repo_run url (said (Log INFO
                ("Starting release notification for project " +:+ p)) st))
      as (st1 & -> & Hc & Hf).
    rewrite E. exists st1. split; [reflexivity|]. split; cbn in *; congruence.
Qed.

Section AlikeScripts.
Context (w : World) (args : Args).

Local Abbreviation urls := (str_split "," (arg (slack_url_release args))).

Hypothesis agree : locators_agree (arg (git_repo_url args)).

Lemma alike_main :
  all_given args = true -> alike (Root.main w args) (Tool.release w args urls).
Proof.
  intros Hall. unfold Root.main, Tool.release, Tool.logger_info. rewrite Hall. cbn [negb].
  change (alike
    (Root.notify_release w (arg (git_repo_url args)) (arg (git_hash args))
       (arg (project_name args)) (arg (released_by args)) (arg (release_bot_token args))
       urls ;;;
     (if truthy_str (dump_release_info_path args)
      then Root.dump_release_info w (arg (git_repo_url args)) (arg (git_hash args))
             (arg (release_bot_token args)) (arg (dump_release_info_path args))
      else ret tt))
    (Tool.notify_release w (arg (git_repo_url args)) (arg (git_hash args))
       (arg (project_name args)) (arg (released_by args)) (arg (release_bot_token args))
       urls ;;;
     ((if truthy_str (dump_release_info_path args)
       then Tool.dump_release_info w (arg (git_repo_url args)) (arg (git_hash args))
              (arg (release_bot_token args)) (arg (dump_release_info_path args))
       else ret tt) ;;;
      emit (Log INFO "Main process completed successfully")))).
  destruct (Root.extract_org_repo (arg (git_repo_url args))) as [e|org] eqn:E.
  - destruct (notify_unlocated w (arg (git_repo_url args)) (arg (git_hash args))
                (arg (project_name args)) (arg (released_by args))
                (arg (release_bot_token args)) urls e E) as [Hr Ht].
    apply alike_failing.
    + intros st st' H. rewrite Hr. destruct (Ht st') as (st1 & -> & Hc & Hf).
      cbn. split; [reflexivity|]. destruct H. split; congruence.
    + intros st a. rewrite Hr. discriminate.
  - destruct (agree org E) as (part & Hcut & Hsame).
    apply alike_bind; [exact (alike_notify w _ _ _ org part E Hcut Hsame _ _ _)|].
    intros _. apply alike_then_emit_right.
    destruct (truthy_str (dump_release_info_path args)); [|apply alike_ret].
    exact (alike_dump w _ _ _ org part E Hcut Hsame _).
Qed.

Lemma alike_scripts : alike (Root.script w args) (Tool.main w args).
Proof.
  intros st st' H. rewrite root_script_run.
  destruct (all_given args) eqn:Hall.
  - rewrite (tool_main_run w args st' Hall).
    destruct (alike_main Hall st (said (Log INFO "Starting main process") st')
                (same_view_said _ _ _ H)) as [Hr Hv].
    destruct (Root.main w args st) as [[e|u] st1],
             (Tool.release w args urls _) as [[e'|u'] st1']; cbn [fst snd] in *;
      try discriminate.
    + injection Hr as <-. destruct (error_line e); cbn; (split; [reflexivity|]).
      * destruct Hv. now split.
      * exact Hv.
    + now split.
  - rewrite (root_main_missing w args st Hall), (tool_main_missing w args st' Hall).
    cbn. split; [reflexivity|]. destruct H. now split.
Qed.
End AlikeScripts.

(** The SSH form with a single colon, on one line: the two ways of locating
    the repository agree. *)
Lemma locators_agree_git_ssh host part :
  char_in ":" host = false -> char_in LF host = false ->
  char_in ":" part = false -> char_in LF part = false ->
  locators_agree ("git@" +:+ host +:+ ":" +:+ part).
Proof.
  intros Hch Hlh Hcp Hlp org Horg.
  rewrite (extract_org_repo_git_at host part Hlh Hlp Hcp) in Horg. injection Horg as <-.
  exists part. split; [|reflexivity].
  rewrite <- (append_assoc "git@" host (":" +:+ part)).
  change (":" +:+ part) with (String ":" part).
  rewrite (split_colon_once ("git@" +:+ host) part); [reflexivity | | exact Hcp].
  rewrite char_in_app, Hch. reflexivity.
Qed.

(** X4.  On a repository URL for which the locator and the cut at the first
    colon give the same repository, as on every SSH URL [git@host:part] with
    a single colon, the two scripts are one program but for their log lines:
    started in states with the same calls made and the same files, they end
    with the same exit status, having made the same external calls in the
    same order and left the same files. *)
Theorem scripts_differ_in_log_lines_only :
  (forall (w : World) (args : Args) (st st' : state),
     locators_agree (arg (git_repo_url args)) ->
     calls st = calls st' -> files st = files st' ->
     fst (Root.script w args st) = fst (Tool.main w args st')
     /\ calls (snd (Root.script w args st)) = calls (snd (Tool.main w args st'))
     /\ files (snd (Root.script w args st)) = files (snd (Tool.main w args st')))
  /\ (forall host part,
        char_in ":" host = false -> char_in LF host = false ->
        char_in ":" part = false -> char_in LF part = false ->
        locators_agree ("git@" +:+ host +:+ ":" +:+ part)).
Proof.
  split.
  - intros w args st st' Hagree Hc Hf.
    destruct (alike_scripts w args Hagree st st' (conj Hc Hf)) as (Hr & Hc' & Hf').
    now repeat split.
  - apply locators_agree_git_ssh.
Qed.

Lemma scripts_differ_in_log_lines_only_witness :
  let w := sample_world ("abcdef" +:+ str1 TAB +:+ "refs/tags/v1.0.0")
                        (sample_release "fix bug") sample_commit in
  let args := {| git_repo_url := Some "git@github.com:example/repo.git";
                 git_hash := Some "abcdef"; project_name := Some "ProjectX";
                 released_by := Some "username"; release_bot_token := Some "token123";
                 slack_url_release := Some "https://hooks.slack.com/services/XXX";
                 dump_release_info_path := Some "/tmp/release.json" |} in
  fst (Root.script w args start) = fst (Tool.main w args start)
  /\ calls (snd (Root.script w args start)) = calls (snd (Tool.main w args start))
  /\ files (snd (Root.script w args start)) = files (snd (Tool.main w args start)).
Proof.
  cbv zeta.
  apply (proj1 scripts_differ_in_log_lines_only).
  - apply (proj2 scripts_differ_in_log_lines_only "github.com" "example/repo.git");
      reflexivity.
  - reflexivity.
  - reflexivity.
Defined.

(** X5.  The functions the two scripts share are alike, whatever the world
    answers: running a command, resolving the tag, fetching the release
    record, locating the repository, formatting the message, posting to one
    webhook and posting to a list of them give the same outcome, the same
    external calls and the same files in [tool/slackbot.py] as in
    [slackbot.py]; the logger adds lines and nothing else. *)
Theorem shared_functions_alike :
  forall w : World,
    (forall command,
       alike (Root.execute_shell_command w command) (Tool.execute_shell_command w command))
    /\ (forall url hash,
          alike (Root.get_tag_for_commit w url hash) (Tool.get_tag_for_commit w url hash))
    /\ (forall org tag token,
          alike (Root.get_release_info_by_tag w org tag token)
                (Tool.get_release_info_by_tag w org tag token))
    /\ (forall url, alike (lift (Root.extract_org_repo url)) (Tool.extract_org_repo url))
    /\ (forall p r h a changelog,
          alike (ret (Root.build_message p r h a changelog))
                (Tool.build_message p r h a changelog))
    /\ (forall url message,
          alike (Root.send_slack_notification w url message)
                (Tool.send_slack_notification w url message))
    /\ (forall urls message,
          alike (for_each urls (fun url => Root.send_slack_notification w url message))
                (for_each urls (fun url => Tool.send_slack_notification w url message))).
Proof.
  intros w. split; [|split; [|split; [|split; [|split; [|split]]]]].
  - intros command. apply alike_execute.
  - intros url hash. apply alike_get_tag.
  - intros org tag token. apply alike_get_release.
  - intros url. apply alike_extract.
  - intros p r h a changelog. apply alike_build_message.
  - intros url message. apply alike_send.
  - intros urls message. apply alike_for_each. intros u. apply alike_send.
Qed.

(** ** Failures end the run at once *)

Section RejectedUrl.
Context (w : World) (args : Args) (st : state) (m : string).

Hypothesis given : all_given args = true.
Hypothesis rejected : Root.extract_org_repo (arg (git_repo_url args)) = inl (ValueError m).

Lemma root_script_rejected :
  Root.script w args st = (inl (SystemExit 1), said (Print ("Value Error: " +:+ m)) st).
Proof.
  rewrite root_script_run. unfold Root.main, bind at 1. rewrite given. cbn [negb ret].
  unfold bind at 1.
  rewrite (proj1 (notify_unlocated w _ (arg (git_hash args)) (arg (project_name args))
                    (arg (released_by args)) (arg (release_bot_token args))
                    (str_split "," (arg (slack_url_release args))) _ rejected)).
  reflexivity.
Qed.

Lemma tool_main_rejected :
  exists st1,
    Tool.main w args st
    = (inl (SystemExit 1), said (Log ERROR ("Value Error: " +:+ m)) st1)
    /\ same_view st st1.
Proof.
  rewrite (tool_main_run w args st given). unfold Tool.release, bind at 1.
  destruct (proj2 (notify_unlocated w _ (arg (git_hash args)) (arg (project_name args))
                     (arg (released_by args)) (arg (release_bot_token args))
                     (str_split "," (arg (slack_url_release args))) _ rejected)
              (said (Log INFO "Starting main process") st)) as (st1 & -> & Hc & Hf).
  exists st1. split; [reflexivity | now split].
Qed.
End RejectedUrl.

(** X6.  A repository URL that the locator rejects ends the run before any
    external call: with all required arguments given, either script emits
    the line "Value Error: " followed by the message of the locator (with
    [print] in [slackbot.py], through the logger in [tool/slackbot.py]) and
    exits with status 1, having run no command, sent no request and touched
    no file. *)
Theorem rejected_url_ends_run_before_any_call :
  forall (w : World) (args : Args) (st : state) (m : string),
    all_given args = true ->
    Root.extract_org_repo (arg (git_repo_url args)) = inl (ValueError m) ->
    Root.script w args st = (inl (SystemExit 1), said (Print ("Value Error: " +:+ m)) st)
    /\ fst (Tool.main w args st) = inl (SystemExit 1)
    /\ last (out (snd (Tool.main w args st))) = Some (Log ERROR ("Value Error: " +:+ m))
    /\ calls (snd (Tool.main w args st)) = calls st
    /\ files (snd (Tool.main w args st)) = files st.
Proof.
  intros w args st m Hg Hr. split; [now apply root_script_rejected|].
  destruct (tool_main_rejected w args st m Hg Hr) as (st1 & -> & Hc & Hf).
  cbn. repeat split; try congruence. apply last_snoc.
Qed.

Lemma rejected_url_ends_run_before_any_call_witness :
  let args := {| git_repo_url := Some "ftp://example.com/example/repo.git";
                 git_hash := Some "abcdef"; project_name := Some "ProjectX";
                 released_by := Some "username"; release_bot_token := Some "token123";
                 slack_url_release := Some "https://hooks.slack.com/services/XXX";
                 dump_release_info_path := None |} in
  Root.script unlisted_remote args start
  = (inl (SystemExit 1),
     said (Print ("Value Error: " +:+ "Invalid git repository URL format")) start).
Proof.
  cbv zeta.
  apply (rejected_url_ends_run_before_any_call unlisted_remote _ start
           "Invalid git repository URL format").
  - reflexivity.
  - reflexivity.
Defined.

Section NotifyFailures.
Context (w : World) (url hash project releaser token : string) (urls : list string)
        (st : state) (org : string).

Hypothesis located : Root.extract_org_repo url = inr org.

Local Abbreviation listing := (Subprocess (ls_remote url)).
Local Abbreviation root := (Root.notify_release w url hash project releaser token urls st).
Local Abbreviation tool := (Tool.notify_release w url hash project releaser token urls st).

Lemma notify_unlisted e :
  listed_tag w (calls st) url hash = inl e ->
  fst root = inl e /\ calls (snd root) = calls st ++ [listing]
  /\ fst tool = inl e /\ calls (snd tool) = calls st ++ [listing].
Proof.
  intros Htag. split; [|split].
  - unfold Root.notify_release, bind, lift. rewrite located.
    destruct (root_get_tag_run w url hash st) as (st2 & -> & Hc2 & Hf2).
    now rewrite Htag.
  - unfold Root.notify_release, bind, lift. rewrite located.
    destruct (root_get_tag_run w url hash st) as (st2 & -> & Hc2 & Hf2).
    now rewrite Htag.
  - unfold Tool.notify_release, bind, Tool.logger_info, emit.
    set (st0 := said _ st).
    destruct (tool_extract_org_repo_run url st0) as (st1 & -> & Hc1 & Hf1).
    rewrite located.
    destruct (tool_get_tag_run w url hash st1) as (st2 & -> & Hc2 & Hf2).
    rewrite Hc1. cbn [calls st0 said]. rewrite Htag. cbn [fst snd].
    split; [reflexivity|]. rewrite Hc2, Hc1. reflexivity.
Qed.

(** The tag resolves, and the changelog of the release cannot be had: the
    fetch fails, or the record is not what the script reads. *)
Lemma notify_without_release tag e :
  listed_tag w (calls st) url hash = inr (Some tag) ->
  tag <> EmptyString ->
  match fetched w (calls st ++ [listing]) (release_url org tag) token with
  | inl e' => e' = e
  | inr record => release_changes record = inl e
  end ->
  let expected := calls st ++ [listing; Get (release_url org tag) (api_headers token)] in
  fst root = inl e /\ calls (snd root) = expected
  /\ fst tool = inl e /\ calls (snd tool) = expected.
Proof.
  intros Htag Hne Hrel expected.
  assert (truthy_str (Some tag) = true) as Htrue
    by (destruct tag; [congruence | reflexivity]).
  split; [|split].
  - unfold Root.notify_release, bind, lift. rewrite located.
    destruct (root_get_tag_run w url hash st) as (st2 & -> & Hc2 & Hf2).
    rewrite Htag, Htrue.
    destruct (root_get_release_run w org (arg (Some tag)) token st2) as (st3 & -> & _).
    cbn [arg] in *. rewrite Hc2.
    destruct (fetched w _ _ _) as [e'|record]; [now subst | now rewrite Hrel].
  - unfold Root.notify_release, bind, lift. rewrite located.
    destruct (root_get_tag_run w url hash st) as (st2 & -> & Hc2 & Hf2).
    rewrite Htag, Htrue.
    destruct (root_get_release_run w org (arg (Some tag)) token st2)
      as (st3 & -> & Hc3 & _).
    cbn [arg] in *. rewrite Hc2.
    destruct (fetched w _ _ _) as [e'|record]; [|rewrite Hrel]; cbn [snd];
      rewrite Hc3, Hc2, <- app_assoc; reflexivity.
  - unfold Tool.notify_release, bind, Tool.logger_info, emit.
    set (st0 := said _ st).
    destruct (tool_extract_org_repo_run url st0) as (st1 & -> & Hc1 & Hf1).
    rewrite located.
    destruct (tool_get_tag_run w url hash st1) as (st2 & -> & Hc2 & Hf2).
    rewrite Hc1. cbn [calls st0 said]. rewrite Htag, Htrue.
    destruct (tool_get_release_run w org (arg (Some tag)) token st2)
      as (st3 & -> & Hc3 & _).
    cbn [arg] in *. rewrite Hc2, Hc1. cbn [calls st0 said].
    destruct (fetched w _ _ _) as [e'|record].
    + subst e'. cbn [fst snd]. split; [reflexivity|].
      rewrite Hc3, Hc2, Hc1, <- app_assoc. reflexivity.
    + unfold lift. rewrite Hrel. cbn [fst snd]. split; [reflexivity|].
      rewrite Hc3, Hc2, Hc1, <- app_assoc. reflexivity.
Qed.
End NotifyFailures.

(** X7.  When the listing of the remote fails, the notification ends there
    in both scripts: the error is a [RuntimeError] whose message is
    "Failed to execute command: " followed by the text of the failure, and
    the listing is the only external call, so nothing is fetched from the
    hosting platform and nothing is posted. *)
Theorem failed_listing_ends_notification :
  forall (w : World) (url hash project releaser token : string) (urls : list string)
         (st : state) (org err : string),
    Root.extract_org_repo url = inr org ->
    w_subprocess w (calls st) ("git ls-remote " +:+ url) = inl err ->
    let failure := RuntimeError ("Failed to execute command: " +:+ err) in
    let root := Root.notify_release w url hash project releaser token urls st in
    let tool := Tool.notify_release w url hash project releaser token urls st in
    fst root = inl failure
    /\ calls (snd root) = calls st ++ [Subprocess ("git ls-remote " +:+ url)]
    /\ fst tool = inl failure
    /\ calls (snd tool) = calls st ++ [Subprocess ("git ls-remote " +:+ url)].
Proof.
  intros w url hash project releaser token urls st org err Hloc Herr. cbv zeta.
  apply (notify_unlisted w url hash project releaser token urls st org Hloc).
  unfold listed_tag, ls_remote. now rewrite Herr.
Qed.

Lemma failed_listing_ends_notification_witness :
  fst (Root.notify_release unlisted_remote "git@github.com:example/repo.git" "abcdef"
         "ProjectX" "username" "token123" ["https://hooks.slack.com/services/XXX"] start)
  = inl (RuntimeError ("Failed to execute command: "
                       +:+ "Command 'git ls-remote' returned non-zero exit status 128.")).
Proof.
  apply (failed_listing_ends_notification unlisted_remote
           "git@github.com:example/repo.git" "abcdef" "ProjectX" "username" "token123"
           ["https://hooks.slack.com/services/XXX"] start "example/repo").
  - reflexivity.
  - reflexivity.
Defined.

(** X8.  A tag that resolves commits the run to the release: when the fetch
    of the release record fails (no answer, an HTTP error status, or a body
    that does not decode), both scripts end with that error after the
    listing and the one request; they do not fall back on the commit and
    post nothing. *)
Theorem failed_release_fetch_has_no_fallback :
  forall (w : World) (url hash project releaser token : string) (urls : list string)
         (st : state) (org tag : string) (e : exn),
    Root.extract_org_repo url = inr org ->
    listed_tag w (calls st) url hash = inr (Some tag) ->
    tag <> EmptyString ->
    fetched w (calls st ++ [Subprocess (ls_remote url)]) (release_url org tag) token
    = inl e ->
    let expected :=
      calls st ++ [Subprocess (ls_remote url);
                   Get (release_url org tag) (api_headers token)] in
    let root := Root.notify_release w url hash project releaser token urls st in
    let tool := Tool.notify_release w url hash project releaser token urls st in
    fst root = inl e /\ calls (snd root) = expected
    /\ fst tool = inl e /\ calls (snd tool) = expected.
Proof.
  intros w url hash project releaser token urls st org tag e Hloc Htag Hne Hrel.
  cbv zeta.
  apply (notify_without_release w url hash project releaser token urls st org Hloc tag e
           Htag Hne).
  now rewrite Hrel.
Qed.

Lemma failed_release_fetch_has_no_fallback_witness :
  fst (Root.notify_release no_release_for_tag "git@github.com:example/repo.git" "abcdef"
         "ProjectX" "username" "token123" ["https://hooks.slack.com/services/XXX"] start)
  = inl (RequestException "404 Client Error: Not Found").
Proof.
  apply (failed_release_fetch_has_no_fallback no_release_for_tag
           "git@github.com:example/repo.git" "abcdef" "ProjectX" "username" "token123"
           ["https://hooks.slack.com/services/XXX"] start "example/repo" "v1.0.0").
  - reflexivity.
  - reflexivity.
  - discriminate.
  - reflexivity.
Defined.

(** X9.  A release record whose [body] is [null] (a release published
    without notes) stops the notification: [None] has no [split], so both
    scripts end with the [AttributeError] of that call after the listing and
    the one request, without falling back on the commit and without
    posting. *)
Theorem release_without_notes_stops_notification :
  forall (w : World) (url hash project releaser token : string) (urls : list string)
         (st : state) (org tag : string) (fields : list (string * json)),
    Root.extract_org_repo url = inr org ->
    listed_tag w (calls st) url hash = inr (Some tag) ->
    tag <> EmptyString ->
    fetched w (calls st ++ [Subprocess (ls_remote url)]) (release_url org tag) token
    = inr (JObj fields) ->
    lookup_field "body" fields = Some JNull ->
    let failure := AttributeError "'NoneType' object has no attribute 'split'" in
    let expected :=
      calls st ++ [Subprocess (ls_remote url);
                   Get (release_url org tag) (api_headers token)] in
    let root := Root.notify_release w url hash project releaser token urls st in
    let tool := Tool.notify_release w url hash project releaser token urls st in
    fst root = inl failure /\ calls (snd root) = expected
    /\ fst tool = inl failure /\ calls (snd tool) = expected.
Proof.
  intros w url hash project releaser token urls st org tag fields Hloc Htag Hne Hrel Hbody.
  cbv zeta.
  apply (notify_without_release w url hash project releaser token urls st org Hloc tag _
           Htag Hne).
  rewrite Hrel. unfold release_changes, getitem. now rewrite Hbody.
Qed.

Lemma release_without_notes_stops_notification_witness :
  let record := JObj [("body", JNull); ("author", JObj [("login", JStr "octocat")])] in
  let w := sample_world ("abcdef" +:+ str1 TAB +:+ "refs/tags/v1.0.0") record sample_commit in
  fst (Tool.notify_release w "git@github.com:example/repo.git" "abcdef"
         "ProjectX" "username" "token123" ["https://hooks.slack.com/services/XXX"] start)
  = inl (AttributeError "'NoneType' object has no attribute 'split'").
Proof.
  cbv zeta.
  apply (release_without_notes_stops_notification _
           "git@github.com:example/repo.git" "abcdef" "ProjectX" "username" "token123"
           ["https://hooks.slack.com/services/XXX"] start "example/repo" "v1.0.0"
           [("body", JNull); ("author", JObj [("login", JStr "octocat")])]).
  - reflexivity.
  - reflexivity.
  - discriminate.
  - reflexivity.
  - reflexivity.
Defined.

(** ** The errors of each function and of a run *)

Lemma raising_weaken {A} (P Q : exn -> bool) (m : M A) :
  (forall e, P e = true -> Q e = true) -> raising P m -> raising Q m.
Proof. intros HPQ Hm st e H. apply HPQ, (Hm st e H). Qed.

Lemma raising_ret {A} P (a : A) : raising P (ret a).
Proof. intros st e H. discriminate. Qed.

Lemma raising_emit P o : raising P (emit o).
Proof. intros st e H. discriminate. Qed.

Lemma raising_raise {A} (P : exn -> bool) e : P e = true -> raising P (@raise A e).
Proof. intros He st e' H. cbn in H. now injection H as <-. Qed.

Lemma raising_lift {A} (P : exn -> bool) (r : result A) :
  (forall e, r = inl e -> P e = true) -> raising P (lift r).
Proof. intros Hr st e H. now apply Hr. Qed.

Lemma raising_bind {A B} P (m : M A) (k : A -> M B) :
  raising P m -> (forall a, raising P (k a)) -> raising P (bind m k).
Proof.
  intros Hm Hk st e. unfold bind. specialize (Hm st).
  destruct (m st) as [[e1|a] st1]; cbn in *.
  - intros H. injection H as <-. now apply Hm.
  - apply Hk.
Qed.

Lemma raising_for_each {A} P (l : list A) body :
  (forall x, raising P (body x)) -> raising P (for_each l body).
Proof.
  intros Hb. induction l as [|x l IH]; cbn [for_each].
  - apply raising_ret.
  - apply raising_bind; [apply Hb | intros _; exact IH].
Qed.

(** A handler: what the body raises is of the kind [Q]; a clause that
    catches answers for its own body, and what no clause catches goes on. *)
Lemma raising_try_except {A} (Q P : exn -> bool) (m : M A) handler :
  raising Q m ->
  (forall e, Q e = true ->
     match handler e with
     | Some h => raising P h
     | None => P e = true
     end) ->
  raising P (try_except m handler).
Proof.
  intros Hm Hh st e. unfold try_except. specialize (Hm st).
  destruct (m st) as [[e1|a] st1]; cbn in *; [|discriminate].
  specialize (Hh e1 (Hm e1 eq_refl)).
  destruct (handler e1) as [h|].
  - apply Hh.
  - cbn. intros H. now injection H as <-.
Qed.

Lemma listing_failure_text e :
  is_listing_failure (RuntimeError ("Failed to execute command: " +:+ e)) = true.
Proof. apply startswith_app. Qed.

Lemma getitem_record v key e : getitem v key = inl e -> is_record_failure e = true.
Proof.
  intros H. unfold getitem in H. break_match_in H; try discriminate;
    injection H as <-; reflexivity.
Qed.

Lemma method_split_record v sep e :
  method_split v sep = inl e -> is_record_failure e = true.
Proof. intros H. destruct v; try discriminate; injection H as <-; reflexivity. Qed.

Lemma as_text_record v e : as_text v = inl e -> is_record_failure e = true.
Proof. intros H. destruct v; try discriminate; injection H as <-; reflexivity. Qed.

Ltac record_cases H :=
  repeat match type of H with
         | context [match ?x with _ => _ end] =>
             let E := fresh "E" in
             destruct x eqn:E;
             try (injection H as <-;
                  first [ eapply getitem_record; eassumption
                        | eapply method_split_record; eassumption
                        | eapply as_text_record; eassumption ])
         end; try discriminate.

Lemma commit_message_record v e : commit_message v = inl e -> is_record_failure e = true.
Proof.
  intros H. unfold commit_message in H. record_cases H.
  eapply getitem_record; eassumption.
Qed.

Lemma commit_author_name_record v e :
  commit_author_name v = inl e -> is_record_failure e = true.
Proof.
  intros H. unfold commit_author_name in H. record_cases H.
  eapply getitem_record; eassumption.
Qed.

Lemma release_changes_record v e : release_changes v = inl e -> is_record_failure e = true.
Proof. intros H. unfold release_changes in H. record_cases H. Qed.

Lemma commit_changes_record v e : commit_changes v = inl e -> is_record_failure e = true.
Proof.
  intros H. unfold commit_changes in H.
  repeat match type of H with
         | context [match ?x with _ => _ end] =>
             let E := fresh "E" in
             destruct x eqn:E;
             try (injection H as <-;
                  first [ eapply commit_message_record; eassumption
                        | eapply commit_author_name_record; eassumption
                        | eapply as_text_record; eassumption ])
         end; try discriminate.
Qed.

Lemma commit_record_record v e : commit_record v = inl e -> is_record_failure e = true.
Proof.
  intros H. unfold commit_record in H.
  repeat match type of H with
         | context [match ?x with _ => _ end] =>
             let E := fresh "E" in
             destruct x eqn:E;
             try (injection H as <-;
                  first [ eapply commit_message_record; eassumption
                        | eapply commit_author_name_record; eassumption ])
         end; try discriminate.
Qed.

Lemma urlparse_locator url e : urlparse url = inl e -> is_locator_failure e = true.
Proof.
  intros H. unfold urlparse in H. break_match_in H; try discriminate;
    injection H as <-; reflexivity.
Qed.

Lemma extract_org_repo_locator url e :
  Root.extract_org_repo url = inl e -> is_locator_failure e = true.
Proof.
  intros H. unfold Root.extract_org_repo in H.
  destruct (urlparse url) as [e1|p] eqn:E.
  - injection H as <-. exact (urlparse_locator url e1 E).
  - break_match_in H; try discriminate. injection H as <-. reflexivity.
Qed.

Lemma item1_index {A} (l : list A) e : item1 l = inl e -> is_index_failure e = true.
Proof.
  intros H. destruct l as [|? [|? ?]]; try discriminate; injection H as <-; reflexivity.
Qed.

Lemma decoded_request r e : decoded r = inl e -> is_request_failure e = true.
Proof.
  intros H. unfold decoded in H. destruct (json_body r); [|discriminate].
  injection H as <-. reflexivity.
Qed.

(** The primitives, for any kind that takes in their one error. *)
Section ErrorsOfPrimitives.
Context (w : World) (P : exn -> bool).

Lemma raising_check_output command :
  (forall m, P (CalledProcessError m) = true) -> raising P (check_output w command).
Proof.
  intros HP st e. unfold check_output.
  destruct (w_subprocess w (calls st) command); cbn; [|discriminate].
  intros H. injection H as <-. apply HP.
Qed.

Lemma raising_requests_get url hdrs :
  (forall m, P (RequestException m) = true) -> raising P (requests_get w url hdrs).
Proof.
  intros HP st e. unfold requests_get.
  destruct (w_get w (calls st) url hdrs); cbn; [|discriminate].
  intros H. injection H as <-. apply HP.
Qed.

Lemma raising_requests_post url hdrs data :
  (forall m, P (RequestException m) = true) -> raising P (requests_post w url hdrs data).
Proof.
  intros HP st e. unfold requests_post.
  destruct (w_post w (calls st) url hdrs data); cbn; [|discriminate].
  intros H. injection H as <-. apply HP.
Qed.

Lemma raising_raise_for_status r :
  (forall m, P (RequestException m) = true) -> raising P (raise_for_status r).
Proof.
  intros HP. unfold raise_for_status. destruct (http_error r).
  - apply raising_raise, HP.
  - apply raising_ret.
Qed.

Lemma raising_response_json r :
  (forall m, P (RequestException m) = true) -> raising P (response_json r).
Proof.
  intros HP. apply raising_lift. intros e H. unfold decoded in H.
  destruct (json_body r); [|discriminate]. injection H as <-. apply HP.
Qed.

Lemma raising_dump_to_file file v :
  (forall m, P (OSError m) = true) -> raising P (dump_to_file w file v).
Proof.
  intros HP st e. unfold dump_to_file.
  destruct (w_open w (calls st) file); cbn; [|discriminate].
  intros H. injection H as <-. apply HP.
Qed.

End ErrorsOfPrimitives.

Section ErrorsOfFunctions.
Context (w : World) (P : exn -> bool).

Hypothesis listing : forall e, is_listing_failure e = true -> P e = true.
Hypothesis request : forall e, is_request_failure e = true -> P e = true.

Lemma raising_root_execute command : raising P (Root.execute_shell_command w command).
Proof.
  unfold Root.execute_shell_command.
  apply (raising_try_except (fun e => match e with CalledProcessError _ => true | _ => false end)).
  - apply raising_bind; [apply raising_check_output; reflexivity | intros ?; apply raising_ret].
  - intros e He. destruct e; try discriminate.
    apply raising_raise, listing, listing_failure_text.
Qed.

Lemma raising_tool_execute command : raising P (Tool.execute_shell_command w command).
Proof.
  unfold Tool.execute_shell_command, Tool.logger_info, Tool.logger_error.
  apply raising_bind; [apply raising_emit | intros _].
  apply (raising_try_except (fun e => match e with CalledProcessError _ => true | _ => false end)).
  - apply raising_bind; [apply raising_check_output; reflexivity | intros ?; apply raising_ret].
  - intros e He. destruct e; try discriminate.
    apply raising_bind; [apply raising_emit | intros _].
    apply raising_raise, listing, listing_failure_text.
Qed.

Lemma raising_root_get_tag url hash : raising P (Root.get_tag_for_commit w url hash).
Proof.
  unfold Root.get_tag_for_commit.
  apply raising_bind; [apply raising_root_execute | intros ?; apply raising_ret].
Qed.

Lemma raising_tool_get_tag url hash : raising P (Tool.get_tag_for_commit w url hash).
Proof.
  unfold Tool.get_tag_for_commit, Tool.logger_info, Tool.logger_warning.
  apply raising_bind; [apply raising_emit | intros _].
  apply raising_bind; [apply raising_tool_execute | intros result].
  destruct (scan_lines _ _);
    (apply raising_bind; [apply raising_emit | intros _; apply raising_ret]).
Qed.

Lemma request_text : forall m, P (RequestException m) = true.
Proof. intros m. now apply request. Qed.

Lemma raising_root_get_release org tag token :
  raising P (Root.get_release_info_by_tag w org tag token).
Proof.
  unfold Root.get_release_info_by_tag.
  apply raising_bind; [apply raising_requests_get, request_text | intros r].
  apply raising_bind; [apply raising_raise_for_status, request_text | intros _].
  apply raising_response_json, request_text.
Qed.

Lemma raising_tool_get_release org tag token :
  raising P (Tool.get_release_info_by_tag w org tag token).
Proof.
  unfold Tool.get_release_info_by_tag, Tool.logger_info.
  apply raising_bind; [apply raising_emit | intros _].
  apply raising_bind; [apply raising_requests_get, request_text | intros r].
  apply raising_bind; [apply raising_raise_for_status, request_text | intros _].
  apply raising_bind; [apply raising_emit | intros _].
  apply raising_response_json, request_text.
Qed.

Lemma raising_root_send url message :
  raising P (Root.send_slack_notification w url message).
Proof.
  unfold Root.send_slack_notification.
  apply raising_bind; [apply raising_requests_post, request_text | intros r].
  apply raising_raise_for_status, request_text.
Qed.

Lemma raising_tool_send url message :
  raising P (Tool.send_slack_notification w url message).
Proof.
  unfold Tool.send_slack_notification, Tool.logger_info.
  apply raising_bind; [apply raising_emit | intros _].
  apply raising_bind; [apply raising_requests_post, request_text | intros r].
  apply raising_bind; [apply raising_raise_for_status, request_text | intros _].
  apply raising_emit.
Qed.

Lemma raising_tool_build_message p r h a changelog :
  raising P (Tool.build_message p r h a changelog).
Proof.
  unfold Tool.build_message, Tool.logger_info.
  apply raising_bind; [apply raising_emit | intros _].
  apply raising_bind; [apply raising_emit | intros _]. apply raising_ret.
Qed.

(** The fetch of a commit by [slackbot.py], whose URL is cut at its colons:
    with a second piece there is no [IndexError]. *)
Lemma raising_root_get_commit url hash token part :
  item1 (str_split ":" url) = inr part ->
  raising P (Root.get_commit_info w url hash token).
Proof.
  intros Hpart. unfold Root.get_commit_info. rewrite Hpart.
  apply raising_bind; [apply raising_lift; discriminate | intros p].
  apply raising_bind; [apply raising_requests_get, request_text | intros r].
  apply raising_bind; [apply raising_raise_for_status, request_text | intros _].
  apply raising_response_json, request_text.
Qed.

Hypothesis locator : forall e, is_locator_failure e = true -> P e = true.

Lemma raising_tool_extract url : raising P (Tool.extract_org_repo url).
Proof.
  intros st e H. rewrite tool_extract_org_repo_result in H.
  now apply locator, (extract_org_repo_locator url).
Qed.

Lemma raising_tool_get_commit url hash token :
  raising P (Tool.get_commit_info w url hash token).
Proof.
  unfold Tool.get_commit_info, Tool.logger_info.
  apply raising_bind; [apply raising_tool_extract | intros org].
  apply raising_bind; [apply raising_emit | intros _].
  apply raising_bind; [apply raising_requests_get, request_text | intros r].
  apply raising_bind; [apply raising_raise_for_status, request_text | intros _].
  apply raising_bind; [apply raising_emit | intros _].
  apply raising_response_json, request_text.
Qed.

Hypothesis record : forall e, is_record_failure e = true -> P e = true.

Lemma raising_release_changes v : raising P (lift (release_changes v)).
Proof. apply raising_lift. intros e H. now apply record, (release_changes_record v). Qed.

Lemma raising_commit_changes v : raising P (lift (commit_changes v)).
Proof. apply raising_lift. intros e H. now apply record, (commit_changes_record v). Qed.

Lemma raising_commit_record v : raising P (lift (commit_record v)).
Proof. apply raising_lift. intros e H. now apply record, (commit_record_record v). Qed.

Lemma raising_tool_notify url hash p r token urls :
  raising P (Tool.notify_release w url hash p r token urls).
Proof.
  unfold Tool.notify_release, Tool.logger_info.
  apply raising_bind; [apply raising_emit | intros _].
  apply raising_bind; [apply raising_tool_extract | intros org].
  apply raising_bind; [apply raising_tool_get_tag | intros tag].
  apply raising_bind.
  { destruct (truthy_str tag); [|apply raising_ret].
    apply raising_bind; [apply raising_tool_get_release | intros v].
    apply raising_release_changes. }
  intros [changelog author].
  apply raising_bind.
  { destruct changelog; [|apply raising_ret].
    apply raising_bind; [apply raising_tool_get_commit | intros v].
    apply raising_commit_changes. }
  intros [changelog' author'].
  apply raising_bind; [apply raising_tool_build_message | intros message].
  apply raising_bind; [|intros _; apply raising_emit].
  apply raising_for_each. intros u. apply raising_tool_send.
Qed.

Lemma raising_root_notify url hash p r token urls part :
  item1 (str_split ":" url) = inr part ->
  raising P (Root.notify_release w url hash p r token urls).
Proof.
  intros Hpart. unfold Root.notify_release.
  apply raising_bind.
  { apply raising_lift. intros e H. now apply locator, (extract_org_repo_locator url). }
  intros org.
  apply raising_bind; [apply raising_root_get_tag | intros tag].
  apply raising_bind.
  { destruct (truthy_str tag); [|apply raising_ret].
    apply raising_bind; [apply raising_root_get_release | intros v].
    apply raising_release_changes. }
  intros [changelog author].
  apply raising_bind.
  { destruct changelog; [|apply raising_ret].
    apply raising_bind; [apply (raising_root_get_commit _ _ _ _ Hpart) | intros v].
    apply raising_commit_changes. }
  intros [changelog' author'].
  apply raising_for_each. intros u. apply raising_root_send.
Qed.

Hypothesis file_failure : forall e, is_file_failure e = true -> P e = true.

Lemma raising_tool_dump url hash token file :
  raising P (Tool.dump_release_info w url hash token file).
Proof.
  unfold Tool.dump_release_info, Tool.logger_info.
  apply raising_bind; [apply raising_emit | intros _].
  apply raising_bind; [apply raising_tool_extract | intros org].
  apply raising_bind; [apply raising_tool_get_tag | intros tag].
  apply raising_bind.
  { destruct (truthy_str tag); [apply raising_tool_get_release | apply raising_ret]. }
  intros v.
  apply raising_bind.
  { destruct (negb (truthy v)); [|apply raising_ret].
    apply raising_bind; [apply raising_tool_get_commit | intros c].
    apply raising_commit_record. }
  intros v'.
  apply raising_bind; [|intros _; apply raising_emit].
  apply raising_dump_to_file. intros m. now apply file_failure.
Qed.

Lemma raising_root_dump url hash token file part :
  item1 (str_split ":" url) = inr part ->
  raising P (Root.dump_release_info w url hash token file).
Proof.
  intros Hpart. unfold Root.dump_release_info. rewrite Hpart.
  apply raising_bind; [apply raising_lift; discriminate | intros p].
  apply raising_bind; [apply raising_root_get_tag | intros tag].
  apply raising_bind.
  { destruct (truthy_str tag); [apply raising_root_get_release | apply raising_ret]. }
  intros v.
  apply raising_bind.
  { destruct (negb (truthy v)); [|apply raising_ret].
    apply raising_bind; [apply (raising_root_get_commit _ _ _ _ Hpart) | intros c].
    apply raising_commit_record. }
  intros v'.
  apply raising_dump_to_file. intros m. now apply file_failure.
Qed.
End ErrorsOfFunctions.

(** *** A URL the locator accepts holds a colon *)

Lemma char_in_lstrip_c0 c s : char_in c s = false -> char_in c (lstrip_c0 s) = false.
Proof.
  induction s as [|b s IH]; [reflexivity|]. intros H. cbn [lstrip_c0].
  destruct (code b <=? 32)%N; [|exact H].
  apply IH. cbn in H. now apply orb_false_iff in H as [_ H].
Qed.

Lemma char_in_remove_char c d s :
  char_in c s = false -> char_in c (remove_char d s) = false.
Proof.
  induction s as [|b s IH]; [reflexivity|]. intros H. cbn in H.
  apply orb_false_iff in H as [Hb Hs]. cbn [remove_char].
  destruct (Ascii.eqb b d); [now apply IH|]. cbn. now rewrite Hb, IH.
Qed.

Lemma char_in_substring c s : forall n m,
  char_in c s = false -> char_in c (String.substring n m s) = false.
Proof.
  induction s as [|b s IH]; intros n m H.
  - destruct n, m; reflexivity.
  - cbn in H. apply orb_false_iff in H as [Hb Hs].
    destruct n as [|n]; cbn [String.substring].
    + destruct m as [|m]; [reflexivity|]. cbn. now rewrite Hb, IH.
    + now apply IH.
Qed.

Lemma char_in_cut_at c d s l r :
  cut_at d s = Some (l, r) -> char_in c s = false -> char_in c l = false.
Proof.
  revert l r. induction s as [|b s IH]; intros l r H Hs; [discriminate|].
  cbn in H, Hs. apply orb_false_iff in Hs as [Hb Hs].
  destruct (Ascii.eqb b d).
  - now injection H as <- _.
  - destruct (cut_at d s) as [[l' r']|]; [|discriminate].
    injection H as <- _. cbn. now rewrite Hb, (IH l' r' eq_refl Hs).
Qed.

Lemma char_in_first_line c s : char_in c s = false -> char_in c (first_line s) = false.
Proof.
  intros H. unfold first_line. destruct (cut_at LF s) as [[l r]|] eqn:E; [|exact H].
  exact (char_in_cut_at c LF s l r E H).
Qed.

Lemma urlparse_without_colon url p :
  char_in ":" url = false -> urlparse url = inr p -> scheme p = EmptyString.
Proof.
  intros H. unfold urlparse, split_scheme.
  rewrite (cut_at_absent ":" (remove_char LF (remove_char CR (remove_char TAB (lstrip_c0 url)))))
    by now repeat apply char_in_remove_char; apply char_in_lstrip_c0.
  intros Hp. break_match_in Hp; try discriminate; injection Hp as <-; reflexivity.
Qed.

Lemma located_url_has_colon url org :
  Root.extract_org_repo url = inr org -> char_in ":" url = true.
Proof.
  intros H. destruct (char_in ":" url) eqn:E; [reflexivity|].
  unfold Root.extract_org_repo in H.
  destruct (urlparse url) as [e|p] eqn:Ep; [discriminate|].
  rewrite (urlparse_without_colon url p E Ep) in H.
  change (str_mem EmptyString ["http"; "https"]) with false in H. cbv iota in H.
  unfold match_git_at in H. destruct (startswith "git@" url); [|discriminate].
  rewrite rcut_at_absent in H; [discriminate|].
  now apply char_in_first_line, char_in_substring.
Qed.

Lemma str_in_char c s : char_in c s = true -> str_in (str1 c) s = true.
Proof.
  induction s as [|b s IH]; [discriminate|]. intros H. cbn in H.
  cbn [str_in str1 startswith].
  destruct (Ascii.eqb c b); cbn in *.
  - now destruct s.
  - now rewrite IH.
Qed.

(** So the text after its first colon is there to be taken. *)
Lemma located_url_has_second_piece url org :
  Root.extract_org_repo url = inr org ->
  exists part, item1 (str_split ":" url) = inr part.
Proof.
  intros H. apply located_url_has_colon, str_in_char in H.
  destruct (split_from_in ":" url) as (p & q & qs & Hs); [discriminate | exact H |].
  exists q. unfold str_split. now rewrite Hs.
Qed.

Lemma run_failure_locator dump e : is_locator_failure e = true -> run_failure dump e = true.
Proof. intros H. unfold run_failure. now rewrite H. Qed.

Lemma run_failure_listing dump e : is_listing_failure e = true -> run_failure dump e = true.
Proof. intros H. unfold run_failure. rewrite H. now rewrite orb_true_r. Qed.

Lemma run_failure_request dump e : is_request_failure e = true -> run_failure dump e = true.
Proof. intros H. unfold run_failure. rewrite H. now rewrite orb_true_r. Qed.

Lemma run_failure_record dump e : is_record_failure e = true -> run_failure dump e = true.
Proof. intros H. unfold run_failure. rewrite H. now rewrite orb_true_r. Qed.

Lemma run_failure_file dump e :
  truthy_str dump = true -> is_file_failure e = true -> run_failure dump e = true.
Proof. intros Hd H. unfold run_failure. rewrite Hd, H. now rewrite orb_true_r. Qed.

Lemma raising_root_main w args :
  all_given args = true -> raising (run_failure (dump_release_info_path args)) (Root.main w args).
Proof.
  intros Hg. unfold Root.main. rewrite Hg. cbn [negb].
  set (dump := dump_release_info_path args).
  destruct (Root.extract_org_repo (arg (git_repo_url args))) as [e0|org] eqn:E.
  - intros st e. unfold bind at 1 2, ret at 1.
    rewrite (proj1 (notify_unlocated w _ (arg (git_hash args)) (arg (project_name args))
                      (arg (released_by args)) (arg (release_bot_token args))
                      (str_split "," (arg (slack_url_release args))) _ E)).
    cbn. intros H. injection H as <-.
    now apply run_failure_locator, (extract_org_repo_locator _ _ E).
  - destruct (located_url_has_second_piece _ _ E) as (part & Hpart).
    apply raising_bind; [apply raising_ret | intros _].
    apply raising_bind.
    + apply (raising_root_notify w _ (run_failure_listing dump) (run_failure_request dump)
               (run_failure_locator dump) (run_failure_record dump) _ _ _ _ _ _ _ Hpart).
    + intros _. destruct (truthy_str dump) eqn:Hd; [|apply raising_ret].
      apply (raising_root_dump w _ (run_failure_listing dump) (run_failure_request dump)
               (run_failure_record dump) (fun e => run_failure_file dump e Hd) _ _ _ _ _ Hpart).
Qed.

Lemma raising_tool_release w args urls :
  raising (run_failure (dump_release_info_path args)) (Tool.release w args urls).
Proof.
  unfold Tool.release, Tool.logger_info.
  set (dump := dump_release_info_path args).
  apply raising_bind.
  - apply (raising_tool_notify w _ (run_failure_listing dump) (run_failure_request dump)
             (run_failure_locator dump) (run_failure_record dump)).
  - intros _. apply raising_bind; [|intros _; apply raising_emit].
    destruct (truthy_str dump) eqn:Hd; [|apply raising_ret].
    apply (raising_tool_dump w _ (run_failure_listing dump) (run_failure_request dump)
             (run_failure_locator dump) (run_failure_record dump) (fun e => run_failure_file dump e Hd)).
Qed.


(** X11.  With every required argument given, whatever fails under the
    top-level handler of either script is an error of the locator, of the
    listing, of a request or of the reading of a record, or, when a dump is
    asked for, of the dump file.  In particular the second piece of the URL
    cut at its colons, which [slackbot.py] takes without a check, is never
    missing in a run: the locator has accepted the URL before, and a URL it
    accepts holds a colon. *)
Theorem run_errors_are_of_the_expected_kinds :
  forall (w : World) (args : Args) (st : state) (e : exn),
    all_given args = true ->
    fst (Root.main w args st) = inl e
    \/ fst (Tool.release w args (str_split "," (arg (slack_url_release args))) st) = inl e ->
    run_failure (dump_release_info_path args) e = true
    /\ is_index_failure e = false.
Proof.
  intros w args st e Hg H.
  assert (run_failure (dump_release_info_path args) e = true) as Hr.
  { destruct H as [H|H].
    - exact (raising_root_main w args Hg st e H).
    - exact (raising_tool_release w args _ st e H). }
  split; [exact Hr|]. destruct e; try reflexivity.
  unfold run_failure in Hr. cbn in Hr. now destruct (truthy_str _).
Qed.

Lemma run_errors_are_of_the_expected_kinds_witness :
  let args := sample_args "https://hooks.slack.com/services/XXX" None in
  let failure := RuntimeError ("Failed to execute command: "
                   +:+ "Command 'git ls-remote' returned non-zero exit status 128.") in
  fst (Root.main unlisted_remote args start) = inl failure
  /\ run_failure None failure = true.
Proof.
  cbv zeta. split; [reflexivity|].
  apply (run_errors_are_of_the_expected_kinds unlisted_remote
           (sample_args "https://hooks.slack.com/services/XXX" None) start).
  - reflexivity.
  - left. reflexivity.
Defined.

(** ** The tag resolver on the lines of a listing *)

Lemma split_from_absent sep s : str_in sep s = false -> split_from sep 0 s = (s, []).
Proof.
  induction s as [|c s IH]; [reflexivity|]. intros H. cbn [str_in] in H.
  apply orb_false_iff in H as [Hs Hrest]. cbn [split_from]. rewrite Hs.
  now rewrite (IH Hrest).
Qed.

Lemma split_from_skip sep skipped rest :
  split_from sep (String.length skipped) (skipped +:+ rest) = split_from sep 0 rest.
Proof.
  induction skipped as [|c s IH]; [now rewrite append_empty_l|].
  rewrite append_cons. cbn [String.length split_from]. exact IH.
Qed.

(** The first piece ends at the first separator when nothing before it
    starts one. *)
Lemma split_from_first c sep pre rest :
  char_in c pre = false ->
  split_from (String c sep) 0 (pre +:+ String c sep +:+ rest)
  = (pre, fst (split_from (String c sep) 0 rest) :: snd (split_from (String c sep) 0 rest)).
Proof.
  intros Hpre. induction pre as [|b pre IH].
  - rewrite append_empty_l, append_cons. cbn [split_from].
    rewrite <- append_cons, startswith_app.
    cbn [String.length Nat.sub]. rewrite Nat.sub_0_r, split_from_skip.
    now destruct (split_from (String c sep) 0 rest).
  - cbn in Hpre. apply orb_false_iff in Hpre as [Hb Hpre].
    rewrite append_cons. cbn [split_from startswith].
    rewrite Hb. cbn [andb]. now rewrite (IH Hpre).
Qed.

Lemma str_in_app_right sep pre rest : str_in sep (pre +:+ sep +:+ rest) = true.
Proof.
  induction pre as [|b pre IH].
  - rewrite append_empty_l. destruct sep; [rewrite append_empty_l; now destruct rest|].
    rewrite append_cons. cbn [str_in]. rewrite <- append_cons. now rewrite startswith_app.
  - rewrite append_cons. cbn [str_in]. rewrite IH. apply orb_true_r.
Qed.

(** A character that the separator does not hold cannot complete it. *)
Lemma startswith_before c p : forall a b,
  char_in c p = false -> startswith p (a +:+ String c b) = startswith p a.
Proof.
  induction p as [|x p IH]; intros a b Hp; [reflexivity|].
  cbn in Hp. apply orb_false_iff in Hp as [Hx Hp].
  destruct a as [|y a].
  - rewrite append_empty_l. cbn. rewrite Ascii.eqb_sym, Hx. reflexivity.
  - rewrite append_cons. cbn [startswith]. now rewrite IH.
Qed.

Lemma str_in_before c p a b :
  char_in c p = false ->
  str_in p (a +:+ String c b) = str_in p a || str_in p (String c b).
Proof.
  intros Hp. induction a as [|y a IH].
  - rewrite append_empty_l. destruct p; [reflexivity|]. reflexivity.
  - rewrite append_cons. cbn [str_in]. rewrite <- append_cons, (startswith_before c p _ b Hp).
    rewrite IH. now rewrite orb_assoc.
Qed.

Lemma peel_removed tag peel :
  char_in "^" tag = false -> peel = EmptyString \/ peel = "^{}" ->
  str_replace "^{}" EmptyString (tag +:+ peel) = tag.
Proof.
  intros Htag Hpeel. unfold str_replace. induction tag as [|c tag IH].
  - rewrite append_empty_l. now destruct Hpeel as [-> | ->].
  - cbn [char_in] in Htag. apply orb_false_iff in Htag as [Hc Htag].
    rewrite append_cons. cbn [replace_from startswith]. rewrite Hc. cbn [andb].
    now rewrite (IH Htag).
Qed.

Lemma marker_not_in_name tag peel :
  str_in "refs/tags/" tag = false -> peel = EmptyString \/ peel = "^{}" ->
  str_in "refs/tags/" (tag +:+ peel) = false.
Proof.
  intros Htag [-> | ->]; [now rewrite append_empty_r|].
  change "^{}" with (String "^" "{}").
  rewrite (str_in_before "^" "refs/tags/" tag "{}" eq_refl), Htag. reflexivity.
Qed.

Lemma scan_lines_found commit_hash lines tag :
  scan_lines commit_hash lines = Some tag ->
  Exists (fun line => str_in commit_hash line && str_in "refs/tags/" line = true) lines.
Proof.
  induction lines as [|line rest IH]; [discriminate|]. cbn [scan_lines].
  destruct (str_in commit_hash line && str_in "refs/tags/" line) eqn:E.
  - intros _. now left.
  - intros H. right. now apply IH.
Qed.

Lemma scan_lines_none_iff commit_hash lines :
  scan_lines commit_hash lines = None
  <-> Forall (fun line => str_in commit_hash line && str_in "refs/tags/" line = false) lines.
Proof.
  split; [|apply scan_lines_none].
  induction lines as [|line rest IH]; [constructor|]. cbn [scan_lines].
  destruct (str_in commit_hash line && str_in "refs/tags/" line) eqn:E.
  - apply andb_true_iff in E as [_ Hm].
    destruct (split_from_in "refs/tags/" line) as (p & q & qs & Hs);
      [discriminate | exact Hm |].
    unfold str_split. rewrite Hs. discriminate.
  - intros H. constructor; [exact E | now apply IH].
Qed.

Lemma scan_lines_tag_line commit_hash before sha tag peel rest :
  Forall (fun l => str_in commit_hash l && str_in "refs/tags/" l = false) before ->
  char_in "r" sha = false ->
  char_in "^" tag = false ->
  str_in "refs/tags/" tag = false ->
  peel = EmptyString \/ peel = "^{}" ->
  str_in commit_hash (sha +:+ str1 TAB +:+ "refs/tags/" +:+ tag +:+ peel) = true ->
  scan_lines commit_hash
    (before ++ (sha +:+ str1 TAB +:+ "refs/tags/" +:+ tag +:+ peel) :: rest)
  = Some tag.
Proof.
  intros Hbefore Hsha Hcaret Htag Hpeel Hhash.
  set (line := sha +:+ str1 TAB +:+ "refs/tags/" +:+ tag +:+ peel) in *.
  assert (line = (sha +:+ str1 TAB) +:+ "refs/tags/" +:+ (tag +:+ peel)) as Hline
    by (unfold line; now rewrite append_assoc).
  assert (str_in "refs/tags/" line = true) as Hmark
    by (rewrite Hline; apply str_in_app_right).
  destruct (scan_lines_first commit_hash before line rest Hbefore Hhash Hmark)
    as (p & part1 & others & Hsplit & ->).
  f_equal. revert Hsplit. unfold str_split. rewrite Hline.
  change "refs/tags/" with (String "r" "efs/tags/").
  rewrite split_from_first
    by (rewrite char_in_app, Hsha; reflexivity).
  change (String "r" "efs/tags/") with "refs/tags/".
  rewrite (split_from_absent _ _ (marker_not_in_name tag peel Htag Hpeel)).
  cbn [fst snd]. intros H. injection H as _ <- _.
  now apply peel_removed.
Qed.

(** X12.  The tag resolver of either script answers [None] exactly when the
    listing succeeds and no line of the stripped output holds both the
    commit hash and the marker [refs/tags/]: a line that holds both always
    gives a tag (the marker cuts it into at least two pieces), and a failed
    listing is an error, not [None]. *)
Theorem no_tag_iff_no_line_holds_hash_and_marker :
  forall (w : World) (url hash : string) (st : state),
    let unmarked text :=
      Forall (fun line => str_in hash line && str_in "refs/tags/" line = false)
             (str_split NL (str_strip text)) in
    (fst (Root.get_tag_for_commit w url hash st) = inr None
     <-> exists text,
           w_subprocess w (calls st) ("git ls-remote " +:+ url) = inr text /\ unmarked text)
    /\ (fst (Tool.get_tag_for_commit w url hash st) = inr None
        <-> exists text,
              w_subprocess w (calls st) ("git ls-remote " +:+ url) = inr text
              /\ unmarked text).
Proof.
  intros w url hash st. cbv zeta.
  assert (listed_tag w (calls st) url hash = inr None
          <-> exists text,
                w_subprocess w (calls st) ("git ls-remote " +:+ url) = inr text
                /\ Forall (fun line => str_in hash line && str_in "refs/tags/" line = false)
                          (str_split NL (str_strip text))) as Hiff.
  { unfold listed_tag, ls_remote.
    destruct (w_subprocess w (calls st) ("git ls-remote " +:+ url)) as [err|text].
    - split; [discriminate | intros (text & H & _); discriminate].
    - split.
      + intros H. exists text. split; [reflexivity|].
        apply scan_lines_none_iff. congruence.
      + intros (text' & H & Hf). injection H as <-.
        apply scan_lines_none_iff in Hf. now rewrite Hf. }
  split.
  - destruct (root_get_tag_run w url hash st) as (st' & -> & _). exact Hiff.
  - destruct (tool_get_tag_run w url hash st) as (st' & -> & _). exact Hiff.
Qed.

(** X13.  On a listing whose first line with the hash and the marker has
    the form of a line of [git ls-remote], an object name, a tab,
    [refs/tags/] and a tag name, the tag resolver of either script answers
    that tag name; and it answers the same when the line is the peeled one,
    with [^{}] after the name.  The object name is taken to hold no [r] (it
    is hexadecimal) and the tag name no caret and no second marker.  The
    hash is looked for in the whole line, so it need not be the whole
    object name, and even a hash that occurs in the tag name only makes
    the line match. *)
Theorem tag_resolver_reads_the_tag_of_a_line :
  forall (w : World) (url hash : string) (st : state)
         (text : string) (before : list string) (sha tag peel : string) (rest : list string),
    w_subprocess w (calls st) ("git ls-remote " +:+ url) = inr text ->
    str_split NL (str_strip text)
    = before ++ (sha +:+ str1 TAB +:+ "refs/tags/" +:+ tag +:+ peel) :: rest ->
    Forall (fun l => str_in hash l && str_in "refs/tags/" l = false) before ->
    char_in "r" sha = false ->
    char_in "^" tag = false ->
    str_in "refs/tags/" tag = false ->
    peel = EmptyString \/ peel = "^{}" ->
    str_in hash (sha +:+ str1 TAB +:+ "refs/tags/" +:+ tag +:+ peel) = true ->
    fst (Root.get_tag_for_commit w url hash st) = inr (Some tag)
    /\ fst (Tool.get_tag_for_commit w url hash st) = inr (Some tag).
Proof.
  intros w url hash st text before sha tag peel rest Hout Hlines Hbefore Hsha Hcaret Htag
    Hpeel Hhash.
  assert (listed_tag w (calls st) url hash = inr (Some tag)) as Hl.
  { unfold listed_tag, ls_remote. rewrite Hout, Hlines. f_equal.
    now apply scan_lines_tag_line. }
  split.
  - destruct (root_get_tag_run w url hash st) as (st' & -> & _). exact Hl.
  - destruct (tool_get_tag_run w url hash st) as (st' & -> & _). exact Hl.
Qed.

Lemma tag_resolver_reads_the_tag_of_a_line_witness :
  let w := sample_world annotated_listing (sample_release "notes") sample_commit in
  fst (Root.get_tag_for_commit w "git@github.com:example/repo.git" "abcdef" start)
  = inr (Some "v1.0.0")
  /\ fst (Tool.get_tag_for_commit w "git@github.com:example/repo.git" "abcdef" start)
     = inr (Some "v1.0.0").
Proof.
  cbv zeta.
  apply (tag_resolver_reads_the_tag_of_a_line _ "git@github.com:example/repo.git" "abcdef"
           start annotated_listing
           ["1111aaaa" +:+ str1 TAB +:+ "refs/heads/main";
            "2222bbbb" +:+ str1 TAB +:+ "refs/tags/v1.0.0"]
           "abcdef01" "v1.0.0" "^{}" []).
  - reflexivity.
  - reflexivity.
  - repeat constructor.
  - reflexivity.
  - reflexivity.
  - reflexivity.
  - right. reflexivity.
  - reflexivity.
Defined.

(** ** The two ways a notification goes through *)

Section Accepted.
Context (w : World) (message : string).

Lemma root_dispatch_accepted urls : forall st,
  (forall history u, In u urls -> delivery w history u (payload message) = None) ->
  let run := for_each urls (fun url => Root.send_slack_notification w url message) st in
  fst run = inr tt
  /\ calls (snd run) = calls st ++ List.map (post_of message) urls
  /\ files (snd run) = files st.
Proof.
  induction urls as [|u rest IH]; intros st Hall; cbv zeta.
  - cbn. now rewrite app_nil_r.
  - cbn [for_each]. unfold bind. rewrite root_send_run.
    rewrite (Hall (calls st) u (or_introl eq_refl)).
    destruct (IH (called (post_of message u) st)) as (Hr & Hc & Hf).
    { intros history u' Hin. apply Hall. now right. }
    cbv zeta in Hr, Hc, Hf. rewrite Hr, Hc, Hf. cbn. now rewrite <- app_assoc.
Qed.

Lemma tool_dispatch_accepted urls st :
  (forall history u, In u urls -> delivery w history u (payload message) = None) ->
  fst (tool_dispatch w message urls st) = inr tt
  /\ calls (snd (tool_dispatch w message urls st)) = calls st ++ List.map (post_of message) urls
  /\ files (snd (tool_dispatch w message urls st)) = files st.
Proof.
  intros Hall. apply tool_dispatch_all. intros k url Hk. apply Hall.
  apply list_elem_of_In. now apply (list_elem_of_lookup_2 urls k).
Qed.
End Accepted.

Lemma match_not_empty {A B} (l : list A) (x y : B) :
  l <> [] -> match l with [] => x | _ :: _ => y end = y.
Proof. destruct l; [congruence | reflexivity]. Qed.

Section NotifyGoesThrough.
Context (w : World) (url hash project releaser token : string) (urls : list string)
        (st : state) (org : string) (changelog : list string) (author : string).

Local Abbreviation listing := (Subprocess (ls_remote url)).
Local Abbreviation message := (Root.build_message project releaser hash author changelog).
Local Abbreviation root := (Root.notify_release w url hash project releaser token urls st).
Local Abbreviation tool := (Tool.notify_release w url hash project releaser token urls st).

Hypothesis located : Root.extract_org_repo url = inr org.
Hypothesis accepted :
  forall history u, In u urls -> delivery w history u (payload message) = None.

Lemma tool_message_dispatched st3 :
  let run :=
    (built <- Tool.build_message project releaser hash author changelog ;;
     for_each urls (fun u => Tool.send_slack_notification w u built) ;;;
     Tool.logger_info ("Release notification for project " +:+ project
                       +:+ " completed successfully")) st3 in
  fst run = inr tt
  /\ calls (snd run) = calls st3 ++ List.map (post_of message) urls
  /\ files (snd run) = files st3.
Proof.
  cbv zeta. unfold Tool.build_message, Tool.logger_info, bind, emit, ret. cbn [fst snd].
  set (st4 := said _ (said _ st3)).
  destruct (tool_dispatch_accepted w message urls st4 accepted) as (Hr & Hc & Hf).
  unfold tool_dispatch in Hr, Hc, Hf.
  destruct (for_each urls _ st4) as [[e|[]] st5]; cbn [fst snd] in *; [discriminate|].
  cbn. now rewrite Hc, Hf.
Qed.

(** The tag resolves and the release record gives the changelog. *)
Lemma notify_of_release tag record :
  listed_tag w (calls st) url hash = inr (Some tag) ->
  tag <> EmptyString ->
  fetched w (calls st ++ [listing]) (release_url org tag) token = inr record ->
  release_changes record = inr (changelog, author) ->
  let expected :=
    calls st ++ [listing; Get (release_url org tag) (api_headers token)]
    ++ List.map (post_of message) urls in
  (fst root = inr tt /\ calls (snd root) = expected /\ files (snd root) = files st)
  /\ (fst tool = inr tt /\ calls (snd tool) = expected /\ files (snd tool) = files st).
Proof.
  intros Htag Hne Hrel Hch expected.
  assert (truthy_str (Some tag) = true) as Htrue
    by (destruct tag; [congruence | reflexivity]).
  pose proof (release_changes_not_empty _ _ _ Hch) as Hnil.
  split.
  - unfold Root.notify_release, bind, lift. rewrite located.
    destruct (root_get_tag_run w url hash st) as (st2 & -> & Hc2 & Hf2).
    rewrite Htag, Htrue.
    destruct (root_get_release_run w org (arg (Some tag)) token st2)
      as (st3 & -> & Hc3 & Hf3).
    cbn [arg] in *. rewrite Hc2, Hrel, Hch.
    destruct changelog as [|line rest] eqn:El; [congruence|]. cbn [ret].
    destruct (root_dispatch_accepted w _ urls st3 accepted) as (Hr & Hc & Hf).
    cbv zeta in Hr, Hc, Hf. rewrite Hr, Hc, Hf, Hc3, Hf3, Hc2, Hf2.
    unfold expected. now rewrite <- !app_assoc.
  - assert (exists st3,
              tool
              = (built <- Tool.build_message project releaser hash author changelog ;;
                 for_each urls (fun u => Tool.send_slack_notification w u built) ;;;
                 Tool.logger_info ("Release notification for project " +:+ project
                                   +:+ " completed successfully")) st3
              /\ calls st3
                 = calls st ++ [listing; Get (release_url org tag) (api_headers token)]
              /\ files st3 = files st) as (st3 & -> & Hc3 & Hf3).
    { unfold Tool.notify_release. unfold bind at 1 2 3 4. unfold Tool.logger_info at 1.
      unfold emit at 1. set (st0 := said _ st).
      destruct (tool_extract_org_repo_run url st0) as (st1 & -> & Hc1 & Hf1).
      rewrite located.
      destruct (tool_get_tag_run w url hash st1) as (st2 & -> & Hc2 & Hf2).
      rewrite Hc1. cbn [calls st0 said]. rewrite Htag, Htrue.
      unfold bind at 1.
      destruct (tool_get_release_run w org (arg (Some tag)) token st2)
        as (st3 & -> & Hc3 & Hf3).
      cbn [arg] in *. rewrite Hc2, Hc1. cbn [calls st0 said]. rewrite Hrel.
      unfold lift. rewrite Hch, (match_not_empty changelog _ _ Hnil).
      unfold bind at 1. unfold ret at 1.
      exists st3. split; [reflexivity|].
      rewrite Hc3, Hf3, Hc2, Hf2, Hc1, Hf1. cbn [calls files st0 said].
      now rewrite <- app_assoc. }
    destruct (tool_message_dispatched st3) as (Hr & Hc & Hf). cbv zeta in Hr, Hc, Hf.
    rewrite Hr, Hc, Hf, Hc3, Hf3. unfold expected. now rewrite <- !app_assoc.
Qed.
End NotifyGoesThrough.

Section CommitGoesThrough.
Context (w : World) (url hash project releaser token : string) (urls : list string)
        (st : state) (org : string) (text name : string).

Local Abbreviation listing := (Subprocess (ls_remote url)).
Local Abbreviation message := (Root.build_message project releaser hash name [text]).
Local Abbreviation root := (Root.notify_release w url hash project releaser token urls st).
Local Abbreviation tool := (Tool.notify_release w url hash project releaser token urls st).

Hypothesis located : Root.extract_org_repo url = inr org.
Hypothesis accepted :
  forall history u, In u urls -> delivery w history u (payload message) = None.

(** No tag: the commit gives the one line of the changelog. *)
Lemma notify_of_commit tag commit_info :
  locators_agree url ->
  listed_tag w (calls st) url hash = inr tag ->
  truthy_str tag = false ->
  fetched w (calls st ++ [listing]) (commit_url org hash) token = inr commit_info ->
  commit_message commit_info = inr (JStr text) ->
  commit_author_name commit_info = inr (JStr name) ->
  let expected :=
    calls st ++ [listing; Get (commit_url org hash) (api_headers token)]
    ++ List.map (post_of message) urls in
  (fst root = inr tt /\ calls (snd root) = expected /\ files (snd root) = files st)
  /\ (fst tool = inr tt /\ calls (snd tool) = expected /\ files (snd tool) = files st).
Proof.
  intros Hagree Htag Hno Hcommit Hm Hn expected.
  destruct (Hagree org located) as (part & Hpart & Hsame).
  split.
  - unfold Root.notify_release, bind, lift. rewrite located.
    destruct (root_get_tag_run w url hash st) as (st2 & -> & Hc2 & Hf2).
    rewrite Htag, Hno. cbn [ret].
    pose proof (root_get_commit_run w url hash token st2) as Hg. rewrite Hpart in Hg.
    cbv zeta in Hg. rewrite Hsame in Hg. destruct Hg as (st3 & -> & Hc3 & Hf3).
    rewrite Hc2, Hcommit, (commit_changes_text _ _ _ Hm Hn).
    destruct (root_dispatch_accepted w _ urls st3 accepted) as (Hr & Hc & Hf).
    cbv zeta in Hr, Hc, Hf. rewrite Hr, Hc, Hf, Hc3, Hf3, Hc2, Hf2.
    unfold expected. now rewrite <- !app_assoc.
  - assert (exists st3,
              tool
              = (built <- Tool.build_message project releaser hash name [text] ;;
                 for_each urls (fun u => Tool.send_slack_notification w u built) ;;;
                 Tool.logger_info ("Release notification for project " +:+ project
                                   +:+ " completed successfully")) st3
              /\ calls st3
                 = calls st ++ [listing; Get (commit_url org hash) (api_headers token)]
              /\ files st3 = files st) as (st3 & -> & Hc3 & Hf3).
    { unfold Tool.notify_release. unfold bind at 1 2 3 4. unfold Tool.logger_info at 1.
      unfold emit at 1. set (st0 := said _ st).
      destruct (tool_extract_org_repo_run url st0) as (st1 & -> & Hc1 & Hf1).
      rewrite located.
      destruct (tool_get_tag_run w url hash st1) as (st2 & -> & Hc2 & Hf2).
      rewrite Hc1. cbn [calls st0 said]. rewrite Htag, Hno.
      unfold ret at 1. unfold bind at 1 2.
      pose proof (tool_get_commit_run w url hash token st2) as Hg. rewrite located in Hg.
      destruct Hg as (st3 & -> & Hc3 & Hf3).
      rewrite Hc2, Hc1. cbn [calls st0 said]. rewrite Hcommit.
      unfold lift. rewrite (commit_changes_text _ _ _ Hm Hn).
      exists st3. split; [reflexivity|].
      rewrite Hc3, Hf3, Hc2, Hf2, Hc1, Hf1. cbn [calls files st0 said].
      now rewrite <- app_assoc. }
    destruct (tool_message_dispatched w hash project releaser urls [text] name accepted st3)
      as (Hr & Hc & Hf).
    cbv zeta in Hr, Hc, Hf.
    rewrite Hr, Hc, Hf, Hc3, Hf3. unfold expected. now rewrite <- !app_assoc.
Qed.
End CommitGoesThrough.

(** X14.  A notification for a tagged commit, end to end.  When the locator
    accepts the URL, the listing gives a tag, the release record of that tag
    is fetched and has a text as [body] and a text as the [login] of its
    [author], and every webhook of the list takes the message, then both
    scripts return normally, having made these calls and no other, in this
    order: the listing, the one request for the release record, and one
    post to each webhook of the message built from the lines of the body
    and the login.  The commit is never fetched and no file is touched. *)
Theorem release_notification_goes_through :
  forall (w : World) (url hash project releaser token : string) (urls : list string)
         (st : state) (org tag : string) (fields author_fields : list (string * json))
         (body login : string),
    Root.extract_org_repo url = inr org ->
    listed_tag w (calls st) url hash = inr (Some tag) ->
    tag <> EmptyString ->
    fetched w (calls st ++ [Subprocess (ls_remote url)]) (release_url org tag) token
    = inr (JObj fields) ->
    lookup_field "body" fields = Some (JStr body) ->
    lookup_field "author" fields = Some (JObj author_fields) ->
    lookup_field "login" author_fields = Some (JStr login) ->
    let message := Root.build_message project releaser hash login (str_split NL body) in
    (forall history u, In u urls -> delivery w history u (payload message) = None) ->
    let expected :=
      calls st
      ++ [Subprocess (ls_remote url); Get (release_url org tag) (api_headers token)]
      ++ List.map (post_of message) urls in
    let root := Root.notify_release w url hash project releaser token urls st in
    let tool := Tool.notify_release w url hash project releaser token urls st in
    (fst root = inr tt /\ calls (snd root) = expected /\ files (snd root) = files st)
    /\ (fst tool = inr tt /\ calls (snd tool) = expected /\ files (snd tool) = files st).
Proof.
  intros w url hash project releaser token urls st org tag fields author_fields body login
    Hloc Htag Hne Hrel Hbody Hauthor Hlogin message Hacc. cbv zeta.
  apply (notify_of_release w url hash project releaser token urls st org
           (str_split NL body) login Hloc Hacc tag (JObj fields) Htag Hne Hrel).
  unfold release_changes, getitem. now rewrite Hbody, Hauthor, Hlogin.
Qed.

Lemma release_notification_goes_through_witness :
  let w := sample_world ("abcdef" +:+ str1 TAB +:+ "refs/tags/v1.0.0")
                        (sample_release ("fix bug" +:+ NL +:+ "add feature"))
                        sample_commit in
  let run := Tool.notify_release w "https://github.com/example/repo.git" "abcdef"
               "ProjectX" "username" "token123"
               ["https://hooks.example/a"; "https://hooks.example/b"] start in
  fst run = inr tt /\ length (calls (snd run)) = 4.
Proof.
  cbv zeta.
  destruct (release_notification_goes_through
              (sample_world ("abcdef" +:+ str1 TAB +:+ "refs/tags/v1.0.0")
                 (sample_release ("fix bug" +:+ NL +:+ "add feature")) sample_commit)
              "https://github.com/example/repo.git" "abcdef" "ProjectX" "username"
              "token123" ["https://hooks.example/a"; "https://hooks.example/b"] start
              "example/repo" "v1.0.0"
              [("tag_name", JStr "v1.0.0");
               ("body", JStr ("fix bug" +:+ NL +:+ "add feature"));
               ("author", JObj [("login", JStr "octocat")])]
              [("login", JStr "octocat")]
              ("fix bug" +:+ NL +:+ "add feature") "octocat")
    as (_ & Hr & Hc & _).
  - reflexivity.
  - reflexivity.
  - discriminate.
  - reflexivity.
  - reflexivity.
  - reflexivity.
  - reflexivity.
  - intros history u _. reflexivity.
  - split; [exact Hr|]. now rewrite Hc.
Defined.

(** X15.  A notification for a commit without a tag, end to end.  When the
    locator accepts the URL, the listing gives no tag (or the empty one),
    the commit is fetched and has a text as its message and a text as the
    name of its author, and every webhook of the list takes the message,
    then [tool/slackbot.py] returns normally, having made these calls and no
    other: the listing, the one request for the commit, and one post to
    each webhook of the message whose changelog is the commit message as a
    single row; and so does [slackbot.py] on a URL that its cut at the first
    colon locates as the locator does. *)
Theorem commit_notification_goes_through :
  forall (w : World) (url hash project releaser token : string) (urls : list string)
         (st : state) (org : string) (tag : option string) (commit_info : json)
         (text name : string),
    Root.extract_org_repo url = inr org ->
    locators_agree url ->
    listed_tag w (calls st) url hash = inr tag ->
    truthy_str tag = false ->
    fetched w (calls st ++ [Subprocess (ls_remote url)]) (commit_url org hash) token
    = inr commit_info ->
    commit_message commit_info = inr (JStr text) ->
    commit_author_name commit_info = inr (JStr name) ->
    let message := Root.build_message project releaser hash name [text] in
    (forall history u, In u urls -> delivery w history u (payload message) = None) ->
    let expected :=
      calls st
      ++ [Subprocess (ls_remote url); Get (commit_url org hash) (api_headers token)]
      ++ List.map (post_of message) urls in
    let root := Root.notify_release w url hash project releaser token urls st in
    let tool := Tool.notify_release w url hash project releaser token urls st in
    (fst root = inr tt /\ calls (snd root) = expected /\ files (snd root) = files st)
    /\ (fst tool = inr tt /\ calls (snd tool) = expected /\ files (snd tool) = files st).
Proof.
  intros w url hash project releaser token urls st org tag commit_info text name
    Hloc Hagree Htag Hno Hcommit Hm Hn message Hacc. cbv zeta.
  exact (notify_of_commit w url hash project releaser token urls st org text name
           Hloc Hacc tag commit_info Hagree Htag Hno Hcommit Hm Hn).
Qed.

Lemma commit_notification_goes_through_witness :
  let w := sample_world ("1111aaaa" +:+ str1 TAB +:+ "refs/heads/main")
                        (sample_release "unused") sample_commit in
  let run := Root.notify_release w "git@github.com:example/repo.git" "abcdef"
               "ProjectX" "username" "token123"
               ["https://hooks.example/a"; "https://hooks.example/b"] start in
  fst run = inr tt /\ length (calls (snd run)) = 4.
Proof.
  cbv zeta.
  destruct (commit_notification_goes_through
              (sample_world ("1111aaaa" +:+ str1 TAB +:+ "refs/heads/main")
                 (sample_release "unused") sample_commit)
              "git@github.com:example/repo.git" "abcdef" "ProjectX" "username"
              "token123" ["https://hooks.example/a"; "https://hooks.example/b"] start
              "example/repo" None sample_commit "hotfix: patch" "Jane Doe")
    as ((Hr & Hc & _) & _).
  - reflexivity.
  - apply (locators_agree_git_ssh "github.com" "example/repo.git"); reflexivity.
  - reflexivity.
  - reflexivity.
  - reflexivity.
  - reflexivity.
  - reflexivity.
  - intros history u _. reflexivity.
  - split; [exact Hr|]. now rewrite Hc.
Defined.

(** ** The lines of a run *)

Section Emitting.
Context (P : output -> Prop).

Lemma emitting_ret {A} (a : A) : emitting P (ret a).
Proof. intros st. exists []. cbn. now rewrite app_nil_r. Qed.

Lemma emitting_raise {A} e : emitting P (@raise A e).
Proof. intros st. exists []. cbn. now rewrite app_nil_r. Qed.

Lemma emitting_lift {A} (r : result A) : emitting P (lift r).
Proof. intros st. exists []. cbn. now rewrite app_nil_r. Qed.

Lemma emitting_emit o : P o -> emitting P (emit o).
Proof. intros Hp st. exists [o]. cbn. split; [reflexivity | now constructor]. Qed.

Lemma emitting_bind {A B} (m : M A) (k : A -> M B) :
  emitting P m -> (forall a, emitting P (k a)) -> emitting P (bind m k).
Proof.
  intros Hm Hk st. unfold bind. destruct (Hm st) as (d1 & H1 & F1).
  destruct (m st) as [[e|a] st1]; cbn [fst snd] in *.
  - now exists d1.
  - destruct (Hk a st1) as (d2 & H2 & F2). exists (d1 ++ d2).
    rewrite H2, H1, app_assoc. split; [reflexivity | now apply Forall_app].
Qed.

Lemma emitting_try_except {A} (m : M A) handler :
  emitting P m -> (forall e h, handler e = Some h -> emitting P h) ->
  emitting P (try_except m handler).
Proof.
  intros Hm Hh st. unfold try_except. destruct (Hm st) as (d1 & H1 & F1).
  destruct (m st) as [[e|a] st1]; cbn [fst snd] in *; [|now exists d1].
  destruct (handler e) as [h|] eqn:E; [|now exists d1].
  destruct (Hh e h E st1) as (d2 & H2 & F2). exists (d1 ++ d2).
  rewrite H2, H1, app_assoc. split; [reflexivity | now apply Forall_app].
Qed.

Lemma emitting_for_each {A} (l : list A) body :
  (forall x, emitting P (body x)) -> emitting P (for_each l body).
Proof.
  intros Hb. induction l as [|x l IH]; cbn [for_each].
  - apply emitting_ret.
  - apply emitting_bind; [apply Hb | intros _; exact IH].
Qed.

Context (w : World).

Lemma emitting_check_output command : emitting P (check_output w command).
Proof.
  intros st. exists []. unfold check_output.
  destruct (w_subprocess w (calls st) command); cbn; now rewrite app_nil_r.
Qed.

Lemma emitting_requests_get url hdrs : emitting P (requests_get w url hdrs).
Proof.
  intros st. exists []. unfold requests_get.
  destruct (w_get w (calls st) url hdrs); cbn; now rewrite app_nil_r.
Qed.

Lemma emitting_requests_post url hdrs data : emitting P (requests_post w url hdrs data).
Proof.
  intros st. exists []. unfold requests_post.
  destruct (w_post w (calls st) url hdrs data); cbn; now rewrite app_nil_r.
Qed.

Lemma emitting_dump_to_file file v : emitting P (dump_to_file w file v).
Proof.
  intros st. exists []. unfold dump_to_file.
  destruct (w_open w (calls st) file); cbn; now rewrite app_nil_r.
Qed.

Lemma emitting_raise_for_status r : emitting P (raise_for_status r).
Proof.
  unfold raise_for_status. destruct (http_error r); [apply emitting_raise | apply emitting_ret].
Qed.
End Emitting.

(** One step through the text of a function; what is asked of an emitted
    line is left as a goal. *)
Ltac emitting_step :=
  match goal with
  | |- emitting _ (bind _ _) => apply emitting_bind; [|intros ?]
  | |- emitting _ (ret _) => apply emitting_ret
  | |- emitting _ (raise _) => apply emitting_raise
  | |- emitting _ (sys_exit _) => apply emitting_raise
  | |- emitting _ (lift _) => apply emitting_lift
  | |- emitting _ (response_json _) => apply emitting_lift
  | |- emitting _ (emit _) => apply emitting_emit
  | |- emitting _ (raise_for_status _) => apply emitting_raise_for_status
  | |- emitting _ (check_output _ _) => apply emitting_check_output
  | |- emitting _ (requests_get _ _ _) => apply emitting_requests_get
  | |- emitting _ (requests_post _ _ _ _) => apply emitting_requests_post
  | |- emitting _ (dump_to_file _ _ _) => apply emitting_dump_to_file
  | |- emitting _ (for_each _ _) => apply emitting_for_each; intros ?
  | |- emitting _ (try_except _ _) => apply emitting_try_except; [|handler_cases]
  | |- emitting _ (if ?b then _ else _) => destruct b
  | |- emitting _ (match ?x with _ => _ end) => destruct x
  | |- emitting _ (let '(_, _) := ?x in _) => destruct x
  end.

Section LinesOfFunctions.
Context (w : World).

(** [slackbot.py] emits nothing below its entry point. *)
Lemma emitting_root_notify url hash p r token urls :
  emitting (fun _ => False) (Root.notify_release w url hash p r token urls).
Proof.
  unfold Root.notify_release, Root.get_tag_for_commit, Root.execute_shell_command,
    Root.get_release_info_by_tag, Root.get_commit_info, Root.send_slack_notification.
  repeat emitting_step.
Qed.

Lemma emitting_root_dump url hash token file :
  emitting (fun _ => False) (Root.dump_release_info w url hash token file).
Proof.
  unfold Root.dump_release_info, Root.get_tag_for_commit, Root.execute_shell_command,
    Root.get_release_info_by_tag, Root.get_commit_info.
  repeat emitting_step.
Qed.

Lemma silent_root_main args st :
  all_given args = true -> out (snd (Root.main w args st)) = out st.
Proof.
  intros Hg.
  assert (emitting (fun _ => False) (Root.main w args)) as H.
  { unfold Root.main. rewrite Hg. cbn [negb].
    apply emitting_bind; [apply emitting_ret | intros _].
    apply emitting_bind; [apply emitting_root_notify | intros _].
    destruct (truthy_str _); [apply emitting_root_dump | apply emitting_ret]. }
  destruct (H st) as (d & -> & Hd). destruct d as [|o d]; [apply app_nil_r|].
  now inversion Hd.
Qed.

(** Every line of [tool/slackbot.py] goes to the error stream. *)
Lemma emitting_tool_release args urls :
  emitting (fun o => on_stderr o = true) (Tool.release w args urls).
Proof.
  unfold Tool.release, Tool.notify_release, Tool.dump_release_info, Tool.get_tag_for_commit,
    Tool.execute_shell_command, Tool.get_release_info_by_tag, Tool.get_commit_info,
    Tool.extract_org_repo, Tool.send_slack_notification, Tool.build_message,
    Tool.logger_info, Tool.logger_warning, Tool.logger_error.
  repeat emitting_step; reflexivity.
Qed.

Lemma emitting_tool_main args : emitting (fun o => on_stderr o = true) (Tool.main w args).
Proof.
  unfold Tool.main, parser_error, Tool.logger_info, Tool.logger_error.
  apply emitting_bind; [destruct (negb (all_given args)); repeat emitting_step; reflexivity|].
  intros _. apply emitting_bind; [apply emitting_emit; reflexivity | intros _].
  apply emitting_bind; [|intros _; apply emitting_raise].
  apply emitting_try_except.
  - apply emitting_bind; [apply emitting_tool_release | intros _; apply emitting_raise].
  - intros e h H. destruct (error_line e); [|discriminate]. injection H as <-.
    apply emitting_emit. reflexivity.
Qed.
End LinesOfFunctions.

(** X16.  What the scripts themselves write, and where (the output of the
    [git] child process aside).  [slackbot.py] emits at most one message:
    nothing when it exits with status 0, one line with [print], on standard
    output, when it exits with status 1, and the usage error when it exits
    with status 2; nothing below its entry point writes anything.  Every
    message of [tool/slackbot.py] goes to the error stream, through the
    logger or as the usage error: it writes nothing on standard output. *)
Theorem lines_of_a_run :
  forall (w : World) (args : Args) (st : state),
    (exists d,
       out (snd (Root.script w args st)) = out st ++ d
       /\ ((fst (Root.script w args st) = inl (SystemExit 0) /\ d = [])
           \/ (fst (Root.script w args st) = inl (SystemExit 1)
               /\ exists text, d = [Print text])
           \/ (fst (Root.script w args st) = inl (SystemExit 2)
               /\ d = [Usage missing_arguments])
           \/ (fst (Root.script w args st) = inl OutOfModel /\ d = [])))
    /\ (exists d,
          out (snd (Tool.main w args st)) = out st ++ d
          /\ Forall (fun o => on_stderr o = true) d).
Proof.
  intros w args st. split; [|apply emitting_tool_main].
  rewrite root_script_run. destruct (all_given args) eqn:Hg.
  - pose proof (silent_root_main w args st Hg) as Hout.
    pose proof (root_main_tame w args Hg st) as Htame.
    destruct (Root.main w args st) as [[e|[]] st'] eqn:E; cbn [fst snd] in *.
    + specialize (Htame e eq_refl).
      destruct e; try discriminate;
        try (eexists; split; [cbn; rewrite Hout; reflexivity|];
             right; left; split; [reflexivity | eexists; reflexivity]).
      exists []. cbn. rewrite app_nil_r. split; [exact Hout|]. now do 3 right.
    + exists []. rewrite app_nil_r. split; [exact Hout|]. now left.
  - rewrite (root_main_missing w args st Hg). cbn.
    exists [Usage missing_arguments]. split; [reflexivity|]. right. right. left. now split.
Qed.
